(** * Verification of scripts/geocode-addresses.py

    A shallow embedding of the TeslaMate address geocoding script: the grid
    index ([snap_to_grid]), the catalog of existing addresses
    ([build_existing_grid]), the cluster builder and the three phases of
    [main], over an explicit model of the PostgreSQL tables, of the Google
    Maps provider and of the effects the script performs.

    Python floats are IEEE-754 binary64 numbers; they are modelled with the
    executable specification [SpecFloat] (precision 53, emax 1024), so that
    every definition below evaluates on concrete inputs. *)

From Stdlib Require Import ZArith List String Bool Lia Permutation.
From Stdlib Require Import SpecFloat.
Import ListNotations.

Local Open Scope string_scope.
Local Open Scope list_scope.
Local Open Scope Z_scope.

Set Implicit Arguments.

(* ================================================================== *)
(** ** Exceptions and fallible computations *)

(** The exceptions the modelled code can raise.  [SystemExit] carries the
    exit status of [sys.exit]; [Uncaught] is an exception of the provider
    call that [reverse_geocode_google] does not catch, by the name of its
    class ([TimeoutError], [ConnectionResetError], [JSONDecodeError], ...). *)
Inductive exn : Type :=
| ZeroDivisionError
| ValueError
| OverflowError
| IndexError
| SystemExit (code : Z)
| Uncaught (cls : string).

(** A pure computation that either raises or returns. *)
Inductive result (A : Type) : Type :=
| Raise (e : exn)
| Return (a : A).

Arguments Raise {A} e.
Arguments Return {A} a.

Definition rbind {A B} (r : result A) (k : A -> result B) : result B :=
  match r with
  | Raise e => Raise e
  | Return a => k a
  end.

Declare Scope result_scope.
Delimit Scope result_scope with result.
Notation "'let?' x := r 'in' k" := (rbind r (fun x => k))
  (at level 10, x pattern, r at level 100, k at level 200) : result_scope.
Local Open Scope result_scope.

(* ================================================================== *)
(** ** Python floats *)

Module PyFloat.

Definition prec : Z := 53.
Definition emax : Z := 1024.

Definition float : Type := spec_float.

Definition mul : float -> float -> float := SFmul prec emax.
Definition eqb : float -> float -> bool := SFeqb.
Definition ltb : float -> float -> bool := SFltb.
Definition leb : float -> float -> bool := SFleb.

Definition is_zero (x : float) : bool :=
  match x with S754_zero _ => true | _ => false end.

Definition is_nan (x : float) : bool :=
  match x with S754_nan => true | _ => false end.

Definition is_finite (x : float) : bool :=
  match x with S754_zero _ | S754_finite _ _ _ => true | _ => false end.

(** [x / y]: Python raises on a zero divisor (of either sign) instead of
    producing an infinity or a NaN. *)
Definition div (x y : float) : result float :=
  if is_zero y then Raise ZeroDivisionError
  else Return (SFdiv prec emax x y).

(** [float(n)] for an int [n]: correctly rounded, [OverflowError] when the
    int is too large. *)
Definition of_int (n : Z) : result float :=
  match binary_normalize prec emax n 0 false with
  | S754_infinity _ => Raise OverflowError
  | f => Return f
  end.

(** [n * y] for an int [n] and a float [y]: the int is converted first. *)
Definition int_mul (n : Z) (y : float) : result float :=
  let? x := of_int n in Return (mul x y).

(** The integer nearest to [num / den] ([den > 0], [num >= 0]), ties going
    to the even one. *)
Definition div_half_even (num den : Z) : Z :=
  let q := num / den in
  let r := num mod den in
  match 2 * r ?= den with
  | Lt => q
  | Gt => q + 1
  | Eq => if Z.even q then q else q + 1
  end.

(** The integer nearest to [m * 2^e], ties to even. *)
Definition round_half_even (m : positive) (e : Z) : Z :=
  match e with
  | Zneg p => div_half_even (Zpos m) (2 ^ Zpos p)
  | _ => Zpos m * 2 ^ e
  end.

(** [round(x)] with no [ndigits]: an int, by round-half-to-even;
    [ValueError] on NaN and [OverflowError] on an infinity. *)
Definition round (x : float) : result Z :=
  match x with
  | S754_nan => Raise ValueError
  | S754_infinity _ => Raise OverflowError
  | S754_zero _ => Return 0
  | S754_finite s m e => Return (cond_Zopp s (round_half_even m e))
  end.

(** The integer nearest to [m * 2^e * 10^nd], ties to even. *)
Definition scaled_half_even (m : positive) (e nd : Z) : Z :=
  match e with
  | Zneg p => div_half_even (Zpos m * 10 ^ nd) (2 ^ Zpos p)
  | _ => Zpos m * 2 ^ e * 10 ^ nd
  end.

(** [round(x, nd)] for [0 <= nd <= 323]: the float nearest to the decimal
    with [nd] fractional digits that is nearest to [x] (ties to even in
    both steps); non-finite values and zeros round to themselves, and the
    sign of [x] is kept when the result is a zero. *)
Definition round_ndigits (x : float) (nd : Z) : float :=
  match x with
  | S754_finite s m e =>
      match scaled_half_even m e nd with
      | Zpos n =>
          SFdiv prec emax (S754_finite s n 0)
                          (S754_finite false (Z.to_pos (10 ^ nd)) 0)
      | _ => S754_zero s
      end
  | _ => x
  end.

(** The float written [num / den] as a decimal literal: the binary64
    number nearest to the quotient. *)
Definition of_ratio (num den : positive) : float :=
  SFdiv prec emax (S754_finite false num 0) (S754_finite false den 0).

(** The float of an int known to fit. *)
Definition of_Z (n : Z) : float := binary_normalize prec emax n 0 false.

End PyFloat.

Definition float : Type := PyFloat.float.

(* ================================================================== *)
(** ** Grid index *)

(** Grid size for coordinate clustering, in degrees: the literal [0.0005]. *)
Definition DEFAULT_GRID_SIZE : float :=
  Eval vm_compute in PyFloat.of_ratio 5 10000.

Definition cell : Type := (float * float)%type.

(** One component of the grid index: [round(x / grid_size) * grid_size]. *)
Definition snap_coord (x grid_size : float) : result float :=
  let? q := PyFloat.div x grid_size in
  let? n := PyFloat.round q in
  PyFloat.int_mul n grid_size.

(** Snap coordinates to the nearest grid cell.  The tuple is built left to
    right, so that an exception of the latitude comes first. *)
Definition snap_to_grid (lat lng grid_size : float) : result cell :=
  let? glat := snap_coord lat grid_size in
  let? glng := snap_coord lng grid_size in
  Return (glat, glng).

(** Equality of two cells built by two calls of [snap_to_grid], as a dict
    compares a key it looks up with a key it holds: [==] on both
    components, under which two NaN differ and the two zeros are equal.
    (A dict finds the very tuple it was given whatever its components:
    the one place where the script looks up a tuple it has just stored is
    the cluster loop, see [add_to_cluster].) *)
Definition cell_eqb (c1 c2 : cell) : bool :=
  PyFloat.eqb (fst c1) (fst c2) && PyFloat.eqb (snd c1) (snd c2).


(* ================================================================== *)
(** ** Python dicts keyed by cells

    A dict keeps its keys in insertion order and finds a key by [==]; it is
    an association list searched with [cell_eqb]. *)

Section Dict.
Variable V : Type.

Definition dict : Type := list (cell * V).

(** [d.get(k)]; [k in d] is [dict_mem]. *)
Fixpoint dict_get (k : cell) (d : dict) : option V :=
  match d with
  | [] => None
  | (k', v) :: d' => if cell_eqb k' k then Some v else dict_get k d'
  end.

Definition dict_mem (k : cell) (d : dict) : bool :=
  match dict_get k d with Some _ => true | None => false end.

(** [d[k] = v]: the value of an equal key is replaced in place, a new key
    goes to the end. *)
Fixpoint dict_set (k : cell) (v : V) (d : dict) : dict :=
  match d with
  | [] => [(k, v)]
  | (k', v') :: d' =>
      if cell_eqb k' k then (k', v) :: d' else (k', v') :: dict_set k v d'
  end.

Definition dict_keys (d : dict) : list cell := map fst d.

End Dict.

(** [d[k].append(x)] on a dict of lists, for a key that is in [d]. *)
Fixpoint dict_append {A : Type} (k : cell) (x : A) (d : dict (list A))
  : dict (list A) :=
  match d with
  | [] => []
  | (k', xs) :: d' =>
      if cell_eqb k' k then (k', xs ++ [x]) :: d'
      else (k', xs) :: dict_append k x d'
  end.

(* ================================================================== *)
(** ** The Google Maps provider *)

(** One entry of [address_components]; an absent key is [None]. *)
Record address_component : Type := {
  comp_types : option (list string);
  comp_long_name : option string
}.

(** One geocoding result (a JSON object).  [extra_keys] are the keys the
    script does not read: they only matter for the truth value of the
    dict. *)
Record google_result : Type := {
  formatted_address : option string;
  address_components : option (list address_component);
  extra_keys : list string
}.

(** The decoded body of a reply. *)
Record geocode_data : Type := {
  status : option string;
  results : option (list google_result);
  error_message : option string
}.

(** What the request and the decoding of its reply yield: one of the two
    exceptions the script catches, a decoded body, or any other exception,
    by the name of its class.  [OtherException] stands for everything that
    [urlopen], [read], [decode] and [json.loads] raise besides [HTTPError]
    and [URLError] (a read timeout, a connection reset, a body that is not
    JSON), for the body of an HTTP error that cannot be read, and for a
    body that is not a JSON object with a list of objects as results. *)
Inductive http_outcome : Type :=
| HTTPError (code : Z) (body : string)
| URLError (reason : string)
| Response (data : geocode_data)
| OtherException (cls : string).

(** The provider: the outcome of the [n]-th request of the run (counted
    from 0), for the coordinate and the key sent. *)
Definition network : Type := nat -> float -> float -> option string -> http_outcome.

(** Truth value of a result dict: false exactly when it has no key. *)
Definition result_truthy (r : google_result) : bool :=
  match formatted_address r, address_components r, extra_keys r with
  | None, None, [] => false
  | _, _, _ => true
  end.

(** Truth value of an optional string: [None] and the empty string are
    false. *)
Definition str_truthy (o : option string) : bool :=
  match o with
  | Some s => negb (String.eqb s "")
  | None => false
  end.

(** The reply part of [reverse_geocode_google]: [None] on an HTTP or URL
    error, on a status other than OK and on missing or empty results.  An
    exception that is not caught yields no value at all: the function
    raises it before this is read. *)
Definition decode_outcome (o : http_outcome) : option google_result :=
  match o with
  | HTTPError _ _ => None
  | URLError _ => None
  | Response data =>
      match status data, results data with
      | Some st, Some (r :: _) => if String.eqb st "OK" then Some r else None
      | _, _ => None
      end
  | OtherException _ => None
  end.

(** [a or b] on optional strings. *)
Definition str_or (a b : option string) : option string :=
  if str_truthy a then a else b.

(** [x in xs] on strings. *)
Definition str_in (x : string) (xs : list string) : bool :=
  existsb (String.eqb x) xs.

(** Extract a specific address component from a Google Maps result: the
    [long_name] of the first component that carries the type. *)
Fixpoint extract_from (comps : list address_component) (component_type : string)
  : option string :=
  match comps with
  | [] => None
  | comp :: rest =>
      let types := match comp_types comp with Some ts => ts | None => [] end in
      if str_in component_type types then comp_long_name comp
      else extract_from rest component_type
  end.

Definition extract_component (result : google_result) (component_type : string)
  : option string :=
  extract_from
    (match address_components result with Some cs => cs | None => [] end)
    component_type.

(** A TeslaMate address dict. *)
Record address : Type := {
  display_name : string;
  latitude : float;
  longitude : float;
  name : option string;
  house_number : option string;
  road : option string;
  neighbourhood : option string;
  city : option string;
  county : option string;
  postcode : option string;
  state : option string;
  state_district : option string;
  country : option string;
  raw : google_result
}.

(** Convert a Google Maps geocoding result to a TeslaMate address dict. *)
Definition google_result_to_address (result : google_result) (grid_lat grid_lng : float)
  : address :=
  {| display_name :=
       match formatted_address result with Some s => s | None => "" end;
     latitude := PyFloat.round_ndigits grid_lat 6;
     longitude := PyFloat.round_ndigits grid_lng 6;
     name := str_or (extract_component result "point_of_interest")
               (str_or (extract_component result "premise")
                       (extract_component result "route"));
     house_number := extract_component result "street_number";
     road := extract_component result "route";
     neighbourhood := str_or (extract_component result "neighborhood")
                             (extract_component result "sublocality");
     city := str_or (extract_component result "locality")
                    (extract_component result "sublocality_level_1");
     county := extract_component result "administrative_area_level_2";
     postcode := extract_component result "postal_code";
     state := extract_component result "administrative_area_level_1";
     state_district := extract_component result "administrative_area_level_3";
     country := extract_component result "country";
     raw := result |}.

(* ================================================================== *)
(** ** The database *)

Inductive record_type : Type := drive_start | drive_end | charging.

(** A row of [positions].  The coordinates are the values that [float(lat)]
    and [float(lng)] give for the stored numerics. *)
Record position_row : Type := {
  pos_id : Z;
  pos_latitude : float;
  pos_longitude : float
}.

Record drive_row : Type := {
  drive_id : Z;
  start_position_id : option Z;
  end_position_id : option Z;
  start_address_id : option Z;
  end_address_id : option Z
}.

Record charging_row : Type := {
  charging_id : Z;
  position_id : option Z;
  address_id : option Z
}.

(** A row of [addresses]: the columns the script reads, and for a row the
    script inserted the dict it was built from. *)
Record address_row : Type := {
  row_id : Z;
  row_display_name : option string;
  row_latitude : option float;
  row_longitude : option float;
  row_inserted : option address
}.

Record database : Type := {
  addresses : list address_row;
  drives : list drive_row;
  charging_processes : list charging_row;
  positions : list position_row;
  addresses_id_seq : Z
}.

(** A record that needs geocoding: [(record_id, record_type, lat, lng)]. *)
Definition pending_record : Type := (Z * record_type * float * float)%type.

Definition record_id_of (r : pending_record) : Z :=
  let '(record_id, _, _, _) := r in record_id.
Definition record_type_of (r : pending_record) : record_type :=
  let '(_, record_type, _, _) := r in record_type.
Definition lat_of (r : pending_record) : float :=
  let '(_, _, lat, _) := r in lat.
Definition lng_of (r : pending_record) : float :=
  let '(_, _, _, lng) := r in lng.

(** [col = %s] for a nullable integer column. *)
Definition col_is (col : option Z) (v : Z) : bool :=
  match col with Some x => x =? v | None => false end.

(** [s LIKE '%sub%']. *)
Fixpoint contains (sub s : string) : bool :=
  if String.prefix sub s then true
  else match s with
       | EmptyString => false
       | String _ s' => contains sub s'
       end.

Definition is_placeholder_row (r : address_row) : bool :=
  match row_display_name r with
  | Some s => contains "Pending Geocode" s
  | None => false
  end.

(** Find the placeholder address ID. *)
Definition find_placeholder_id (d : database) : option Z :=
  match filter is_placeholder_row (addresses d) with
  | r :: _ => Some (row_id r)
  | [] => None
  end.

(** [JOIN positions p ON fk = p.id]. *)
Definition join_position (d : database) (fk : option Z) : list position_row :=
  filter (fun p => col_is fk (pos_id p)) (positions d).

Definition pending_of (d : database) (id : Z) (t : record_type) (fk : option Z)
  : list pending_record :=
  map (fun p => (id, t, pos_latitude p, pos_longitude p)) (join_position d fk).

(** Get all records that need geocoding, grouped by type. *)
Definition get_pending_records (d : database) (placeholder_id : Z)
  : list pending_record :=
  flat_map (fun r =>
              if col_is (start_address_id r) placeholder_id
              then pending_of d (drive_id r) drive_start (start_position_id r)
              else []) (drives d)
  ++ flat_map (fun r =>
              if col_is (end_address_id r) placeholder_id
              then pending_of d (drive_id r) drive_end (end_position_id r)
              else []) (drives d)
  ++ flat_map (fun r =>
              if col_is (address_id r) placeholder_id
              then pending_of d (charging_id r) charging (position_id r)
              else []) (charging_processes d).

(** Get all existing non-placeholder addresses with their coordinates. *)
Definition get_existing_addresses (d : database) (placeholder_id : Z)
  : list (Z * float * float) :=
  flat_map (fun r =>
              if row_id r =? placeholder_id then []
              else match row_latitude r, row_longitude r with
                   | Some lat, Some lng => [(row_id r, lat, lng)]
                   | _, _ => []
                   end) (addresses d).

(** Build a mapping of grid cells to existing address IDs; the first
    address found per cell is kept. *)
Fixpoint build_existing_grid_from (grid : dict Z)
  (existing_addresses : list (Z * float * float)) (grid_size : float)
  : result (dict Z) :=
  match existing_addresses with
  | [] => Return grid
  | (addr_id, lat, lng) :: rest =>
      let? c := snap_to_grid lat lng grid_size in
      build_existing_grid_from
        (if dict_mem c grid then grid else dict_set c addr_id grid)
        rest grid_size
  end.

Definition build_existing_grid (existing_addresses : list (Z * float * float))
  (grid_size : float) : result (dict Z) :=
  build_existing_grid_from [] existing_addresses grid_size.

(** The number of records that reference an address: the count query of
    Phase 3 over drive starts, drive ends and charging processes. *)
Definition count_references (d : database) (id : Z) : Z :=
  Z.of_nat (List.length (filter (fun r => col_is (start_address_id r) id) (drives d))
            + List.length (filter (fun r => col_is (end_address_id r) id) (drives d))
            + List.length (filter (fun r => col_is (address_id r) id)
                        (charging_processes d))).

(* ================================================================== *)
(** ** Effects *)

(** What the script does to the outside, in the order it does it. *)
Inductive event : Type :=
| EvApiCall (lat lng : float)
| EvInsert (addr : address) (id : Z)
| EvUpdate (t : record_type) (record_id addr_id : Z)
| EvCommit
| EvDelete (id : Z)
| EvSleep (seconds : float).

(** The state the script runs in: the tables as the open transaction sees
    them, the number of requests sent to the provider, and the effects so
    far. *)
Record world : Type := {
  db : database;
  requests : nat;
  trace : list event
}.

Definition emit (e : event) (w : world) : world :=
  {| db := db w; requests := requests w; trace := trace w ++ [e] |}.

Definition with_db (d : database) (w : world) : world :=
  {| db := d; requests := requests w; trace := trace w |}.

(** Call the Google Maps reverse geocoding API.  Only [HTTPError] and
    [URLError] are caught; any other exception of the request or of the
    decoding goes up to the caller. *)
Definition reverse_geocode_google (net : network) (lat lng : float)
  (api_key : option string) (w : world) : result (option google_result * world) :=
  match net (requests w) lat lng api_key with
  | OtherException cls => Raise (Uncaught cls)
  | o =>
      Return (decode_outcome o,
              emit (EvApiCall lat lng)
                {| db := db w; requests := S (requests w); trace := trace w |})
  end.

Definition row_of_address (id : Z) (addr : address) : address_row :=
  {| row_id := id;
     row_display_name := Some (display_name addr);
     row_latitude := Some (latitude addr);
     row_longitude := Some (longitude addr);
     row_inserted := Some addr |}.

(** Insert a new address into the addresses table, return its ID. *)
Definition insert_address (addr : address) (w : world) : Z * world :=
  let d := db w in
  let id := addresses_id_seq d + 1 in
  (id,
   emit (EvInsert addr id)
     (with_db {| addresses := addresses d ++ [row_of_address id addr];
                 drives := drives d;
                 charging_processes := charging_processes d;
                 positions := positions d;
                 addresses_id_seq := id |} w)).

Definition set_start_address (record_id addr_id : Z) (r : drive_row) : drive_row :=
  if drive_id r =? record_id then
    {| drive_id := drive_id r;
       start_position_id := start_position_id r;
       end_position_id := end_position_id r;
       start_address_id := Some addr_id;
       end_address_id := end_address_id r |}
  else r.

Definition set_end_address (record_id addr_id : Z) (r : drive_row) : drive_row :=
  if drive_id r =? record_id then
    {| drive_id := drive_id r;
       start_position_id := start_position_id r;
       end_position_id := end_position_id r;
       start_address_id := start_address_id r;
       end_address_id := Some addr_id |}
  else r.

Definition set_charging_address (record_id addr_id : Z) (r : charging_row)
  : charging_row :=
  if charging_id r =? record_id then
    {| charging_id := charging_id r;
       position_id := position_id r;
       address_id := Some addr_id |}
  else r.

Definition update_table (t : record_type) (record_id addr_id : Z) (d : database)
  : database :=
  match t with
  | drive_start =>
      {| addresses := addresses d;
         drives := map (set_start_address record_id addr_id) (drives d);
         charging_processes := charging_processes d;
         positions := positions d;
         addresses_id_seq := addresses_id_seq d |}
  | drive_end =>
      {| addresses := addresses d;
         drives := map (set_end_address record_id addr_id) (drives d);
         charging_processes := charging_processes d;
         positions := positions d;
         addresses_id_seq := addresses_id_seq d |}
  | charging =>
      {| addresses := addresses d;
         drives := drives d;
         charging_processes :=
           map (set_charging_address record_id addr_id) (charging_processes d);
         positions := positions d;
         addresses_id_seq := addresses_id_seq d |}
  end.

(** Update a drive or charging process with the resolved address ID. *)
Definition update_records (t : record_type) (record_id addr_id : Z) (w : world)
  : world :=
  emit (EvUpdate t record_id addr_id) (with_db (update_table t record_id addr_id (db w)) w).

(** [conn.commit()]. *)
Definition commit (w : world) : world := emit EvCommit w.

(** [DELETE FROM addresses WHERE id = %s]. *)
Definition delete_address (id : Z) (w : world) : world :=
  let d := db w in
  emit (EvDelete id)
    (with_db {| addresses := filter (fun r => negb (row_id r =? id)) (addresses d);
                drives := drives d;
                charging_processes := charging_processes d;
                positions := positions d;
                addresses_id_seq := addresses_id_seq d |} w).

(** The duration fits the clock: [time.sleep] converts it to a signed
    64-bit count of nanoseconds, as the float [seconds * 1e9], which has to
    lie in [-2^63, 2^63) (CPython 3.11 and later). *)
Definition sleep_fits (seconds : float) : bool :=
  let ns := PyFloat.mul seconds (PyFloat.of_Z (10 ^ 9)) in
  PyFloat.leb (PyFloat.of_Z (- 2 ^ 63)) ns && PyFloat.ltb ns (PyFloat.of_Z (2 ^ 63)).

(** [time.sleep(seconds)]: [ValueError] on a NaN, [OverflowError] on a
    duration that does not fit the clock (an infinity, or some 9.2e9
    seconds and more), [ValueError] on a negative duration; otherwise the
    pause is recorded and changes nothing else. *)
Definition sleep (seconds : float) (w : world) : result world :=
  if PyFloat.is_nan seconds then Raise ValueError
  else if negb (sleep_fits seconds) then Raise OverflowError
  else if PyFloat.ltb seconds (S754_zero false) then Raise ValueError
  else Return (emit (EvSleep seconds) w).

(** [for record_id, record_type, _, _ in records: update_records(...)]. *)
Definition update_all (records : list pending_record) (addr_id : Z) (w : world)
  : world :=
  fold_left (fun w r => update_records (record_type_of r) (record_id_of r) addr_id w)
            records w.

(* ================================================================== *)
(** ** The run *)

(** The parsed command line, as far as the run depends on it. *)
Record args : Type := {
  api_key : option string;
  db_pass : option string;
  grid_size : float;
  dry_run : bool;
  delay : float
}.

Definition len {A : Type} (l : list A) : Z := Z.of_nat (List.length l).

Definition clusters_t : Type := dict (list pending_record).

(** One turn of the cluster loop: a cell that is not yet a key gets a fresh
    list, and the record is appended to the list of its cell.  The key just
    added is the very tuple looked up next, which a dict finds again even
    when a NaN component makes it differ from itself under [==]. *)
Definition add_to_cluster (clusters : clusters_t) (r : pending_record) (c : cell)
  : clusters_t :=
  if dict_mem c clusters then dict_append c r clusters
  else clusters ++ [(c, [r])].

(** Build grid clusters from pending records. *)
Fixpoint build_clusters_from (clusters : clusters_t) (pending : list pending_record)
  (grid_size : float) : result clusters_t :=
  match pending with
  | [] => Return clusters
  | r :: rest =>
      let? c := snap_to_grid (lat_of r) (lng_of r) grid_size in
      build_clusters_from (add_to_cluster clusters r c) rest grid_size
  end.

Definition build_clusters (pending : list pending_record) (grid_size : float)
  : result clusters_t :=
  build_clusters_from [] pending grid_size.

(** The variables of Phase 1. *)
Record phase1_vars : Type := {
  matched_from_existing : Z;
  records_updated_phase1 : Z;
  cells_to_geocode : clusters_t
}.

(** Phase 1, one cluster: match it to an existing address or keep it for
    Phase 2. *)
Definition phase1_step (dry : bool) (existing_grid : dict Z)
  (st : phase1_vars * world) (entry : cell * list pending_record)
  : phase1_vars * world :=
  let '(v, w) := st in
  let '(c, records) := entry in
  match dict_get c existing_grid with
  | Some addr_id =>
      ({| matched_from_existing := matched_from_existing v + 1;
          records_updated_phase1 := records_updated_phase1 v + len records;
          cells_to_geocode := cells_to_geocode v |},
       if dry then w else update_all records addr_id w)
  | None =>
      ({| matched_from_existing := matched_from_existing v;
          records_updated_phase1 := records_updated_phase1 v;
          cells_to_geocode := dict_set c records (cells_to_geocode v) |},
       w)
  end.

Definition phase1 (dry : bool) (existing_grid : dict Z) (clusters : clusters_t)
  (w : world) : phase1_vars * world :=
  fold_left (phase1_step dry existing_grid) clusters
    ({| matched_from_existing := 0;
        records_updated_phase1 := 0;
        cells_to_geocode := [] |}, w).

(** The counters of Phase 2. *)
Record phase2_vars : Type := {
  api_calls : Z;
  api_errors : Z;
  records_updated_phase2 : Z
}.

(** [if result:] on the value [reverse_geocode_google] returns. *)
Definition usable (result : option google_result) : option google_result :=
  match result with
  | Some r => if result_truthy r then Some r else None
  | None => None
  end.

(** Phase 2, one cluster: geocode the first record's position and give the
    new address to every record of the cluster. *)
Definition phase2_step (a : args) (net : network)
  (st : phase2_vars * world) (entry : cell * list pending_record)
  : result (phase2_vars * world) :=
  let '(v, w) := st in
  let '(c, records) := entry in
  let '(grid_lat, grid_lng) := c in
  match records with
  | [] => Raise IndexError          (* [records[0]] *)
  | first :: _ =>
      let actual_lat := lat_of first in
      let actual_lng := lng_of first in
      let? (result, w1) :=
        reverse_geocode_google net actual_lat actual_lng (api_key a) w in
      let calls := api_calls v + 1 in
      let '(v2, w2) :=
        match usable result with
        | Some r =>
            let addr := google_result_to_address r grid_lat grid_lng in
            let '(addr_id, wi) := insert_address addr w1 in
            let wu := update_all records addr_id wi in
            ({| api_calls := calls;
                api_errors := api_errors v;
                records_updated_phase2 := records_updated_phase2 v + len records |},
             if calls mod 50 =? 0 then commit wu else wu)
        | None =>
            ({| api_calls := calls;
                api_errors := api_errors v + 1;
                records_updated_phase2 := records_updated_phase2 v |},
             w1)
        end in
      let? w3 := if PyFloat.ltb (S754_zero false) (delay a)
                 then sleep (delay a) w2 else Return w2 in
      Return (v2, w3)
  end.

Fixpoint phase2_loop (a : args) (net : network) (cells : clusters_t)
  (st : phase2_vars * world) : result (phase2_vars * world) :=
  match cells with
  | [] => Return st
  | entry :: rest =>
      let? st' := phase2_step a net st entry in
      phase2_loop a net rest st'
  end.

(** Phase 2 of a real run: the loop over [cells_to_geocode] and the commit
    that follows it. *)
Definition phase2 (a : args) (net : network) (cells : clusters_t) (w : world)
  : result (phase2_vars * world) :=
  let? st := phase2_loop a net cells
               ({| api_calls := 0; api_errors := 0; records_updated_phase2 := 0 |}, w) in
  Return (fst st, commit (snd st)).

(** A Python number: [est_cost] is the int [0] or a float. *)
Inductive number : Type :=
| Int (n : Z)
| Float (f : float).

(** The literal [0.005]. *)
Definition COST_PER_CALL : float := Eval vm_compute in PyFloat.of_ratio 5 1000.

(** [calls * 0.005 if calls > 10000 else 0]. *)
Definition est_cost (calls : Z) : result number :=
  if calls >? 10000
  then let? c := PyFloat.int_mul calls COST_PER_CALL in Return (Float c)
  else Return (Int 0).

(** Phase 3 of a real run: delete the placeholder when nothing references
    it any more. *)
Definition phase3 (placeholder_id : Z) (w : world) : Z * world :=
  let remaining := count_references (db w) placeholder_id in
  (remaining,
   if remaining =? 0 then commit (delete_address placeholder_id w) else w).

(** The variables of [main] when it reaches its end. *)
Record locals : Type := {
  placeholder_id : Z;
  pending : list pending_record;
  clusters : clusters_t;
  existing : list (Z * float * float);
  existing_grid : dict Z;
  vars1 : phase1_vars;
  vars2 : option phase2_vars;
  remaining : option Z;
  total_records : Z;
  cost : number
}.

(** How a run that raises nothing ends. *)
Inductive run_end : Type :=
| NoPlaceholder
| NoPending
| Finished (l : locals).

(** The run of the script on the parsed arguments [a], against the provider
    [net], from the world [w].  A run that raises gives the exception only;
    [if not placeholder_id] is taken by a missing row and by the ID 0. *)
Definition main (a : args) (net : network) (w : world) : result (run_end * world) :=
  if negb (str_truthy (api_key a)) && negb (dry_run a) then Raise (SystemExit 1)
  else if negb (str_truthy (db_pass a)) then Raise (SystemExit 1)
  else
    match find_placeholder_id (db w) with
    | None => Return (NoPlaceholder, w)
    | Some pid =>
        if pid =? 0 then Return (NoPlaceholder, w)
        else
          match get_pending_records (db w) pid with
          | [] => Return (NoPending, w)
          | (_ :: _) as pend =>
              let? clus := build_clusters pend (grid_size a) in
              let exist := get_existing_addresses (db w) pid in
              let? egrid := build_existing_grid exist (grid_size a) in
              (* Phase 1 *)
              let '(v1, w1) := phase1 (dry_run a) egrid clus w in
              let w1 := if dry_run a then w1 else commit w1 in
              (* Phase 2 *)
              let? p2 :=
                if dry_run a then Return (None, w1)
                else if negb (str_truthy (api_key a)) then Raise (SystemExit 1)
                else let? st := phase2 a net (cells_to_geocode v1) w1 in
                     Return (Some (fst st), snd st) in
              let '(v2, w2) := p2 in
              (* Phase 3 *)
              let '(rem, w3) :=
                if dry_run a then (None, w2)
                else let '(n, w') := phase3 pid w2 in (Some n, w') in
              (* [api_calls] in a real run, [len(cells_to_geocode)] in a dry run *)
              let? c :=
                match v2 with
                | Some v => est_cost (api_calls v)
                | None => est_cost (len (cells_to_geocode v1))
                end in
              Return (Finished {| placeholder_id := pid;
                                  pending := pend;
                                  clusters := clus;
                                  existing := exist;
                                  existing_grid := egrid;
                                  vars1 := v1;
                                  vars2 := v2;
                                  remaining := rem;
                                  total_records := len pend;
                                  cost := c |},
                      w3)
          end
    end.

(* ================================================================== *)
(** ** Sample data *)

(** A decimal coordinate [n / 10^4], possibly negative. *)
Definition deg (n : Z) : float :=
  match n with
  | Zpos p => PyFloat.of_ratio p 10000
  | Zneg p => SFopp (PyFloat.of_ratio p 10000)
  | Z0 => S754_zero false
  end.

Definition sample_result : google_result :=
  {| formatted_address := Some "1 Main St, Boston, MA 02101, USA";
     address_components :=
       Some [ {| comp_types := Some ["street_number"]; comp_long_name := Some "1" |};
              {| comp_types := Some ["route"]; comp_long_name := Some "Main St" |};
              {| comp_types := Some ["locality"; "political"];
                 comp_long_name := Some "Boston" |} ];
     extra_keys := ["place_id"] |}.

Definition ok_reply : http_outcome :=
  Response {| status := Some "OK"; results := Some [sample_result];
              error_message := None |}.

Definition zero_results_reply : http_outcome :=
  Response {| status := Some "ZERO_RESULTS"; results := Some [];
              error_message := None |}.

(** A provider that always answers. *)
Definition net_ok : network := fun _ _ _ _ => ok_reply.

(** A provider that is never reachable. *)
Definition net_down : network := fun _ _ _ _ => URLError "timed out".

(** A provider that answers except on its request number [k]. *)
Definition net_fail_at (k : nat) : network :=
  fun n _ _ _ => if Nat.eqb n k then zero_results_reply else ok_reply.

(** A provider that answers except on its request number [k], where reading
    the reply times out. *)
Definition net_timeout_at (k : nat) : network :=
  fun n _ _ _ => if Nat.eqb n k then OtherException "TimeoutError" else ok_reply.

Definition placeholder_row : address_row :=
  {| row_id := 1; row_display_name := Some "Pending Geocode";
     row_latitude := None; row_longitude := None; row_inserted := None |}.

(** Two drives ends and a charge; the start of drive 10 and charge 20 are
    some metres apart, the end of drive 10 is elsewhere. *)
Definition sample_db : database :=
  {| addresses := [placeholder_row];
     drives := [ {| drive_id := 10;
                    start_position_id := Some 1; end_position_id := Some 3;
                    start_address_id := Some 1; end_address_id := Some 1 |} ];
     charging_processes :=
       [ {| charging_id := 20; position_id := Some 2; address_id := Some 1 |} ];
     positions :=
       [ {| pos_id := 1; pos_latitude := deg 420001; pos_longitude := deg (-710001) |};
         {| pos_id := 2; pos_latitude := deg 420002; pos_longitude := deg (-710002) |};
         {| pos_id := 3; pos_latitude := deg 420500; pos_longitude := deg (-710500) |} ];
     addresses_id_seq := 1 |}.

(** The same tables with an address already geocoded in the cell of the
    first position. *)
Definition sample_db_known : database :=
  {| addresses := [ placeholder_row;
                    {| row_id := 2; row_display_name := Some "Home";
                       row_latitude := Some (deg 420000);
                       row_longitude := Some (deg (-710000));
                       row_inserted := None |} ];
     drives := drives sample_db;
     charging_processes := charging_processes sample_db;
     positions := positions sample_db;
     addresses_id_seq := 2 |}.

Definition start_world (d : database) : world :=
  {| db := d; requests := 0; trace := [] |}.

Definition sample_args : args :=
  {| api_key := Some "key"; db_pass := Some "secret";
     grid_size := DEFAULT_GRID_SIZE; dry_run := false;
     delay := PyFloat.of_ratio 1 10 |}.

Definition with_dry_run (dry : bool) (a : args) : args :=
  {| api_key := api_key a; db_pass := db_pass a; grid_size := grid_size a;
     dry_run := dry; delay := delay a |}.

Definition with_grid_size (g : float) (a : args) : args :=
  {| api_key := api_key a; db_pass := db_pass a; grid_size := g;
     dry_run := dry_run a; delay := delay a |}.


(** A table of [n] drives whose starts are pending, one degree of latitude
    apart: [n] clusters of one record. *)
Definition far_apart_db (n : nat) : database :=
  {| addresses := [placeholder_row];
     drives := map (fun i => {| drive_id := Z.of_nat i;
                                start_position_id := Some (Z.of_nat i);
                                end_position_id := None;
                                start_address_id := Some 1;
                                end_address_id := None |}) (seq 1 n);
     charging_processes := [];
     positions := map (fun i => {| pos_id := Z.of_nat i;
                                   pos_latitude := PyFloat.of_Z (Z.of_nat i);
                                   pos_longitude := S754_zero false |}) (seq 1 n);
     addresses_id_seq := 1 |}.

(* ================================================================== *)
(** ** Reading a trace *)

(** The coordinates sent to the provider, in order. *)
Definition api_calls_of (t : list event) : list (float * float) :=
  flat_map (fun e => match e with EvApiCall lat lng => [(lat, lng)] | _ => [] end) t.

Definition is_delete (e : event) : bool :=
  match e with EvDelete _ => true | _ => false end.

(** The updates that give address [addr_id] to the records of a cluster. *)
Definition updates_for (records : list pending_record) (addr_id : Z) : list event :=
  map (fun r => EvUpdate (record_type_of r) (record_id_of r) addr_id) records.

(** Completed lookups at risk: walking the trace, [cur] counts the inserts
    since the last commit and [worst] is the largest [cur] seen when a
    request is sent, that is what a crash during a request would lose. *)
Definition uncommitted_step (st : nat * nat) (e : event) : nat * nat :=
  let '(cur, worst) := st in
  match e with
  | EvInsert _ _ => (S cur, worst)
  | EvCommit => (O, worst)
  | EvApiCall _ _ => (cur, Nat.max worst cur)
  | _ => (cur, worst)
  end.

Definition max_uncommitted (t : list event) : nat :=
  snd (fold_left uncommitted_step t (O, O)).

(** The first record of a cluster, whose position is sent to the provider. *)
Definition representative (entry : cell * list pending_record) : option (float * float) :=
  match snd entry with
  | first :: _ => Some (lat_of first, lng_of first)
  | [] => None
  end.

(** The outcome of the lookup of a cluster when it is request number [n]. *)
Definition lookup_of (a : args) (net : network) (n : nat)
  (entry : cell * list pending_record) : option google_result :=
  match representative entry with
  | Some (lat, lng) => usable (decode_outcome (net n lat lng (api_key a)))
  | None => None
  end.

(** No key of the list is equal to a later one. *)
Fixpoint distinct_keys (ks : list cell) : bool :=
  match ks with
  | [] => true
  | k :: rest => forallb (fun k' => negb (cell_eqb k k')) rest && distinct_keys rest
  end.

(** A cluster is kept for Phase 2 when the catalog has no address in its
    cell. *)
Definition unmatched {V : Type} (existing_grid : dict Z) (entry : cell * V) : bool :=
  negb (dict_mem (fst entry) existing_grid).

(** Every cluster of the dict has a record. *)
Definition nonempty_records (d : clusters_t) : bool :=
  forallb (fun entry => match snd entry with [] => false | _ :: _ => true end) d.

(** The pause that ends a turn of the Phase 2 loop. *)
Definition pause_events (a : args) : list event :=
  if PyFloat.ltb (S754_zero false) (delay a) then [EvSleep (delay a)] else [].

(** The commit of a successful turn whose request number is a multiple of
    50. *)
Definition commit_events (calls : Z) : list event :=
  if calls mod 50 =? 0 then [EvCommit] else [].

(** A provider call that errors in a way the script catches, or that
    returns no usable result: an HTTP error, a URL error, a status other
    than OK, no result in the reply, or an empty object as first result. *)
Definition call_failed (o : http_outcome) : Prop :=
  match o with
  | HTTPError _ _ => True
  | URLError _ => True
  | Response data =>
      status data <> Some "OK" \/ results data = None \/ results data = Some [] \/
      exists r rs, results data = Some (r :: rs) /\ result_truthy r = false
  | OtherException _ => False
  end.

(** The provider call raises nothing that the script lets through. *)
Definition answers (o : http_outcome) : bool :=
  match o with
  | OtherException _ => false
  | _ => true
  end.

(** The pause that ends a turn raises nothing: there is none, or its
    duration fits the clock. *)
Definition pause_ok (a : args) : bool :=
  negb (PyFloat.ltb (S754_zero false) (delay a)) || sleep_fits (delay a).

(** The turn of a cluster that is request number [n] raises nothing: the
    cluster has a first record, the call raises nothing that goes through,
    and the pause raises nothing. *)
Definition turn_ok (a : args) (net : network) (n : nat)
  (entry : cell * list pending_record) : bool :=
  match representative entry with
  | Some (lat, lng) => answers (net n lat lng (api_key a)) && pause_ok a
  | None => false
  end.

(** The same for the turns of a list of clusters, the first of which is
    request number [n]. *)
Fixpoint turns_ok (a : args) (net : network) (n : nat) (cells : clusters_t) : bool :=
  match cells with
  | [] => true
  | entry :: rest => turn_ok a net n entry && turns_ok a net (S n) rest
  end.

(** The key of a cluster is the cell of its first record. *)
Definition key_is_snap (g : float) (entry : cell * list pending_record) : Prop :=
  match snd entry with
  | first :: _ => snap_to_grid (lat_of first) (lng_of first) g = Return (fst entry)
  | [] => False
  end.

Definition sample_pending : list pending_record :=
  Eval vm_compute in get_pending_records sample_db 1.

Definition sample_clusters : clusters_t :=
  Eval vm_compute in
    match build_clusters sample_pending DEFAULT_GRID_SIZE with
    | Return clus => clus
    | Raise _ => []
    end.

(** The run of the sample data with a provider that always answers. *)
Definition sample_run : result (run_end * world) :=
  main sample_args net_ok (start_world sample_db).

(** The keys of the two clusters of the sample data. *)
Definition sample_key_a : cell := Eval vm_compute in (deg 420000, deg (-710000)).

Definition sample_key_b : cell :=
  Eval vm_compute in
    match snap_to_grid (deg 420500) (deg (-710500)) DEFAULT_GRID_SIZE with
    | Return c => c
    | Raise _ => (S754_nan, S754_nan)
    end.

(** Two stored addresses some metres apart, in one cell, and a third
    elsewhere. *)
Definition sample_existing : list (Z * float * float) :=
  [ (2, deg 420001, deg (-710001));
    (5, deg 420002, deg (-710002));
    (7, deg 420500, deg (-710500)) ].

(** The records of all the clusters, cluster after cluster. *)
Definition all_records (d : clusters_t) : list pending_record :=
  List.concat (map snd d).

(** The position of a record snaps to a cell equal to [k]. *)
Definition in_cell (g : float) (k : cell) (r : pending_record) : Prop :=
  exists c, snap_to_grid (lat_of r) (lng_of r) g = Return c /\ cell_eqb k c = true.

Definition is_call (e : event) : bool :=
  match e with EvApiCall _ _ => true | _ => false end.

Definition is_insert (e : event) : bool :=
  match e with EvInsert _ _ => true | _ => false end.

Definition is_update (e : event) : bool :=
  match e with EvUpdate _ _ _ => true | _ => false end.

(** The number of events of a kind in a trace. *)
Definition count_events (f : event -> bool) (t : list event) : Z :=
  len (filter f t).

Definition record_type_eqb (t1 t2 : record_type) : bool :=
  match t1, t2 with
  | drive_start, drive_start | drive_end, drive_end | charging, charging => true
  | _, _ => false
  end.

(** The address references of the records of kind [t] with ID [rid]: the
    column that [update_records] sets for that kind, in the rows with that
    ID. *)
Definition references_of (d : database) (t : record_type) (rid : Z) : list (option Z) :=
  match t with
  | drive_start =>
      map start_address_id (filter (fun r => drive_id r =? rid) (drives d))
  | drive_end =>
      map end_address_id (filter (fun r => drive_id r =? rid) (drives d))
  | charging =>
      map address_id (filter (fun r => charging_id r =? rid) (charging_processes d))
  end.

(** The record of kind [t] with ID [rid] references the address [id]. *)
Definition refers (d : database) (id : Z) (t : record_type) (rid : Z) : bool :=
  existsb (fun col => col_is col id) (references_of d t rid).

(** The record of kind [t] with ID [rid] is among [records]. *)
Definition targets (records : list pending_record) (t : record_type) (rid : Z) : bool :=
  existsb (fun r => record_type_eqb (record_type_of r) t && (record_id_of r =? rid))
          records.

(** Every drive start, drive end and charging process that references the
    address [id] has its position in [positions]. *)
Definition positions_complete (d : database) (id : Z) : bool :=
  forallb (fun r => negb (col_is (start_address_id r) id)
                    || existsb (fun p => col_is (start_position_id r) (pos_id p))
                               (positions d)) (drives d)
  && forallb (fun r => negb (col_is (end_address_id r) id)
                       || existsb (fun p => col_is (end_position_id r) (pos_id p))
                                  (positions d)) (drives d)
  && forallb (fun r => negb (col_is (address_id r) id)
                       || existsb (fun p => col_is (position_id r) (pos_id p))
                                  (positions d)) (charging_processes d).

(** The configuration [main] accepts: a database password, and an API key
    unless the run is a dry run. *)
Definition config_ok (a : args) : bool :=
  str_truthy (db_pass a) && (str_truthy (api_key a) || dry_run a).

(** The exceptions of the arithmetic on floats. *)
Definition is_arith_error (e : exn) : bool :=
  match e with
  | ZeroDivisionError | ValueError | OverflowError => true
  | IndexError | SystemExit _ | Uncaught _ => false
  end.

(** The records of the clusters whose lookup succeeds, when the first
    cluster is request number [n]. *)
Fixpoint resolved_records (a : args) (net : network) (n : nat) (cells : clusters_t)
  : list pending_record :=
  match cells with
  | [] => []
  | entry :: rest =>
      match lookup_of a net n entry with
      | Some _ => snd entry
      | None => []
      end ++ resolved_records a net (S n) rest
  end.

(** The records of the clusters that Phase 1 matches to an address. *)
Definition reused_records (eg : dict Z) (clus : clusters_t) : list pending_record :=
  all_records (filter (fun entry => negb (unmatched eg entry)) clus).

(** What identifies a record in the store: its kind and its ID. *)
Definition record_key (r : pending_record) : record_type * Z :=
  (record_type_of r, record_id_of r).

(** A grid of 2.5e-7 degrees, finer than the 6 decimal places an address
    is stored with. *)
Definition fine_grid : float := Eval vm_compute in PyFloat.of_ratio 25 100000000.

Definition fine_args : args := with_grid_size fine_grid sample_args.

(** One drive whose start is pending, at (42.05000025, -71.05000025). *)
Definition fine_db : database :=
  {| addresses := [placeholder_row];
     drives := [ {| drive_id := 10;
                    start_position_id := Some 1; end_position_id := None;
                    start_address_id := Some 1; end_address_id := None |} ];
     charging_processes := [];
     positions :=
       [ {| pos_id := 1;
            pos_latitude := PyFloat.of_ratio 4205000025 100000000;
            pos_longitude := SFopp (PyFloat.of_ratio 7105000025 100000000) |} ];
     addresses_id_seq := 1 |}.

(** The cell of that position on the fine grid. *)
Definition fine_key : cell :=
  Eval vm_compute in
    match snap_to_grid (PyFloat.of_ratio 4205000025 100000000)
            (SFopp (PyFloat.of_ratio 7105000025 100000000)) fine_grid with
    | Return c => c
    | Raise _ => (S754_nan, S754_nan)
    end.


(** The cell, on the fine grid, of the key of [fine_key] rounded to 6
    decimal places. *)
Definition fine_stored_cell : cell :=
  Eval vm_compute in
    match snap_to_grid (PyFloat.round_ndigits (fst fine_key) 6)
            (PyFloat.round_ndigits (snd fine_key) 6) fine_grid with
    | Return c => c
    | Raise _ => (S754_nan, S754_nan)
    end.


(* ================================================================== *)
(** * Properties *)

Unset Implicit Arguments.

(** ** Floats *)

Lemma div_half_even_spec (num den : Z) :
  0 <= num -> 0 < den ->
  let n := PyFloat.div_half_even num den in
  0 <= n /\
  2 * Z.abs (num - n * den) <= den /\
  (2 * Z.abs (num - n * den) = den -> Z.even n = true).
Proof.
  intros Hnum Hden. unfold PyFloat.div_half_even.
  pose proof (Z.div_mod num den ltac:(lia)) as Hdm.
  pose proof (Z.mod_pos_bound num den Hden) as Hr.
  pose proof (Z.div_pos num den Hnum Hden) as Hq.
  set (q := num / den) in *. set (r := num mod den) in *.
  destruct (2 * r ?= den) eqn:Hc.
  - apply Z.compare_eq in Hc.
    destruct (Z.even q) eqn:He.
    + repeat split; try lia. intros _. exact He.
    + repeat split; try lia. intros _.
      rewrite Z.even_add, He. reflexivity.
  - rewrite Z.compare_lt_iff in Hc. repeat split; lia.
  - rewrite Z.compare_gt_iff in Hc. repeat split; lia.
Qed.

Lemma shr_1_nonneg (mrs : shr_record) :
  0 <= shr_m mrs -> 0 <= shr_m (shr_1 mrs).
Proof.
  destruct mrs as [m r s]. simpl.
  destruct m as [|[p|p|]|[p|p|]]; simpl; lia.
Qed.

Lemma iter_shr_1_nonneg (p : positive) :
  forall mrs, 0 <= shr_m mrs -> 0 <= shr_m (iter_pos shr_1 p mrs).
Proof.
  induction p as [p IH|p IH|]; intros mrs H; simpl.
  - apply IH, IH, shr_1_nonneg, H.
  - apply IH, IH, H.
  - apply shr_1_nonneg, H.
Qed.

Lemma shr_fexp_nonneg (prec emax m e : Z) (l : location) :
  0 <= m -> 0 <= shr_m (fst (shr_fexp prec emax m e l)).
Proof.
  intros H. unfold shr_fexp, shr.
  assert (H0 : 0 <= shr_m (shr_record_of_loc m l))
    by (destruct l as [|[]]; exact H).
  destruct (fexp prec emax (Zdigits2 m + e) - e); simpl; auto.
  apply iter_shr_1_nonneg, H0.
Qed.

Lemma round_nearest_even_nonneg (m : Z) (l : location) :
  0 <= m -> 0 <= round_nearest_even m l.
Proof.
  intros H. destruct l as [|[]]; simpl; try lia.
  destruct (Z.even m); lia.
Qed.

(** Rounding a non-negative mantissa never yields a NaN. *)
Lemma binary_round_aux_not_nan (prec emax : Z) (s : bool) (m e : Z) (l : location) :
  0 <= m -> binary_round_aux prec emax s m e l <> S754_nan.
Proof.
  intros H. unfold binary_round_aux.
  pose proof (shr_fexp_nonneg prec emax m e l H) as H1.
  destruct (shr_fexp prec emax m e l) as [mrs' e'] eqn:E1. simpl in H1.
  pose proof (round_nearest_even_nonneg _ (loc_of_shr_record mrs') H1) as H2.
  pose proof (shr_fexp_nonneg prec emax _ e' loc_Exact H2) as H3.
  destruct (shr_fexp prec emax (round_nearest_even (shr_m mrs') (loc_of_shr_record mrs'))
              e' loc_Exact) as [mrs'' e''] eqn:E2. simpl in H3.
  destruct (shr_m mrs'') as [|p|p]; try discriminate; try lia.
  destruct (e'' <=? emax - prec); discriminate.
Qed.

Lemma mul_not_nan (x y : float) :
  PyFloat.is_finite x = true -> PyFloat.is_finite y = true ->
  PyFloat.is_nan (PyFloat.mul x y) = false.
Proof.
  destruct x as [sx|sx| |sx mx ex], y as [sy|sy| |sy my ey];
    simpl; try discriminate; intros _ _; try reflexivity.
  pose proof (@binary_round_aux_not_nan PyFloat.prec PyFloat.emax (xorb sx sy)
                (Zpos (mx * my)) (ex + ey) loc_Exact ltac:(lia)) as H.
  unfold PyFloat.mul, SFmul.
  destruct (binary_round_aux _ _ _ _ _ _); try reflexivity. congruence.
Qed.

Lemma of_int_finite (n : Z) (f : float) :
  PyFloat.of_int n = Return f -> PyFloat.is_finite f = true.
Proof.
  unfold PyFloat.of_int, binary_normalize.
  destruct n as [|p|p].
  - intros H. inversion H. reflexivity.
  - unfold binary_round.
    destruct (shl_align p 0 _) as [mz ez].
    pose proof (@binary_round_aux_not_nan PyFloat.prec PyFloat.emax false
                  (Zpos mz) ez loc_Exact ltac:(lia)) as H.
    destruct (binary_round_aux _ _ _ _ _ _); intros E; inversion E; subst;
      try reflexivity; congruence.
  - unfold binary_round.
    destruct (shl_align p 0 _) as [mz ez].
    pose proof (@binary_round_aux_not_nan PyFloat.prec PyFloat.emax true
                  (Zpos mz) ez loc_Exact ltac:(lia)) as H.
    destruct (binary_round_aux _ _ _ _ _ _); intros E; inversion E; subst;
      try reflexivity; congruence.
Qed.

(** [x == x] holds for every float but NaN. *)
Lemma eqb_refl (x : float) : PyFloat.is_nan x = false -> PyFloat.eqb x x = true.
Proof.
  unfold PyFloat.eqb, SFeqb.
  destruct x as [s|s| |s m e]; simpl; try discriminate; intros _.
  - reflexivity.
  - destruct s; reflexivity.
  - rewrite Z.compare_refl, Pos.compare_cont_refl. destruct s; reflexivity.
Qed.

(** ** Grid index *)

Lemma snap_coord_zero (x g : float) :
  PyFloat.is_zero g = true -> snap_coord x g = Raise ZeroDivisionError.
Proof.
  intros H. unfold snap_coord, PyFloat.div. rewrite H. reflexivity.
Qed.

Lemma snap_coord_returns_nonzero (x g y : float) :
  snap_coord x g = Return y -> PyFloat.is_zero g = false.
Proof.
  unfold snap_coord, PyFloat.div.
  destruct (PyFloat.is_zero g); [discriminate | reflexivity].
Qed.

Lemma snap_coord_not_nan (x g y : float) :
  PyFloat.is_finite g = true -> snap_coord x g = Return y ->
  PyFloat.is_nan y = false.
Proof.
  intros Hg. unfold snap_coord, PyFloat.div, PyFloat.int_mul.
  destruct (PyFloat.is_zero g); [discriminate|]. simpl.
  destruct (PyFloat.round _) as [e|n]; [discriminate|]. simpl.
  destruct (PyFloat.of_int n) as [e|f] eqn:Hf; [discriminate|]. simpl.
  intros H. inversion H. subst y.
  apply mul_not_nan; [eapply of_int_finite; eassumption | exact Hg].
Qed.

Lemma snap_to_grid_inv (lat lng g : float) (c : cell) :
  snap_to_grid lat lng g = Return c ->
  snap_coord lat g = Return (fst c) /\ snap_coord lng g = Return (snd c).
Proof.
  unfold snap_to_grid.
  destruct (snap_coord lat g) as [e|y1]; [discriminate|]. simpl.
  destruct (snap_coord lng g) as [e|y2]; [discriminate|]. simpl.
  intros H. inversion H. split; reflexivity.
Qed.

Lemma round_finite_spec (s : bool) (m : positive) (e : Z) :
  exists a : Z,
    PyFloat.round (S754_finite s m e) = Return (cond_Zopp s a) /\
    0 <= a /\
    (0 <= e -> a = Zpos m * 2 ^ e) /\
    (e < 0 ->
     2 * Z.abs (Zpos m - a * 2 ^ (- e)) <= 2 ^ (- e) /\
     (2 * Z.abs (Zpos m - a * 2 ^ (- e)) = 2 ^ (- e) -> Z.even a = true)).
Proof.
  exists (PyFloat.round_half_even m e). split; [reflexivity|].
  unfold PyFloat.round_half_even.
  destruct e as [|p|p].
  - repeat split; try lia.
  - repeat split; try lia.
  - assert (Hd : 0 < 2 ^ Zpos p) by (apply Z.pow_pos_nonneg; lia).
    destruct (@div_half_even_spec (Zpos m) (2 ^ Zpos p) ltac:(lia) Hd) as (H0 & H1 & H2).
    split; [exact H0|]. split; [lia|]. intros _.
    change (- Zneg p) with (Zpos p). split; assumption.
Qed.

(** C2.  The grid index is the pure function
    [(round(lat/g)*g, round(lng/g)*g)]: it returns a cell exactly when both
    components do, each component being the quotient by the grid size,
    rounded to an int and multiplied back; the rounding rule is the single
    rule round-half-to-even (the int is nearest to the quotient, and a tie
    goes to the even int); the function takes and returns no state, so two
    evaluations on the same inputs return the same key, and for a finite
    grid size the two keys are also equal under [==], the equality of dict
    keys. *)
Theorem snap_to_grid_pure_half_even :
  (forall lat lng g c,
      snap_to_grid lat lng g = Return c <->
      exists nlat nlng,
        PyFloat.is_zero g = false /\
        PyFloat.round (SFdiv PyFloat.prec PyFloat.emax lat g) = Return nlat /\
        PyFloat.int_mul nlat g = Return (fst c) /\
        PyFloat.round (SFdiv PyFloat.prec PyFloat.emax lng g) = Return nlng /\
        PyFloat.int_mul nlng g = Return (snd c)) /\
  (forall s m e,
      exists a : Z,
        PyFloat.round (S754_finite s m e) = Return (cond_Zopp s a) /\
        0 <= a /\
        (0 <= e -> a = Zpos m * 2 ^ e) /\
        (e < 0 ->
         2 * Z.abs (Zpos m - a * 2 ^ (- e)) <= 2 ^ (- e) /\
         (2 * Z.abs (Zpos m - a * 2 ^ (- e)) = 2 ^ (- e) -> Z.even a = true))) /\
  (forall lat lng g c c',
      snap_to_grid lat lng g = Return c ->
      snap_to_grid lat lng g = Return c' ->
      c = c' /\ (PyFloat.is_finite g = true -> cell_eqb c c' = true)).
Proof.
  split; [|split].
  - intros lat lng g c. unfold snap_to_grid, snap_coord, PyFloat.div. split.
    + destruct (PyFloat.is_zero g); [discriminate|]. simpl.
      destruct (PyFloat.round (SFdiv _ _ lat g)) as [x|nlat] eqn:E1; [discriminate|]. simpl.
      destruct (PyFloat.int_mul nlat g) as [x|y1] eqn:E2; [discriminate|]. simpl.
      destruct (PyFloat.round (SFdiv _ _ lng g)) as [x|nlng] eqn:E3; [discriminate|]. simpl.
      destruct (PyFloat.int_mul nlng g) as [x|y2] eqn:E4; [discriminate|]. simpl.
      intros H. inversion H. exists nlat, nlng. simpl. repeat split; assumption.
    + intros (nlat & nlng & Hz & H1 & H2 & H3 & H4).
      rewrite Hz. simpl. rewrite H1. simpl. rewrite H2. simpl.
      rewrite H3. simpl. rewrite H4. simpl. destruct c; reflexivity.
  - intros s m e. apply round_finite_spec.
  - intros lat lng g c c' Hc Hc'.
    assert (c = c') by congruence. subst c'. split; [reflexivity|]. intros Hg.
    apply snap_to_grid_inv in Hc. destruct Hc as [H1 H2].
    unfold cell_eqb.
    rewrite !eqb_refl; [reflexivity| |].
    + eapply snap_coord_not_nan; eassumption.
    + eapply snap_coord_not_nan; eassumption.
Qed.

Lemma snap_to_grid_pure_half_even_witness :
  snap_to_grid (deg 420001) (deg (-710001)) DEFAULT_GRID_SIZE
  = Return (deg 420000, deg (-710000)) /\
  cell_eqb (deg 420000, deg (-710000)) (deg 420000, deg (-710000)) = true.
Proof.
  split; [vm_compute; reflexivity|].
  apply (proj2 (proj2 snap_to_grid_pure_half_even)
           (deg 420001) (deg (-710001)) DEFAULT_GRID_SIZE
           (deg 420000, deg (-710000)) (deg 420000, deg (-710000)));
    vm_compute; reflexivity.
Defined.

Lemma build_clusters_zero_grid (r : pending_record) (rest : list pending_record)
  (g : float) :
  PyFloat.is_zero g = true -> build_clusters (r :: rest) g = Raise ZeroDivisionError.
Proof.
  intros H. unfold build_clusters. simpl.
  unfold snap_to_grid. rewrite snap_coord_zero by exact H. reflexivity.
Qed.

(** C10.  The grid index returns only when the grid size is nonzero: with a
    grid size of zero (of either sign) [snap_to_grid] raises
    [ZeroDivisionError] for every coordinate, and nothing in [main] rejects
    such a grid size, so a run with a valid configuration and a pending
    record reaches the division and ends with that exception. *)
Theorem snap_to_grid_zero_grid_size :
  (forall lat lng g,
      PyFloat.is_zero g = true ->
      snap_to_grid lat lng g = Raise ZeroDivisionError) /\
  (forall lat lng g c,
      snap_to_grid lat lng g = Return c -> PyFloat.is_zero g = false) /\
  (forall a net w pid,
      PyFloat.is_zero (grid_size a) = true ->
      str_truthy (db_pass a) = true ->
      str_truthy (api_key a) = true \/ dry_run a = true ->
      find_placeholder_id (db w) = Some pid ->
      pid <> 0 ->
      get_pending_records (db w) pid <> [] ->
      main a net w = Raise ZeroDivisionError).
Proof.
  split; [|split].
  - intros lat lng g H. unfold snap_to_grid.
    rewrite snap_coord_zero by exact H. reflexivity.
  - intros lat lng g c H. apply snap_to_grid_inv in H.
    eapply snap_coord_returns_nonzero. exact (proj1 H).
  - intros a net w pid Hg Hpass Hkey Hpid Hnz Hpend.
    unfold main. rewrite Hpass, Hpid. simpl.
    assert (Hcfg : negb (str_truthy (api_key a)) && negb (dry_run a) = false)
      by (destruct Hkey as [-> | ->]; [reflexivity | apply andb_false_r]).
    rewrite Hcfg.
    destruct (Z.eqb_spec pid 0) as [|_]; [contradiction|].
    destruct (get_pending_records (db w) pid) as [|r rest]; [contradiction|].
    rewrite build_clusters_zero_grid by exact Hg. reflexivity.
Qed.

Lemma snap_to_grid_zero_grid_size_witness :
  main (with_grid_size (S754_zero false) sample_args) net_ok (start_world sample_db)
  = Raise ZeroDivisionError.
Proof.
  apply (proj2 (proj2 snap_to_grid_zero_grid_size)
           (with_grid_size (S754_zero false) sample_args) net_ok
           (start_world sample_db) 1).
  - reflexivity.
  - reflexivity.
  - left. reflexivity.
  - reflexivity.
  - lia.
  - vm_compute. discriminate.
Defined.

(** ** Dicts and clusters *)

Lemma dict_mem_false_keys {V : Type} (k : cell) (d : dict V) :
  dict_mem k d = false <->
  forallb (fun k' => negb (cell_eqb k' k)) (dict_keys d) = true.
Proof.
  unfold dict_mem. induction d as [|[k' v] d IH]; simpl.
  - split; reflexivity.
  - destruct (cell_eqb k' k); simpl.
    + split; discriminate.
    + exact IH.
Qed.

Lemma dict_set_fresh {V : Type} (k : cell) (v : V) (d : dict V) :
  dict_mem k d = false -> dict_set k v d = d ++ [(k, v)].
Proof.
  unfold dict_mem. induction d as [|[k' v'] d IH]; simpl.
  - reflexivity.
  - destruct (cell_eqb k' k); [discriminate|].
    intros H. rewrite IH by exact H. reflexivity.
Qed.

Lemma dict_append_keys {A : Type} (k : cell) (x : A) (d : dict (list A)) :
  dict_keys (dict_append k x d) = dict_keys d.
Proof.
  unfold dict_keys. induction d as [|[k' xs] d IH]; simpl.
  - reflexivity.
  - destruct (cell_eqb k' k); simpl; [reflexivity|].
    rewrite IH. reflexivity.
Qed.

Lemma dict_append_nonempty (k : cell) (r : pending_record) (d : clusters_t) :
  nonempty_records d = true -> nonempty_records (dict_append k r d) = true.
Proof.
  unfold nonempty_records. induction d as [|[k' xs] d IH]; simpl.
  - reflexivity.
  - intros H. apply andb_true_iff in H. destruct H as [H1 H2].
    destruct (cell_eqb k' k); simpl.
    + rewrite H2. destruct xs; reflexivity.
    + rewrite H1. simpl. apply IH, H2.
Qed.

Lemma distinct_keys_snoc (ks : list cell) (k : cell) :
  distinct_keys (ks ++ [k]) =
  distinct_keys ks && forallb (fun k' => negb (cell_eqb k' k)) ks.
Proof.
  induction ks as [|k0 ks IH]; simpl.
  - reflexivity.
  - rewrite forallb_app, IH. simpl.
    destruct (forallb (fun k' => negb (cell_eqb k0 k')) ks),
             (cell_eqb k0 k), (distinct_keys ks); simpl; try reflexivity.
Qed.

Lemma add_to_cluster_inv (clus : clusters_t) (r : pending_record) (c : cell) :
  distinct_keys (dict_keys clus) = true ->
  nonempty_records clus = true ->
  distinct_keys (dict_keys (add_to_cluster clus r c)) = true /\
  nonempty_records (add_to_cluster clus r c) = true.
Proof.
  intros Hd Hn. unfold add_to_cluster.
  destruct (dict_mem c clus) eqn:Hm.
  - rewrite dict_append_keys. split; [exact Hd|].
    apply dict_append_nonempty, Hn.
  - split.
    + unfold dict_keys. rewrite map_app. simpl.
      rewrite distinct_keys_snoc. apply andb_true_iff. split; [exact Hd|].
      apply dict_mem_false_keys, Hm.
    + unfold nonempty_records. rewrite forallb_app. simpl.
      unfold nonempty_records in Hn. rewrite Hn. reflexivity.
Qed.

Lemma build_clusters_from_inv (pend : list pending_record) (g : float) :
  forall acc clus,
    distinct_keys (dict_keys acc) = true ->
    nonempty_records acc = true ->
    build_clusters_from acc pend g = Return clus ->
    distinct_keys (dict_keys clus) = true /\ nonempty_records clus = true.
Proof.
  induction pend as [|r rest IH]; simpl; intros acc clus Hd Hn H.
  - inversion H. subst. split; assumption.
  - destruct (snap_to_grid (lat_of r) (lng_of r) g) as [e|c]; [discriminate|].
    simpl in H.
    destruct (add_to_cluster_inv acc r c Hd Hn) as [Hd' Hn'].
    exact (IH _ _ Hd' Hn' H).
Qed.

(** The clusters have pairwise different keys and no empty list. *)
Lemma build_clusters_inv (pend : list pending_record) (g : float) (clus : clusters_t) :
  build_clusters pend g = Return clus ->
  distinct_keys (dict_keys clus) = true /\ nonempty_records clus = true.
Proof.
  apply build_clusters_from_inv; reflexivity.
Qed.

(** ** Writes *)

Lemma update_records_spec (t : record_type) (rid aid : Z) (w : world) :
  trace (update_records t rid aid w) = trace w ++ [EvUpdate t rid aid] /\
  requests (update_records t rid aid w) = requests w /\
  addresses (db (update_records t rid aid w)) = addresses (db w) /\
  addresses_id_seq (db (update_records t rid aid w)) = addresses_id_seq (db w).
Proof.
  destruct t; simpl; repeat split; reflexivity.
Qed.

Lemma update_all_spec (records : list pending_record) (aid : Z) :
  forall w,
    trace (update_all records aid w) = trace w ++ updates_for records aid /\
    requests (update_all records aid w) = requests w /\
    addresses (db (update_all records aid w)) = addresses (db w) /\
    addresses_id_seq (db (update_all records aid w)) = addresses_id_seq (db w).
Proof.
  unfold update_all, updates_for.
  induction records as [|r rest IH]; intros w; simpl.
  - rewrite app_nil_r. repeat split; reflexivity.
  - destruct (IH (update_records (record_type_of r) (record_id_of r) aid w))
      as (H1 & H2 & H3 & H4).
    destruct (update_records_spec (record_type_of r) (record_id_of r) aid w)
      as (G1 & G2 & G3 & G4).
    rewrite H1, H2, H3, H4, G1, G2, G3, G4, <- app_assoc.
    repeat split; reflexivity.
Qed.

Lemma updates_have_no_delete (records : list pending_record) (aid : Z) :
  forallb (fun e => negb (is_delete e)) (updates_for records aid) = true.
Proof.
  unfold updates_for. induction records as [|r rest IH]; simpl; auto.
Qed.

(** ** Phase 1 *)

(** The counts and the clusters kept for Phase 2 do not depend on the
    dry-run flag nor on the state of the store. *)
Lemma phase1_vars_indep (eg : dict Z) (clus : clusters_t) :
  forall v w1 w2 d1 d2,
    fst (fold_left (phase1_step d1 eg) clus (v, w1)) =
    fst (fold_left (phase1_step d2 eg) clus (v, w2)).
Proof.
  induction clus as [|[c recs] rest IH]; intros v w1 w2 d1 d2; simpl.
  - reflexivity.
  - destruct (dict_get c eg) as [aid|]; apply IH.
Qed.

(** A dry run leaves the world as it is in Phase 1. *)
Lemma phase1_dry_world (eg : dict Z) (clus : clusters_t) :
  forall v w, snd (fold_left (phase1_step true eg) clus (v, w)) = w.
Proof.
  induction clus as [|[c recs] rest IH]; intros v w; simpl.
  - reflexivity.
  - destruct (dict_get c eg) as [aid|]; apply IH.
Qed.

(** Phase 1 sends no request, deletes nothing and leaves the addresses
    alone. *)
Lemma phase1_effects (dry : bool) (eg : dict Z) (clus : clusters_t) :
  forall v w,
    let w' := snd (fold_left (phase1_step dry eg) clus (v, w)) in
    requests w' = requests w /\
    addresses (db w') = addresses (db w) /\
    addresses_id_seq (db w') = addresses_id_seq (db w) /\
    exists delta,
      trace w' = trace w ++ delta /\
      forallb (fun e => negb (is_delete e)) delta = true /\
      api_calls_of delta = [].
Proof.
  induction clus as [|[c recs] rest IH]; intros v w; simpl.
  - repeat split; try reflexivity. exists []. rewrite app_nil_r. auto.
  - destruct (dict_get c eg) as [aid|].
    + destruct dry.
      * apply IH.
      * specialize (IH {| matched_from_existing := matched_from_existing v + 1;
                          records_updated_phase1 := records_updated_phase1 v + len recs;
                          cells_to_geocode := cells_to_geocode v |}
                       (update_all recs aid w)).
        simpl in IH. destruct IH as (H1 & H2 & H3 & delta & H4 & H5 & H6).
        destruct (update_all_spec recs aid w) as (G1 & G2 & G3 & G4).
        rewrite H1, H2, H3, H4, G1, G2, G3, G4.
        repeat split; try reflexivity.
        exists (updates_for recs aid ++ delta).
        rewrite <- app_assoc. split; [reflexivity|].
        rewrite forallb_app, updates_have_no_delete, H5.
        split; [reflexivity|].
        unfold api_calls_of in *. rewrite flat_map_app, H6, app_nil_r.
        unfold updates_for. clear. induction recs; simpl; auto.
    + apply IH.
Qed.

Lemma phase1_cells_from (dry : bool) (eg : dict Z) (clus : clusters_t) :
  forall v w,
    distinct_keys (dict_keys clus) = true ->
    (forall k k', In k (dict_keys (cells_to_geocode v)) ->
                  In k' (dict_keys clus) -> cell_eqb k k' = false) ->
    cells_to_geocode (fst (fold_left (phase1_step dry eg) clus (v, w))) =
    cells_to_geocode v ++ filter (unmatched eg) clus.
Proof.
  induction clus as [|[c recs] rest IH]; intros v w Hd Hfresh; simpl.
  - rewrite app_nil_r. reflexivity.
  - simpl in Hd. apply andb_true_iff in Hd. destruct Hd as [Hc Hd].
    unfold unmatched at 1. unfold dict_mem. simpl.
    destruct (dict_get c eg) as [aid|]; simpl.
    + rewrite IH; [reflexivity | exact Hd |].
      simpl. intros k k' Hk Hk'. apply Hfresh; [exact Hk | right; exact Hk'].
    + assert (Hm : dict_mem c (cells_to_geocode v) = false).
      { apply dict_mem_false_keys. apply forallb_forall. intros k Hk.
        rewrite (Hfresh k c Hk (or_introl eq_refl)). reflexivity. }
      rewrite IH; [| exact Hd |].
      * simpl. rewrite (dict_set_fresh c recs _ Hm), <- app_assoc. reflexivity.
      * simpl. rewrite (dict_set_fresh c recs _ Hm).
        unfold dict_keys. rewrite map_app. simpl.
        intros k k' Hk Hk'. apply in_app_or in Hk. destruct Hk as [Hk|[<-|[]]].
        -- apply Hfresh; [exact Hk | right; exact Hk'].
        -- rewrite forallb_forall in Hc. specialize (Hc k' Hk').
           apply negb_true_iff in Hc. exact Hc.
Qed.

(** The clusters kept for Phase 2 are the clusters without an address in
    the catalog, in the order of the clusters. *)
Lemma phase1_cells (dry : bool) (eg : dict Z) (clus : clusters_t) (w : world) :
  distinct_keys (dict_keys clus) = true ->
  cells_to_geocode (fst (phase1 dry eg clus w)) = filter (unmatched eg) clus.
Proof.
  intros Hd. unfold phase1. rewrite phase1_cells_from; [reflexivity | exact Hd |].
  simpl. intros k k' [].
Qed.

Lemma nonempty_records_filter (f : cell * list pending_record -> bool)
  (clus : clusters_t) :
  nonempty_records clus = true -> nonempty_records (filter f clus) = true.
Proof.
  unfold nonempty_records. induction clus as [|e rest IH]; simpl; auto.
  intros H. apply andb_true_iff in H. destruct H as [H1 H2].
  destruct (f e); simpl; [rewrite H1|]; auto.
Qed.

Lemma distinct_keys_filter {V : Type} (f : cell * V -> bool) (d : dict V) :
  distinct_keys (dict_keys d) = true ->
  distinct_keys (dict_keys (filter f d)) = true.
Proof.
  unfold dict_keys. induction d as [|e rest IH]; simpl; auto.
  intros H. apply andb_true_iff in H. destruct H as [H1 H2].
  destruct (f e); simpl; [|auto].
  rewrite (IH H2), andb_true_r.
  rewrite forallb_forall in *. intros k Hk. apply H1.
  apply in_map_iff in Hk. destruct Hk as (x & <- & Hx).
  apply filter_In in Hx. apply in_map, Hx.
Qed.

(** ** Phase 2 *)

(** A duration above zero is neither a NaN nor below zero. *)
Lemma positive_duration (d : float) :
  PyFloat.ltb (S754_zero false) d = true ->
  PyFloat.is_nan d = false /\ PyFloat.ltb d (S754_zero false) = false.
Proof.
  destruct d as [[]|[]| |[] m e]; simpl; intros H; try discriminate H;
    split; reflexivity.
Qed.

(** The pause of a turn when it raises nothing. *)
Lemma pause_spec (a : args) (w : world) :
  pause_ok a = true ->
  exists w',
    (if PyFloat.ltb (S754_zero false) (delay a)
     then sleep (delay a) w else Return w) = Return w' /\
    trace w' = trace w ++ pause_events a /\
    requests w' = requests w /\ db w' = db w.
Proof.
  unfold pause_ok, pause_events.
  destruct (PyFloat.ltb (S754_zero false) (delay a)) eqn:Hpos; cbn [negb orb].
  - intros Hfits. destruct (positive_duration _ Hpos) as [Hnan Hneg].
    unfold sleep. rewrite Hnan, Hfits, Hneg. cbn [negb].
    eexists. split; [reflexivity|]. simpl. repeat split; reflexivity.
  - intros _. exists w. rewrite app_nil_r. repeat split; reflexivity.
Qed.

(** The pause of a turn when its duration does not fit the clock. *)
Lemma pause_raises (a : args) (w : world) :
  pause_ok a = false ->
  (if PyFloat.ltb (S754_zero false) (delay a)
   then sleep (delay a) w else Return w) = Raise OverflowError.
Proof.
  unfold pause_ok.
  destruct (PyFloat.ltb (S754_zero false) (delay a)) eqn:Hpos; cbn [negb orb];
    [|discriminate].
  intros Hfits. destruct (positive_duration _ Hpos) as [Hnan _].
  unfold sleep. rewrite Hnan, Hfits. reflexivity.
Qed.

(** The call when the provider raises nothing that goes through. *)
Lemma reverse_geocode_google_answers (net : network) (lat lng : float)
  (key : option string) (w : world) :
  answers (net (requests w) lat lng key) = true ->
  reverse_geocode_google net lat lng key w =
  Return (decode_outcome (net (requests w) lat lng key),
          emit (EvApiCall lat lng)
            {| db := db w; requests := S (requests w); trace := trace w |}).
Proof.
  unfold reverse_geocode_google.
  destruct (net (requests w) lat lng key); simpl; intros H;
    [reflexivity | reflexivity | reflexivity | discriminate].
Qed.

(** The call when the provider raises something else than the two caught
    exceptions. *)
Lemma reverse_geocode_google_raises (net : network) (lat lng : float)
  (key : option string) (w : world) (cls : string) :
  net (requests w) lat lng key = OtherException cls ->
  reverse_geocode_google net lat lng key w = Raise (Uncaught cls).
Proof.
  unfold reverse_geocode_google. intros ->. reflexivity.
Qed.

Lemma turn_ok_cons (a : args) (net : network) (n : nat) (c : cell)
  (first : pending_record) (tl : list pending_record) :
  turn_ok a net n (c, first :: tl) = true ->
  answers (net n (lat_of first) (lng_of first) (api_key a)) = true /\
  pause_ok a = true.
Proof.
  unfold turn_ok, representative. cbn [snd]. apply andb_true_iff.
Qed.

Lemma commit_if_spec (calls : Z) (w : world) :
  let w' := if calls mod 50 =? 0 then commit w else w in
  trace w' = trace w ++ commit_events calls /\
  requests w' = requests w /\ db w' = db w.
Proof.
  unfold commit_events. destruct (calls mod 50 =? 0); simpl.
  - repeat split; reflexivity.
  - rewrite app_nil_r. repeat split; reflexivity.
Qed.

(** A turn whose lookup succeeds: one request, one insert, one update per
    record of the cluster, all with the ID the insert returned. *)
Lemma phase2_step_success (a : args) (net : network) (v : phase2_vars) (w : world)
  (c : cell) (first : pending_record) (rest : list pending_record)
  (r : google_result) :
  turn_ok a net (requests w) (c, first :: rest) = true ->
  lookup_of a net (requests w) (c, first :: rest) = Some r ->
  exists w',
    phase2_step a net (v, w) (c, first :: rest) =
    Return ({| api_calls := api_calls v + 1;
               api_errors := api_errors v;
               records_updated_phase2 :=
                 records_updated_phase2 v + len (first :: rest) |}, w') /\
    trace w' =
      trace w ++
      EvApiCall (lat_of first) (lng_of first)
      :: EvInsert (google_result_to_address r (fst c) (snd c))
                  (addresses_id_seq (db w) + 1)
      :: updates_for (first :: rest) (addresses_id_seq (db w) + 1)
      ++ commit_events (api_calls v + 1) ++ pause_events a /\
    requests w' = S (requests w) /\
    addresses (db w') =
      addresses (db w) ++
      [row_of_address (addresses_id_seq (db w) + 1)
         (google_result_to_address r (fst c) (snd c))].
Proof.
  intros Hok Hr. destruct (turn_ok_cons _ _ _ _ _ _ Hok) as [Hans Hpause].
  unfold lookup_of, representative in Hr. simpl in Hr.
  destruct c as [grid_lat grid_lng].
  unfold phase2_step. rewrite (reverse_geocode_google_answers _ _ _ _ _ Hans).
  cbn [rbind]. rewrite Hr.
  unfold insert_address.
  match goal with
  | |- context [update_all ?rs ?id ?w0] =>
      destruct (update_all_spec rs id w0) as (U1 & U2 & U3 & _);
      set (wu := update_all rs id w0) in *
  end.
  destruct (commit_if_spec (api_calls v + 1) wu) as (C1 & C2 & C3).
  set (wc := if (api_calls v + 1) mod 50 =? 0 then commit wu else wu) in *.
  destruct (pause_spec a wc Hpause) as (wp & Hp & P1 & P2 & P3).
  exists wp. split; [rewrite Hp; reflexivity|].
  cbv zeta in C1, C2, C3. rewrite P1, P2, P3, C1, C2, C3, U1, U2, U3.
  simpl. rewrite <- !app_assoc. simpl. repeat split; reflexivity.
Qed.

(** A turn whose lookup fails: one request, no write, the store as it was,
    one more error. *)
Lemma phase2_step_failure (a : args) (net : network) (v : phase2_vars) (w : world)
  (c : cell) (first : pending_record) (rest : list pending_record) :
  turn_ok a net (requests w) (c, first :: rest) = true ->
  lookup_of a net (requests w) (c, first :: rest) = None ->
  exists w',
    phase2_step a net (v, w) (c, first :: rest) =
    Return ({| api_calls := api_calls v + 1;
               api_errors := api_errors v + 1;
               records_updated_phase2 := records_updated_phase2 v |}, w') /\
    trace w' = trace w ++ EvApiCall (lat_of first) (lng_of first) :: pause_events a /\
    requests w' = S (requests w) /\
    db w' = db w.
Proof.
  intros Hok Hr. destruct (turn_ok_cons _ _ _ _ _ _ Hok) as [Hans Hpause].
  unfold lookup_of, representative in Hr. simpl in Hr.
  destruct c as [grid_lat grid_lng].
  unfold phase2_step. rewrite (reverse_geocode_google_answers _ _ _ _ _ Hans).
  cbn [rbind]. rewrite Hr.
  match goal with
  | |- context [if PyFloat.ltb _ _ then sleep _ ?w0 else _] =>
      destruct (pause_spec a w0 Hpause) as (wp & Hp & P1 & P2 & P3)
  end.
  exists wp. split; [rewrite Hp; reflexivity|].
  rewrite P1, P2, P3. simpl.
  rewrite <- app_assoc. repeat split; reflexivity.
Qed.

(** A turn returns only when its cluster has a record, the call raises
    nothing that goes through and the pause fits the clock. *)
Lemma phase2_step_returns (a : args) (net : network) (v : phase2_vars) (w : world)
  (entry : cell * list pending_record) (st : phase2_vars * world) :
  phase2_step a net (v, w) entry = Return st ->
  turn_ok a net (requests w) entry = true.
Proof.
  destruct entry as [[grid_lat grid_lng] [|first tl]]; [discriminate|].
  unfold turn_ok, representative. cbn [snd].
  destruct (answers (net (requests w) (lat_of first) (lng_of first) (api_key a)))
    eqn:Hans.
  - unfold phase2_step. rewrite (reverse_geocode_google_answers _ _ _ _ _ Hans).
    cbn [rbind andb].
    destruct (pause_ok a) eqn:Hpause; [reflexivity|].
    destruct (usable _); unfold insert_address; cbv beta iota zeta;
      rewrite (pause_raises _ _ Hpause); discriminate.
  - unfold phase2_step, reverse_geocode_google.
    destruct (net (requests w) (lat_of first) (lng_of first) (api_key a));
      try discriminate Hans. discriminate.
Qed.

(** The first turn of a loop that returns has raised nothing. *)
Lemma phase2_loop_cons_inv (a : args) (net : network)
  (entry : cell * list pending_record) (rest : clusters_t) (v : phase2_vars)
  (w : world) (st : phase2_vars * world) :
  phase2_loop a net (entry :: rest) (v, w) = Return st ->
  turn_ok a net (requests w) entry = true.
Proof.
  cbn [phase2_loop].
  destruct (phase2_step a net (v, w) entry) as [e|st1] eqn:Hstep; [discriminate|].
  intros _. exact (phase2_step_returns _ _ _ _ _ _ Hstep).
Qed.

Lemma no_delete_in_turn (first : pending_record) (records : list pending_record)
  (addr : address) (id calls : Z) (a : args) :
  forallb (fun e => negb (is_delete e))
    (EvApiCall (lat_of first) (lng_of first)
     :: EvInsert addr id
     :: updates_for records id ++ commit_events calls ++ pause_events a) = true.
Proof.
  simpl. rewrite !forallb_app, updates_have_no_delete.
  unfold commit_events, pause_events.
  destruct (calls mod 50 =? 0), (PyFloat.ltb (S754_zero false) (delay a));
    reflexivity.
Qed.

Lemma no_delete_in_failed_turn (first : pending_record) (a : args) :
  forallb (fun e => negb (is_delete e))
    (EvApiCall (lat_of first) (lng_of first) :: pause_events a) = true.
Proof.
  unfold pause_events.
  destruct (PyFloat.ltb (S754_zero false) (delay a)); reflexivity.
Qed.

Lemma api_calls_of_turn (first : pending_record) (records : list pending_record)
  (addr : address) (id calls : Z) (a : args) :
  api_calls_of
    (EvApiCall (lat_of first) (lng_of first)
     :: EvInsert addr id
     :: updates_for records id ++ commit_events calls ++ pause_events a)
  = [(lat_of first, lng_of first)].
Proof.
  unfold api_calls_of. simpl. rewrite !flat_map_app.
  assert (H : flat_map (fun e => match e with
                                 | EvApiCall lat lng => [(lat, lng)]
                                 | _ => []
                                 end) (updates_for records id) = [])
    by (unfold updates_for; induction records; simpl; auto).
  rewrite H. unfold commit_events, pause_events.
  destruct (calls mod 50 =? 0), (PyFloat.ltb (S754_zero false) (delay a));
    reflexivity.
Qed.

Lemma api_calls_of_failed_turn (first : pending_record) (a : args) :
  api_calls_of (EvApiCall (lat_of first) (lng_of first) :: pause_events a)
  = [(lat_of first, lng_of first)].
Proof.
  unfold api_calls_of, pause_events.
  destruct (PyFloat.ltb (S754_zero false) (delay a)); reflexivity.
Qed.

Lemma len_cons {A : Type} (x : A) (l : list A) : len (x :: l) = 1 + len l.
Proof. unfold len. simpl List.length. lia. Qed.

(** The Phase 2 loop over clusters that all have a record, when no turn
    raises: it returns, it sends one request per cluster, for the first
    record of each, and a cluster whose lookup succeeds gets one insert
    whose ID goes to all its records. *)
Lemma phase2_loop_spec (a : args) (net : network) (cells : clusters_t) :
  nonempty_records cells = true ->
  forall v w,
  turns_ok a net (requests w) cells = true ->
  exists v' w' delta,
    phase2_loop a net cells (v, w) = Return (v', w') /\
    trace w' = trace w ++ delta /\
    requests w' = (requests w + List.length cells)%nat /\
    api_calls v' = api_calls v + len cells /\
    map Some (api_calls_of delta) = map representative cells /\
    forallb (fun e => negb (is_delete e)) delta = true /\
    (exists extra, addresses (db w') = addresses (db w) ++ extra) /\
    (forall i entry r,
        nth_error cells i = Some entry ->
        lookup_of a net (requests w + i)%nat entry = Some r ->
        exists id,
          In (EvInsert (google_result_to_address r (fst (fst entry)) (snd (fst entry))) id)
             delta /\
          forall rec, In rec (snd entry) ->
                      In (EvUpdate (record_type_of rec) (record_id_of rec) id) delta).
Proof.
  induction cells as [|[c recs] rest IH]; intros Hne v w Hoks.
  - exists v, w, []. simpl. rewrite app_nil_r, Nat.add_0_r.
    split; [reflexivity|]. split; [reflexivity|]. split; [reflexivity|].
    split; [unfold len; simpl; lia|]. split; [reflexivity|].
    split; [reflexivity|].
    split; [exists []; rewrite app_nil_r; reflexivity|].
    intros [|i] entry r H; discriminate.
  - simpl in Hne. destruct recs as [|first tl]; [discriminate|].
    simpl in Hne. specialize (IH Hne).
    cbn [turns_ok] in Hoks. apply andb_true_iff in Hoks. destruct Hoks as [Hok Hoks].
    destruct (lookup_of a net (requests w) (c, first :: tl)) as [r|] eqn:Hl.
    + destruct (phase2_step_success a net v w c first tl r Hok Hl)
        as (w1 & Hstep & Ht & Hq & Ha).
      rewrite <- Hq in Hoks.
      match type of Hstep with _ = Return (?v1, _) =>
        destruct (IH v1 w1 Hoks) as (v' & w' & d2 & Hloop & Ht2 & Hq2 & Hc2 & Hm2 & Hd2 & [ex Ha2] & Hi2)
      end.
      eexists v', w', (_ ++ d2).
      split; [cbn [phase2_loop]; rewrite Hstep; cbn [rbind]; exact Hloop|].
      split; [rewrite Ht2, Ht, <- app_assoc; reflexivity|].
      split; [rewrite Hq2, Hq; simpl; lia|].
      split; [rewrite Hc2; cbn [api_calls]; rewrite len_cons; lia|].
      split.
      { unfold api_calls_of in *. rewrite flat_map_app, map_app, Hm2.
        fold (api_calls_of
                (EvApiCall (lat_of first) (lng_of first)
                 :: EvInsert (google_result_to_address r (fst c) (snd c))
                             (addresses_id_seq (db w) + 1)
                 :: updates_for (first :: tl) (addresses_id_seq (db w) + 1)
                 ++ commit_events (api_calls v + 1) ++ pause_events a)).
        rewrite api_calls_of_turn. reflexivity. }
      split; [rewrite forallb_app, Hd2, no_delete_in_turn; reflexivity|].
      split; [exists (row_of_address (addresses_id_seq (db w) + 1)
                        (google_result_to_address r (fst c) (snd c)) :: ex);
              rewrite Ha2, Ha, <- app_assoc; reflexivity|].
      intros [|i] entry r' Hn Hr'.
      * simpl in Hn. inversion Hn. subst entry.
        rewrite Nat.add_0_r, Hl in Hr'. inversion Hr'. subst r'.
        exists (addresses_id_seq (db w) + 1). split.
        -- apply in_or_app. left. right. left. reflexivity.
        -- intros rec Hrec. apply in_or_app. left. right. right.
           apply in_or_app. left. unfold updates_for.
           apply (in_map (fun r0 => EvUpdate (record_type_of r0) (record_id_of r0)
                                      (addresses_id_seq (db w) + 1))), Hrec.
      * simpl in Hn. rewrite Nat.add_succ_r, <- Nat.add_succ_l, <- Hq in Hr'.
        destruct (Hi2 i entry r' Hn Hr') as (id & H1 & H2).
        exists id. split; [apply in_or_app; right; exact H1|].
        intros rec Hrec. apply in_or_app. right. exact (H2 rec Hrec).
    + destruct (phase2_step_failure a net v w c first tl Hok Hl)
        as (w1 & Hstep & Ht & Hq & Hdb).
      rewrite <- Hq in Hoks.
      match type of Hstep with _ = Return (?v1, _) =>
        destruct (IH v1 w1 Hoks) as (v' & w' & d2 & Hloop & Ht2 & Hq2 & Hc2 & Hm2 & Hd2 & [ex Ha2] & Hi2)
      end.
      eexists v', w', (_ ++ d2).
      split; [cbn [phase2_loop]; rewrite Hstep; cbn [rbind]; exact Hloop|].
      split; [rewrite Ht2, Ht, <- app_assoc; reflexivity|].
      split; [rewrite Hq2, Hq; simpl; lia|].
      split; [rewrite Hc2; cbn [api_calls]; rewrite len_cons; lia|].
      split.
      { unfold api_calls_of in *. rewrite flat_map_app, map_app, Hm2.
        fold (api_calls_of (EvApiCall (lat_of first) (lng_of first) :: pause_events a)).
        rewrite api_calls_of_failed_turn. reflexivity. }
      split; [rewrite forallb_app, Hd2, no_delete_in_failed_turn; reflexivity|].
      split; [exists ex; rewrite Ha2, Hdb; reflexivity|].
      intros [|i] entry r' Hn Hr'.
      * simpl in Hn. inversion Hn. subst entry.
        rewrite Nat.add_0_r, Hl in Hr'. discriminate.
      * simpl in Hn. rewrite Nat.add_succ_r, <- Nat.add_succ_l, <- Hq in Hr'.
        destruct (Hi2 i entry r' Hn Hr') as (id & H1 & H2).
        exists id. split; [apply in_or_app; right; exact H1|].
        intros rec Hrec. apply in_or_app. right. exact (H2 rec Hrec).
Qed.

(** A turn that returns has sent one request. *)
Lemma phase2_step_requests (a : args) (net : network) (v : phase2_vars) (w : world)
  (entry : cell * list pending_record) (v1 : phase2_vars) (w1 : world) :
  phase2_step a net (v, w) entry = Return (v1, w1) -> requests w1 = S (requests w).
Proof.
  intros Hstep. pose proof (phase2_step_returns _ _ _ _ _ _ Hstep) as Hok.
  destruct entry as [c [|first tl]]; [destruct c; discriminate|].
  destruct (lookup_of a net (requests w) (c, first :: tl)) as [r|] eqn:Hl.
  - destruct (phase2_step_success a net v w c first tl r Hok Hl)
      as (w2 & Hstep2 & _ & Hq & _).
    rewrite Hstep in Hstep2. inversion Hstep2. subst. exact Hq.
  - destruct (phase2_step_failure a net v w c first tl Hok Hl)
      as (w2 & Hstep2 & _ & Hq & _).
    rewrite Hstep in Hstep2. inversion Hstep2. subst. exact Hq.
Qed.

(** A loop that returns went over clusters that all have a record, with
    turns that raised nothing. *)
Lemma phase2_loop_returns (a : args) (net : network) (cells : clusters_t) :
  forall v w st,
    phase2_loop a net cells (v, w) = Return st ->
    nonempty_records cells = true /\ turns_ok a net (requests w) cells = true.
Proof.
  induction cells as [|entry rest IH]; intros v w st Hloop.
  - split; reflexivity.
  - pose proof (phase2_loop_cons_inv _ _ _ _ _ _ _ Hloop) as Hok.
    cbn [phase2_loop] in Hloop.
    destruct (phase2_step a net (v, w) entry) as [e|[v1 w1]] eqn:Hstep; [discriminate|].
    cbn [rbind] in Hloop.
    destruct (IH v1 w1 st Hloop) as [Hne Hoks].
    rewrite (phase2_step_requests _ _ _ _ _ _ _ Hstep) in Hoks.
    split.
    + cbn [nonempty_records forallb]. fold (nonempty_records rest). rewrite Hne.
      unfold turn_ok, representative in Hok.
      destruct (snd entry); [discriminate | reflexivity].
    + cbn [turns_ok]. rewrite Hok, Hoks. reflexivity.
Qed.

(** Phase 2 returns exactly when its loop does. *)
Lemma phase2_returns (a : args) (net : network) (cells : clusters_t) (w : world)
  (st : phase2_vars * world) :
  phase2 a net cells w = Return st ->
  nonempty_records cells = true /\ turns_ok a net (requests w) cells = true.
Proof.
  unfold phase2.
  destruct (phase2_loop a net cells _) as [e|st1] eqn:Hloop; [discriminate|].
  intros _. exact (phase2_loop_returns _ _ _ _ _ _ Hloop).
Qed.

(** ** The whole run *)

(** What a run that reaches its end has computed. *)
Lemma main_finished_inv (a : args) (net : network) (w : world) (l : locals) (w' : world) :
  main a net w = Return (Finished l, w') ->
  str_truthy (db_pass a) = true /\
  (str_truthy (api_key a) = true \/ dry_run a = true) /\
  find_placeholder_id (db w) = Some (placeholder_id l) /\
  placeholder_id l <> 0 /\
  pending l = get_pending_records (db w) (placeholder_id l) /\
  pending l <> [] /\
  build_clusters (pending l) (grid_size a) = Return (clusters l) /\
  existing l = get_existing_addresses (db w) (placeholder_id l) /\
  build_existing_grid (existing l) (grid_size a) = Return (existing_grid l) /\
  vars1 l = fst (phase1 (dry_run a) (existing_grid l) (clusters l) w) /\
  total_records l = len (pending l) /\
  (if dry_run a then
     vars2 l = None /\ remaining l = None /\
     w' = snd (phase1 true (existing_grid l) (clusters l) w) /\
     est_cost (len (cells_to_geocode (vars1 l))) = Return (cost l)
   else
     exists v2 w2,
       phase2 a net (cells_to_geocode (vars1 l))
         (commit (snd (phase1 false (existing_grid l) (clusters l) w)))
       = Return (v2, w2) /\
       vars2 l = Some v2 /\
       remaining l = Some (fst (phase3 (placeholder_id l) w2)) /\
       w' = snd (phase3 (placeholder_id l) w2) /\
       est_cost (api_calls v2) = Return (cost l)).
Proof.
  unfold main.
  destruct (str_truthy (api_key a)) eqn:Hkey, (dry_run a) eqn:Hdry;
    cbn [negb andb]; try discriminate;
    (destruct (str_truthy (db_pass a)) eqn:Hpass; cbn [negb]; [|discriminate]);
    (destruct (find_placeholder_id (db w)) as [pid|] eqn:Hpid; [|discriminate]);
    (destruct (Z.eqb_spec pid 0) as [|Hnz]; [discriminate|]);
    (destruct (get_pending_records (db w) pid) as [|r0 pend] eqn:Hpend; [discriminate|]);
    (destruct (build_clusters (r0 :: pend) (grid_size a)) as [e|clus] eqn:Hclus;
       [discriminate|]); cbn [rbind];
    (destruct (build_existing_grid (get_existing_addresses (db w) pid) (grid_size a))
       as [e|eg] eqn:Heg; [discriminate|]); cbn [rbind].
  - (* a dry run with a key *)
    destruct (phase1 true eg clus w) as [v1 w1] eqn:Hp1. cbn [rbind].
    destruct (est_cost (len (cells_to_geocode v1))) as [e|c] eqn:Hc; [discriminate|].
    cbn [rbind]. intros H. inversion H. subst. simpl.
    repeat split; auto; try discriminate; rewrite Hp1; auto.
  - (* a real run *)
    destruct (phase1 false eg clus w) as [v1 w1] eqn:Hp1.
    destruct (phase2 a net (cells_to_geocode v1) (commit w1)) as [e|[v2 w2]] eqn:Hp2;
      [discriminate|]. cbn [rbind fst snd].
    intros H.
    remember (phase3 pid w2) as p3 eqn:Hp3 in H. destruct p3 as [n w3].
    destruct (est_cost (api_calls v2)) as [e|c] eqn:Hc; [discriminate|].
    cbn [rbind] in H. inversion H. subst l w'.
    cbn [placeholder_id pending clusters existing existing_grid vars1 vars2
         remaining total_records cost].
    repeat split; auto; try discriminate; try (rewrite Hp1; auto; fail).
    exists v2, w2. rewrite Hp1. cbn [fst snd]. rewrite Hp2, <- Hp3.
    cbn [fst snd]. auto.
  - (* a dry run without a key *)
    destruct (phase1 true eg clus w) as [v1 w1] eqn:Hp1. cbn [rbind].
    destruct (est_cost (len (cells_to_geocode v1))) as [e|c] eqn:Hc; [discriminate|].
    cbn [rbind]. intros H. inversion H. subst. simpl.
    repeat split; auto; try discriminate; rewrite Hp1; auto.
Qed.

(** Phase 2 with its closing commit. *)
Lemma phase2_spec (a : args) (net : network) (cells : clusters_t) (w : world) :
  nonempty_records cells = true ->
  turns_ok a net (requests w) cells = true ->
  exists v' w' delta,
    phase2 a net cells w = Return (v', w') /\
    trace w' = trace w ++ delta /\
    api_calls v' = len cells /\
    map Some (api_calls_of delta) = map representative cells /\
    forallb (fun e => negb (is_delete e)) delta = true /\
    (exists extra, addresses (db w') = addresses (db w) ++ extra) /\
    (forall i entry r,
        nth_error cells i = Some entry ->
        lookup_of a net (requests w + i)%nat entry = Some r ->
        exists id,
          In (EvInsert (google_result_to_address r (fst (fst entry)) (snd (fst entry))) id)
             delta /\
          forall rec, In rec (snd entry) ->
                      In (EvUpdate (record_type_of rec) (record_id_of rec) id) delta).
Proof.
  intros Hne Hoks.
  destruct (phase2_loop_spec a net cells Hne
              {| api_calls := 0; api_errors := 0; records_updated_phase2 := 0 |} w Hoks)
    as (v' & w' & d & Hloop & Ht & Hq & Hc & Hm & Hd & Ha & Hi).
  exists v', (commit w'), (d ++ [EvCommit]).
  split; [unfold phase2; rewrite Hloop; reflexivity|].
  split; [simpl; rewrite Ht, <- app_assoc; reflexivity|].
  split; [rewrite Hc; simpl; lia|].
  split; [unfold api_calls_of in *; rewrite flat_map_app; simpl;
          rewrite app_nil_r; exact Hm|].
  split; [rewrite forallb_app, Hd; reflexivity|].
  split; [exact Ha|].
  intros i entry r Hn Hr. destruct (Hi i entry r Hn Hr) as (id & H1 & H2).
  exists id. split; [apply in_or_app; left; exact H1|].
  intros rec Hrec. apply in_or_app. left. exact (H2 rec Hrec).
Qed.

(** The clusters a run keeps for Phase 2. *)
Lemma kept_clusters (dry : bool) (pend : list pending_record) (g : float)
  (clus : clusters_t) (eg : dict Z) (w : world) :
  build_clusters pend g = Return clus ->
  cells_to_geocode (fst (phase1 dry eg clus w)) = filter (unmatched eg) clus /\
  nonempty_records (filter (unmatched eg) clus) = true /\
  distinct_keys (dict_keys (filter (unmatched eg) clus)) = true.
Proof.
  intros H. destruct (build_clusters_inv pend g clus H) as [Hd Hn].
  split; [apply phase1_cells, Hd|].
  split; [apply nonempty_records_filter, Hn | apply distinct_keys_filter, Hd].
Qed.

(** ** Claims *)

Lemma call_failed_unusable (o : http_outcome) :
  call_failed o -> usable (decode_outcome o) = None.
Proof.
  destruct o as [code body|reason|data|cls]; simpl; try reflexivity.
  destruct (status data) as [st|]; [|reflexivity].
  destruct (results data) as [[|r rs]|]; try reflexivity.
  destruct (String.eqb_spec st "OK") as [->|Hne]; [|reflexivity].
  intros [H|[H|[H|(r' & rs' & H & Hr)]]];
    [contradiction H; reflexivity | discriminate | discriminate |].
  inversion H. subst r' rs'. simpl. rewrite Hr. reflexivity.
Qed.

Lemma call_failed_answers (o : http_outcome) : call_failed o -> answers o = true.
Proof. destruct o; simpl; intros H; [reflexivity | reflexivity | reflexivity | destruct H]. Qed.

(** A lookup that is usable comes from a reply with status OK whose first
    result is not an empty object. *)
Lemma usable_spec (o : http_outcome) (r : google_result) :
  usable (decode_outcome o) = Some r <->
  exists data rs,
    o = Response data /\ status data = Some "OK" /\
    results data = Some (r :: rs) /\ result_truthy r = true.
Proof.
  split.
  - destruct o as [code body|reason|data|cls]; simpl; try discriminate.
    destruct (status data) as [st|] eqn:Hst; [|discriminate].
    destruct (results data) as [[|r0 rs]|] eqn:Hrs; try discriminate.
    destruct (String.eqb_spec st "OK") as [->|Hne]; [|discriminate].
    simpl. destruct (result_truthy r0) eqn:Htr; [|discriminate].
    intros H. inversion H. subst r0. exists data, rs. repeat split; assumption.
  - intros (data & rs & -> & Hst & Hrs & Htr). simpl. rewrite Hst, Hrs. simpl.
    rewrite Htr. reflexivity.
Qed.

Lemma count_references_after_delete (id pid : Z) (w : world) :
  count_references (db (commit (delete_address id w))) pid = count_references (db w) pid.
Proof. reflexivity. Qed.

(** The effects of a real run up to the end of Phase 2: nothing is deleted
    and every address of the start is still there. *)
Lemma real_run_before_phase3 (a : args) (net : network) (pend : list pending_record)
  (clus : clusters_t) (eg : dict Z) (w : world) (v2 : phase2_vars) (w2 : world) :
  build_clusters pend (grid_size a) = Return clus ->
  phase2 a net (cells_to_geocode (fst (phase1 false eg clus w)))
    (commit (snd (phase1 false eg clus w))) = Return (v2, w2) ->
  api_calls v2 = len (cells_to_geocode (fst (phase1 false eg clus w))) /\
  exists delta,
    trace w2 = trace w ++ delta /\
    forallb (fun e => negb (is_delete e)) delta = true /\
    exists extra, addresses (db w2) = addresses (db w) ++ extra.
Proof.
  intros Hclus Hp2.
  destruct (kept_clusters false pend (grid_size a) clus eg w Hclus) as (Hcells & Hne & _).
  rewrite <- Hcells in Hne.
  destruct (phase2_returns _ _ _ _ _ Hp2) as [_ Hoks].
  destruct (phase2_spec a net _ (commit (snd (phase1 false eg clus w))) Hne Hoks)
    as (v' & w' & d2 & Hp & Ht & Hc & _ & Hd & [extra Ha] & _).
  rewrite Hp in Hp2. inversion Hp2. subst v' w'.
  split; [exact Hc|].
  destruct (phase1_effects false eg clus
              {| matched_from_existing := 0; records_updated_phase1 := 0;
                 cells_to_geocode := [] |} w)
    as (_ & Ha1 & _ & d1 & Ht1 & Hd1 & _).
  fold (phase1 false eg clus w) in Ha1, Ht1.
  exists (d1 ++ EvCommit :: d2). split; [|split].
  - rewrite Ht. simpl. rewrite Ht1, <- !app_assoc. reflexivity.
  - rewrite forallb_app, Hd1. simpl. exact Hd.
  - exists extra. rewrite Ha. simpl. rewrite Ha1. reflexivity.
Qed.

(** C4.  In a real run that reaches its end, the count reported is the
    number of drive starts, drive ends and charging processes that
    reference the placeholder when all clusters have been processed; the
    placeholder is deleted if and only if that count is zero, and nothing
    else is ever deleted; when the count is not zero every address of the
    start, the placeholder included, is still in the table, and the run
    ends normally all the same. *)
Theorem placeholder_deleted_iff_unreferenced (a : args) (net : network) (w : world)
  (l : locals) (w' : world) :
  main a net w = Return (Finished l, w') ->
  dry_run a = false ->
  exists delta n,
    trace w' = trace w ++ delta /\
    remaining l = Some n /\
    n = count_references (db w') (placeholder_id l) /\
    (In (EvDelete (placeholder_id l)) delta <-> n = 0) /\
    (forall id, In (EvDelete id) delta -> id = placeholder_id l) /\
    (n = 0 -> forall r, In r (addresses (db w')) -> row_id r <> placeholder_id l) /\
    (n <> 0 -> forall r, In r (addresses (db w)) -> In r (addresses (db w'))).
Proof.
  intros Hmain Hdry.
  destruct (main_finished_inv a net w l w' Hmain)
    as (_ & _ & _ & _ & _ & _ & Hclus & _ & _ & Hv1 & _ & Hreal).
  rewrite Hdry in Hreal, Hv1.
  destruct Hreal as (v2 & w2 & Hp2 & _ & Hrem & Hw' & _).
  rewrite Hv1 in Hp2.
  destruct (real_run_before_phase3 a net _ _ _ w v2 w2 Hclus Hp2)
    as (_ & d & Ht & Hd & extra & Ha).
  assert (Hnodel : forall id, ~ In (EvDelete id) d).
  { intros id Hin. rewrite forallb_forall in Hd. specialize (Hd _ Hin). discriminate. }
  unfold phase3 in Hrem, Hw'. cbn [fst snd] in Hrem, Hw'.
  set (pid := placeholder_id l) in *.
  set (n := count_references (db w2) pid) in *.
  destruct (Z.eqb_spec n 0) as [Hz|Hz].
  - exists (d ++ [EvDelete pid; EvCommit]), n. subst w'.
    split; [simpl; rewrite Ht, <- !app_assoc; reflexivity|].
    split; [exact Hrem|]. split; [reflexivity|].
    split; [split; [intros _; exact Hz | intros _; apply in_or_app; right; left; reflexivity]|].
    split.
    { intros id Hin. apply in_app_or in Hin. destruct Hin as [Hin|[Hin|[Hin|[]]]].
      - destruct (Hnodel id Hin).
      - inversion Hin. reflexivity.
      - discriminate. }
    split; [|intros Hn; contradiction].
    intros _ r Hin. simpl in Hin. apply filter_In in Hin. destruct Hin as [_ Hin].
    apply negb_true_iff in Hin. apply Z.eqb_neq in Hin. exact Hin.
  - exists d, n. subst w'.
    split; [exact Ht|]. split; [exact Hrem|]. split; [reflexivity|].
    split; [split; [intros Hin; destruct (Hnodel _ Hin) | intros Hn; contradiction]|].
    split; [intros id Hin; destruct (Hnodel id Hin)|].
    split; [intros Hn; contradiction|].
    intros _ r Hin. rewrite Ha. apply in_or_app. left. exact Hin.
Qed.

Lemma placeholder_deleted_iff_unreferenced_witness :
  exists l w',
    main sample_args net_down (start_world sample_db) = Return (Finished l, w') /\
    remaining l = Some 3 /\
    In placeholder_row (addresses (db w')) /\
    exists delta n,
      trace w' = trace (start_world sample_db) ++ delta /\
      remaining l = Some n /\
      n = count_references (db w') (placeholder_id l) /\
      (In (EvDelete (placeholder_id l)) delta <-> n = 0) /\
      (forall id, In (EvDelete id) delta -> id = placeholder_id l) /\
      (n = 0 -> forall r, In r (addresses (db w')) -> row_id r <> placeholder_id l) /\
      (n <> 0 -> forall r, In r (addresses (db (start_world sample_db))) ->
                 In r (addresses (db w'))).
Proof.
  eexists _, _. split; [vm_compute; reflexivity|].
  split; [reflexivity|]. split; [left; reflexivity|].
  apply (placeholder_deleted_iff_unreferenced sample_args net_down
           (start_world sample_db)).
  - vm_compute. reflexivity.
  - reflexivity.
Defined.

(** A dry run that returns, however it ends, returns the world it started
    in. *)
Lemma dry_run_leaves_world (a : args) (net : network) (w : world)
  (r : run_end) (w' : world) :
  dry_run a = true -> main a net w = Return (r, w') -> w' = w.
Proof.
  intros Hdry. unfold main. rewrite Hdry, andb_false_r.
  destruct (str_truthy (db_pass a)); cbn [negb]; [|discriminate].
  destruct (find_placeholder_id (db w)) as [pid|];
    [|intros H; inversion H; reflexivity].
  destruct (pid =? 0); [intros H; inversion H; reflexivity|].
  destruct (get_pending_records (db w) pid) as [|r0 pend];
    [intros H; inversion H; reflexivity|].
  destruct (build_clusters (r0 :: pend) (grid_size a)) as [e|clus]; [discriminate|].
  cbn [rbind].
  destruct (build_existing_grid (get_existing_addresses (db w) pid) (grid_size a))
    as [e|eg]; [discriminate|].
  cbn [rbind].
  pose proof (phase1_dry_world eg clus
                {| matched_from_existing := 0; records_updated_phase1 := 0;
                   cells_to_geocode := [] |} w) as Hw.
  fold (phase1 true eg clus w) in Hw.
  destruct (phase1 true eg clus w) as [v1 w1]. cbn [snd] in Hw. subst w1.
  cbn [rbind].
  destruct (est_cost (len (cells_to_geocode v1))) as [e|c]; [discriminate|].
  cbn [rbind]. intros H. inversion H. reflexivity.
Qed.

(** C8.  A dry run that returns ends in the world it started in: the
    tables, the number of requests sent and the trace of effects are
    unchanged, so that it has made no update, no insert, no commit, no
    delete and no provider call.  And where a real run reaches its end, the
    dry run over the same data (whatever the provider would answer) reaches
    its end too, with the same total of pending records, the same clusters,
    the same matches with existing addresses, the same clusters in need of
    a lookup (as many as the requests the real run sent) and the same count
    of records for Phase 1. *)
Theorem dry_run_counts_without_effects :
  (forall (a : args) (net : network) (w : world) (r : run_end) (w' : world),
      dry_run a = true -> main a net w = Return (r, w') -> w' = w) /\
  (forall (a : args) (net net' : network) (w : world) (lr : locals) (wr : world),
      dry_run a = false ->
      main a net w = Return (Finished lr, wr) ->
      exists ld,
        main (with_dry_run true a) net' w = Return (Finished ld, w) /\
        total_records ld = total_records lr /\
        clusters ld = clusters lr /\
        len (clusters ld) = len (clusters lr) /\
        matched_from_existing (vars1 ld) = matched_from_existing (vars1 lr) /\
        records_updated_phase1 (vars1 ld) = records_updated_phase1 (vars1 lr) /\
        cells_to_geocode (vars1 ld) = cells_to_geocode (vars1 lr) /\
        len (cells_to_geocode (vars1 ld)) = len (cells_to_geocode (vars1 lr)) /\
        (exists v2, vars2 lr = Some v2 /\
                    api_calls v2 = len (cells_to_geocode (vars1 ld))) /\
        vars2 ld = None /\
        remaining ld = None).
Proof.
  split; [exact dry_run_leaves_world|].
  intros a net net' w lr wr Hdry Hmain.
  destruct (main_finished_inv a net w lr wr Hmain)
    as (Hpass & _ & Hpid & Hnz & Hpend & Hne & Hclus & Hex & Heg & Hv1 & Htot & Hreal).
  rewrite Hdry in Hreal, Hv1.
  destruct Hreal as (v2 & w2 & Hp2 & Hv2 & _ & _ & Hcost).
  rewrite Hv1 in Hp2.
  destruct (real_run_before_phase3 a net _ _ _ w v2 w2 Hclus Hp2) as (Hcalls & _).
  rewrite <- Hv1 in Hcalls.
  assert (Hv1d : fst (phase1 true (existing_grid lr) (clusters lr) w) = vars1 lr).
  { rewrite Hv1. unfold phase1. apply phase1_vars_indep. }
  assert (Hw1d : snd (phase1 true (existing_grid lr) (clusters lr) w) = w).
  { unfold phase1. apply phase1_dry_world. }
  exists {| placeholder_id := placeholder_id lr;
            pending := pending lr;
            clusters := clusters lr;
            existing := existing lr;
            existing_grid := existing_grid lr;
            vars1 := vars1 lr;
            vars2 := None;
            remaining := None;
            total_records := total_records lr;
            cost := cost lr |}.
  cbn [total_records clusters vars1 vars2 remaining].
  split; [|repeat split; try reflexivity; exists v2; split; assumption].
  unfold main.
  cbn [with_dry_run dry_run api_key db_pass grid_size].
  rewrite andb_false_r, Hpass, Hpid. cbn [negb].
  destruct (Z.eqb_spec (placeholder_id lr) 0) as [|_]; [contradiction|].
  rewrite <- Hpend, <- Hex.
  destruct (pending lr) as [|r0 rest] eqn:Hp; [contradiction|].
  rewrite Hclus. cbn [rbind]. rewrite Heg. cbn [rbind].
  rewrite (surjective_pairing (phase1 true (existing_grid lr) (clusters lr) w)).
  rewrite Hv1d, Hw1d. cbn [rbind].
  rewrite <- Hcalls, Hcost. cbn [rbind]. rewrite Htot. reflexivity.
Qed.

Lemma dry_run_counts_without_effects_witness :
  exists lr wr ld,
    main (with_dry_run false sample_args) net_ok (start_world sample_db_known)
    = Return (Finished lr, wr) /\
    main (with_dry_run true (with_dry_run false sample_args)) net_down
         (start_world sample_db_known)
    = Return (Finished ld, start_world sample_db_known) /\
    total_records ld = total_records lr /\
    clusters ld = clusters lr /\
    len (clusters ld) = len (clusters lr) /\
    matched_from_existing (vars1 ld) = matched_from_existing (vars1 lr) /\
    records_updated_phase1 (vars1 ld) = records_updated_phase1 (vars1 lr) /\
    cells_to_geocode (vars1 ld) = cells_to_geocode (vars1 lr) /\
    len (cells_to_geocode (vars1 ld)) = len (cells_to_geocode (vars1 lr)) /\
    (exists v2, vars2 lr = Some v2 /\
                api_calls v2 = len (cells_to_geocode (vars1 ld))) /\
    vars2 ld = None /\
    remaining ld = None.
Proof.
  eexists _, _.
  assert (H : main (with_dry_run false sample_args) net_ok (start_world sample_db_known)
              = Return (Finished _ , _)) by (vm_compute; reflexivity).
  destruct (proj2 dry_run_counts_without_effects (with_dry_run false sample_args)
              net_ok net_down (start_world sample_db_known) _ _ eq_refl H)
    as (ld & Hd).
  exists ld. split; [exact H | exact Hd].
Defined.

Lemma distinct_keys_nth (ks : list cell) :
  distinct_keys ks = true ->
  forall i j ci cj,
    (i < j)%nat -> nth_error ks i = Some ci -> nth_error ks j = Some cj ->
    cell_eqb ci cj = false.
Proof.
  induction ks as [|k rest IH]; intros Hd i j ci cj Hlt Hi Hj.
  - destruct i; discriminate.
  - simpl in Hd. apply andb_true_iff in Hd. destruct Hd as [Hk Hd].
    destruct j as [|j]; [lia|]. simpl in Hj.
    destruct i as [|i].
    + simpl in Hi. inversion Hi. subst ci.
      rewrite forallb_forall in Hk.
      specialize (Hk cj (nth_error_In _ _ Hj)).
      apply negb_true_iff in Hk. exact Hk.
    + simpl in Hi. apply (IH Hd i j); [lia | exact Hi | exact Hj].
Qed.

Lemma unmatched_spec (eg : dict Z) (clus : clusters_t) (entry : cell * list pending_record) :
  In entry (filter (unmatched eg) clus) -> dict_get (fst entry) eg = None.
Proof.
  intros H. apply filter_In in H. destruct H as [_ H].
  unfold unmatched, dict_mem in H.
  destruct (dict_get (fst entry) eg); [discriminate | reflexivity].
Qed.

(** C5, as the code has it.  The catalog a run ends with is the catalog it
    built before Phase 1 from the stored addresses: Phase 2 does not extend
    it.  The clusters looked up in Phase 2 are exactly the clusters whose
    key the catalog lacks, and their keys are pairwise different, so that
    no later cluster of the run has the key of a cluster looked up before;
    in a real run each of them gets its own request. *)
Theorem catalog_fixed_and_keys_distinct (a : args) (net : network) (w : world)
  (l : locals) (w' : world) :
  main a net w = Return (Finished l, w') ->
  build_existing_grid (get_existing_addresses (db w) (placeholder_id l)) (grid_size a)
  = Return (existing_grid l) /\
  cells_to_geocode (vars1 l) = filter (unmatched (existing_grid l)) (clusters l) /\
  (forall entry, In entry (cells_to_geocode (vars1 l)) ->
                 dict_get (fst entry) (existing_grid l) = None) /\
  (forall i j ci cj,
      (i < j)%nat ->
      nth_error (dict_keys (cells_to_geocode (vars1 l))) i = Some ci ->
      nth_error (dict_keys (cells_to_geocode (vars1 l))) j = Some cj ->
      cell_eqb ci cj = false) /\
  (dry_run a = false ->
   exists v2, vars2 l = Some v2 /\ api_calls v2 = len (cells_to_geocode (vars1 l))).
Proof.
  intros Hmain.
  destruct (main_finished_inv a net w l w' Hmain)
    as (_ & _ & _ & _ & _ & _ & Hclus & Hex & Heg & Hv1 & _ & Hreal).
  destruct (kept_clusters (dry_run a) _ _ _ (existing_grid l) w Hclus)
    as (Hcells & _ & Hd).
  rewrite <- Hv1 in Hcells.
  split; [rewrite <- Hex; exact Heg|].
  split; [exact Hcells|].
  split; [intros entry Hin; rewrite Hcells in Hin;
          exact (unmatched_spec _ _ _ Hin)|].
  split; [rewrite Hcells; apply distinct_keys_nth, Hd|].
  intros Hdry. rewrite Hdry in Hreal, Hv1.
  destruct Hreal as (v2 & w2 & Hp2 & Hv2 & _).
  exists v2. split; [exact Hv2|].
  rewrite Hv1 in Hp2 |- *.
  exact (proj1 (real_run_before_phase3 a net _ _ _ w v2 w2 Hclus Hp2)).
Qed.

Lemma catalog_fixed_and_keys_distinct_witness :
  exists l w',
    sample_run = Return (Finished l, w') /\
    build_existing_grid
      (get_existing_addresses (db (start_world sample_db)) (placeholder_id l))
      (grid_size sample_args)
    = Return (existing_grid l) /\
    cells_to_geocode (vars1 l) = filter (unmatched (existing_grid l)) (clusters l) /\
    (forall entry, In entry (cells_to_geocode (vars1 l)) ->
                   dict_get (fst entry) (existing_grid l) = None) /\
    (forall i j ci cj,
        (i < j)%nat ->
        nth_error (dict_keys (cells_to_geocode (vars1 l))) i = Some ci ->
        nth_error (dict_keys (cells_to_geocode (vars1 l))) j = Some cj ->
        cell_eqb ci cj = false) /\
    (dry_run sample_args = false ->
     exists v2, vars2 l = Some v2 /\ api_calls v2 = len (cells_to_geocode (vars1 l))).
Proof.
  eexists _, _.
  assert (H : sample_run = Return (Finished _, _)) by (vm_compute; reflexivity).
  split; [exact H|].
  exact (catalog_fixed_and_keys_distinct sample_args net_ok (start_world sample_db)
           _ _ H).
Defined.

(** C5, as stated, fails: in the sample run the first cluster is looked up
    with success and its address is inserted, and at the end of the run the
    catalog has no entry under the key of that cluster (it is empty). *)
Lemma catalog_not_extended_after_lookup :
  exists l w',
    sample_run = Return (Finished l, w') /\
    (exists recs,
        nth_error (cells_to_geocode (vars1 l)) 0 = Some (sample_key_a, recs) /\
        lookup_of sample_args net_ok 0 (sample_key_a, recs) = Some sample_result) /\
    In (EvInsert (google_result_to_address sample_result
                    (fst sample_key_a) (snd sample_key_a)) 2) (trace w') /\
    dict_get sample_key_a (existing_grid l) = None /\
    existing_grid l = [].
Proof.
  eexists _, _. split; [vm_compute; reflexivity|].
  split; [eexists; split; reflexivity|].
  split; [vm_compute; right; right; left; reflexivity|].
  split; reflexivity.
Qed.

Lemma dict_append_key_is_snap (g : float) (k : cell) (r : pending_record)
  (d : clusters_t) :
  Forall (key_is_snap g) d -> Forall (key_is_snap g) (dict_append k r d).
Proof.
  induction d as [|[k' xs] d IH]; intros H; simpl.
  - constructor.
  - inversion H as [|? ? Hhd Htl]. subst.
    destruct (cell_eqb k' k).
    + constructor; [|exact Htl].
      unfold key_is_snap in *. simpl in *.
      destruct xs as [|first tl]; [contradiction | exact Hhd].
    + constructor; [exact Hhd | apply IH, Htl].
Qed.

Lemma build_clusters_from_key_is_snap (pend : list pending_record) (g : float) :
  forall acc clus,
    Forall (key_is_snap g) acc ->
    build_clusters_from acc pend g = Return clus ->
    Forall (key_is_snap g) clus.
Proof.
  induction pend as [|r rest IH]; simpl; intros acc clus Hacc H.
  - inversion H. subst. exact Hacc.
  - destruct (snap_to_grid (lat_of r) (lng_of r) g) as [e|c] eqn:Hs; [discriminate|].
    simpl in H. apply (IH (add_to_cluster acc r c) clus); [|exact H].
    unfold add_to_cluster. destruct (dict_mem c acc).
    + apply dict_append_key_is_snap, Hacc.
    + apply Forall_app. split; [exact Hacc|].
      constructor; [exact Hs | constructor].
Qed.

(** The key of every cluster is the cell of its first record. *)
Lemma build_clusters_key_is_snap (pend : list pending_record) (g : float)
  (clus : clusters_t) :
  build_clusters pend g = Return clus -> Forall (key_is_snap g) clus.
Proof.
  apply build_clusters_from_key_is_snap. constructor.
Qed.

(** C7, on the code.  The commit of Phase 2 sits in the branch of a
    successful lookup and tests the number of requests, failed ones
    included.  With 52 clusters and a provider that fails on its 50th
    request only, no commit happens at the 50th request: when the 52nd
    request is sent, 50 completed lookups are uncommitted, one more than
    the 49 that a commit every 50 lookups allows.  With a provider that
    always answers the bound of 49 holds, here over 120 clusters. *)
Theorem commit_skipped_when_fiftieth_request_fails :
  (exists l w' v2,
      main sample_args (net_fail_at 49) (start_world (far_apart_db 52))
      = Return (Finished l, w') /\
      vars2 l = Some v2 /\
      api_calls v2 = 52 /\
      api_errors v2 = 1 /\
      max_uncommitted (trace w') = 50%nat) /\
  (exists l w',
      main sample_args net_ok (start_world (far_apart_db 120))
      = Return (Finished l, w') /\
      max_uncommitted (trace w') = 49%nat).
Proof.
  split.
  - eexists _, _, _. split; [vm_compute; reflexivity|].
    split; [reflexivity|]. split; [reflexivity|]. split; [reflexivity|].
    vm_compute. reflexivity.
  - eexists _, _. split; [vm_compute; reflexivity|].
    vm_compute. reflexivity.
Qed.

(** C9, on the code.  The estimate is 0 up to 10,000 calls, and above
    10,000 calls it is the rate applied to all the calls, not to the calls
    beyond the 10,000: for 10,001 calls it is the float 50.005, where the
    one call in excess costs 0.005. *)
Theorem est_cost_charges_every_call :
  (forall calls, calls <= 10000 -> est_cost calls = Return (Int 0)) /\
  (forall calls, 10000 < calls ->
                 est_cost calls =
                 let? c := PyFloat.int_mul calls COST_PER_CALL in Return (Float c)) /\
  est_cost 10001 = Return (Float (PyFloat.of_ratio 50005 1000)) /\
  PyFloat.int_mul (10001 - 10000) COST_PER_CALL = Return (PyFloat.of_ratio 5 1000) /\
  PyFloat.eqb (PyFloat.of_ratio 50005 1000) (PyFloat.of_ratio 5 1000) = false.
Proof.
  split; [|split; [|split; [|split]]].
  - intros calls H. unfold est_cost.
    destruct (Z.gtb_spec calls 10000); [lia | reflexivity].
  - intros calls H. unfold est_cost.
    destruct (Z.gtb_spec calls 10000); [reflexivity | lia].
  - vm_compute. reflexivity.
  - vm_compute. reflexivity.
  - vm_compute. reflexivity.
Qed.

Lemma est_cost_charges_every_call_witness :
  est_cost 9000 = Return (Int 0) /\
  est_cost 20000 =
  let? c := PyFloat.int_mul 20000 COST_PER_CALL in Return (Float c).
Proof.
  split.
  - apply (proj1 est_cost_charges_every_call 9000). lia.
  - apply (proj1 (proj2 est_cost_charges_every_call) 20000). lia.
Defined.

(* ================================================================== *)
(** * Further properties of the code *)

(** ** Equality of floats and cells *)

(** [x == y] holds when both are zeros or when they are the same number,
    which is then not a NaN. *)
Lemma eqb_true_inv (x y : float) :
  PyFloat.eqb x y = true ->
  (PyFloat.is_zero x = true /\ PyFloat.is_zero y = true) \/
  (x = y /\ PyFloat.is_nan x = false).
Proof.
  unfold PyFloat.eqb, SFeqb.
  destruct x as [sx|sx| |sx mx ex], y as [sy|sy| |sy my ey]; simpl;
    try discriminate; try (destruct sx; discriminate);
    try (destruct sy; discriminate).
  - intros _. left. split; reflexivity.
  - destruct sx, sy; try discriminate; intros _; right; split; reflexivity.
  - fold (Pos.compare mx my).
    destruct sx, sy; try discriminate;
      destruct (Z.compare_spec ex ey) as [He|He|He]; try discriminate;
      destruct (Pos.compare_spec mx my) as [Hm|Hm|Hm]; try discriminate;
      intros _; right; subst; split; reflexivity.
Qed.

Lemma eqb_zero (x y : float) :
  PyFloat.is_zero x = true -> PyFloat.is_zero y = true -> PyFloat.eqb x y = true.
Proof.
  destruct x, y; try discriminate. reflexivity.
Qed.

Lemma eqb_sym (x y : float) : PyFloat.eqb x y = true -> PyFloat.eqb y x = true.
Proof.
  intros H. destruct (eqb_true_inv x y H) as [[Hx Hy]|[-> Hn]].
  - apply eqb_zero; assumption.
  - apply eqb_refl, Hn.
Qed.

Lemma eqb_trans (x y z : float) :
  PyFloat.eqb x y = true -> PyFloat.eqb y z = true -> PyFloat.eqb x z = true.
Proof.
  intros Hxy Hyz.
  destruct (eqb_true_inv x y Hxy) as [[Hx Hy]|[-> _]]; [|exact Hyz].
  destruct (eqb_true_inv y z Hyz) as [[_ Hz]|[<- _]].
  - apply eqb_zero; assumption.
  - exact Hxy.
Qed.

Lemma cell_eqb_sym (c1 c2 : cell) : cell_eqb c1 c2 = true -> cell_eqb c2 c1 = true.
Proof.
  unfold cell_eqb. intros H. apply andb_true_iff in H. destruct H as [H1 H2].
  rewrite (eqb_sym _ _ H1), (eqb_sym _ _ H2). reflexivity.
Qed.

Lemma cell_eqb_trans (c1 c2 c3 : cell) :
  cell_eqb c1 c2 = true -> cell_eqb c2 c3 = true -> cell_eqb c1 c3 = true.
Proof.
  unfold cell_eqb. intros H G.
  apply andb_true_iff in H. destruct H as [H1 H2].
  apply andb_true_iff in G. destruct G as [G1 G2].
  rewrite (eqb_trans _ _ _ H1 G1), (eqb_trans _ _ _ H2 G2). reflexivity.
Qed.

(** A cell computed for a finite grid size is equal to itself. *)
Lemma snap_to_grid_eqb_refl (lat lng g : float) (c : cell) :
  PyFloat.is_finite g = true -> snap_to_grid lat lng g = Return c ->
  cell_eqb c c = true.
Proof.
  intros Hg Hc. apply snap_to_grid_inv in Hc. destruct Hc as [H1 H2].
  unfold cell_eqb. rewrite !eqb_refl; [reflexivity| |].
  - eapply snap_coord_not_nan; eassumption.
  - eapply snap_coord_not_nan; eassumption.
Qed.

(** ** The catalog of existing addresses *)

Lemma dict_get_app_found {V : Type} (k : cell) (v : V) (d e : dict V) :
  dict_get k d = Some v -> dict_get k (d ++ e) = Some v.
Proof.
  induction d as [|[k' v'] d IH]; simpl; [discriminate|].
  destruct (cell_eqb k' k); [trivial | exact IH].
Qed.

Lemma dict_get_snoc_fresh {V : Type} (k c : cell) (v : V) (d : dict V) :
  dict_get k d = None ->
  dict_get k (d ++ [(c, v)]) = if cell_eqb c k then Some v else None.
Proof.
  induction d as [|[k' v'] d IH]; simpl; [reflexivity|].
  destruct (cell_eqb k' k); [discriminate | exact IH].
Qed.

Lemma dict_get_In {V : Type} (k : cell) (v : V) (d : dict V) :
  dict_get k d = Some v -> exists k', In (k', v) d /\ cell_eqb k' k = true.
Proof.
  induction d as [|[k' v'] d IH]; simpl; [discriminate|].
  destruct (cell_eqb k' k) eqn:E.
  - intros H. inversion H. subst. exists k'. split; [left; reflexivity | exact E].
  - intros H. destruct (IH H) as (k0 & Hin & He). exists k0. split; [right|]; assumption.
Qed.

(** The turn of [build_existing_grid] for one address. *)
Lemma catalog_turn (grid : dict Z) (c : cell) (id : Z) :
  (if dict_mem c grid then grid else dict_set c id grid) =
  (if dict_mem c grid then grid else grid ++ [(c, id)]).
Proof.
  destruct (dict_mem c grid) eqn:E; [reflexivity | apply dict_set_fresh, E].
Qed.

Lemma build_existing_grid_from_app (l1 l2 : list (Z * float * float)) (g : float) :
  forall grid,
    build_existing_grid_from grid (l1 ++ l2) g =
    let? grid1 := build_existing_grid_from grid l1 g in
    build_existing_grid_from grid1 l2 g.
Proof.
  induction l1 as [|[[id lat] lng] l1 IH]; intros grid; simpl; [reflexivity|].
  destruct (snap_to_grid lat lng g) as [e|c]; simpl; [reflexivity | apply IH].
Qed.

(** An entry of the catalog is never replaced. *)
Lemma build_existing_grid_from_keeps (ex : list (Z * float * float)) (g : float) :
  forall grid grid' k v,
    build_existing_grid_from grid ex g = Return grid' ->
    dict_get k grid = Some v -> dict_get k grid' = Some v.
Proof.
  induction ex as [|[[id lat] lng] ex IH]; simpl; intros grid grid' k v H Hk.
  - inversion H. subst. exact Hk.
  - destruct (snap_to_grid lat lng g) as [e|c]; [discriminate|]. simpl in H.
    rewrite catalog_turn in H. apply (IH _ _ k v H).
    destruct (dict_mem c grid); [exact Hk | apply dict_get_app_found, Hk].
Qed.

(** Addresses in other cells do not give a cell an entry. *)
Lemma build_existing_grid_from_misses (ex : list (Z * float * float)) (g : float)
  (k : cell) :
  forall grid grid',
    build_existing_grid_from grid ex g = Return grid' ->
    dict_get k grid = None ->
    (forall id lat lng c, In (id, lat, lng) ex ->
                          snap_to_grid lat lng g = Return c -> cell_eqb c k = false) ->
    dict_get k grid' = None.
Proof.
  induction ex as [|[[id lat] lng] ex IH]; simpl; intros grid grid' H Hk Hex.
  - inversion H. subst. exact Hk.
  - destruct (snap_to_grid lat lng g) as [e|c] eqn:Hs; [discriminate|]. simpl in H.
    rewrite catalog_turn in H. apply (IH _ _ H).
    + destruct (dict_mem c grid); [exact Hk|].
      rewrite (dict_get_snoc_fresh k c id grid Hk).
      rewrite (Hex id lat lng c (or_introl eq_refl) Hs). reflexivity.
    + intros id' lat' lng' c' Hin. apply (Hex id' lat' lng' c'). right. exact Hin.
Qed.

(** X1.  The first address found per cell is kept: when the addresses
    before an address are in other cells, the catalog maps the cell of that
    address to its ID, whatever addresses follow; and an ID the catalog has
    for a cell after some addresses is the ID it has after more of them. *)
Theorem first_address_of_cell_wins :
  (forall (pre post : list (Z * float * float)) (id : Z) (lat lng g : float)
          (c : cell) (grid : dict Z),
      PyFloat.is_finite g = true ->
      snap_to_grid lat lng g = Return c ->
      (forall id' lat' lng' c',
          In (id', lat', lng') pre ->
          snap_to_grid lat' lng' g = Return c' -> cell_eqb c' c = false) ->
      build_existing_grid (pre ++ (id, lat, lng) :: post) g = Return grid ->
      dict_get c grid = Some id) /\
  (forall (l1 l2 : list (Z * float * float)) (g : float) (grid1 grid : dict Z)
          (k : cell) (id : Z),
      build_existing_grid l1 g = Return grid1 ->
      build_existing_grid (l1 ++ l2) g = Return grid ->
      dict_get k grid1 = Some id -> dict_get k grid = Some id).
Proof.
  split.
  - intros pre post id lat lng g c grid Hg Hs Hpre H.
    unfold build_existing_grid in H. rewrite build_existing_grid_from_app in H.
    destruct (build_existing_grid_from [] pre g) as [e|grid1] eqn:H1; [discriminate|].
    cbn [rbind] in H. simpl in H. rewrite Hs in H. cbn [rbind] in H.
    rewrite catalog_turn in H.
    pose proof (build_existing_grid_from_misses pre g c [] grid1 H1 eq_refl Hpre) as Hnone.
    assert (Hm : dict_mem c grid1 = false) by (unfold dict_mem; rewrite Hnone; reflexivity).
    rewrite Hm in H.
    apply (build_existing_grid_from_keeps post g _ _ c id H).
    rewrite (dict_get_snoc_fresh c c id grid1 Hnone).
    rewrite (snap_to_grid_eqb_refl lat lng g c Hg Hs). reflexivity.
  - intros l1 l2 g grid1 grid k id H1 H Hk.
    unfold build_existing_grid in *. rewrite build_existing_grid_from_app, H1 in H.
    cbn [rbind] in H.
    exact (build_existing_grid_from_keeps l2 g _ _ k id H Hk).
Qed.

Lemma first_address_of_cell_wins_witness :
  exists grid,
    build_existing_grid sample_existing DEFAULT_GRID_SIZE = Return grid /\
    dict_get sample_key_a grid = Some 2.
Proof.
  eexists. split; [vm_compute; reflexivity|].
  apply (proj1 first_address_of_cell_wins [] (tl sample_existing) 2
           (deg 420001) (deg (-710001)) DEFAULT_GRID_SIZE sample_key_a).
  - reflexivity.
  - vm_compute. reflexivity.
  - intros id' lat' lng' c' [].
  - vm_compute. reflexivity.
Defined.

Lemma build_existing_grid_from_entries (ex : list (Z * float * float)) (g : float) :
  forall grid grid' k id,
    build_existing_grid_from grid ex g = Return grid' ->
    In (k, id) grid' ->
    In (k, id) grid \/
    exists lat lng, In (id, lat, lng) ex /\ snap_to_grid lat lng g = Return k.
Proof.
  induction ex as [|[[id0 lat0] lng0] ex IH]; simpl; intros grid grid' k id H Hin.
  - inversion H. subst. left. exact Hin.
  - destruct (snap_to_grid lat0 lng0 g) as [e|c] eqn:Hs; [discriminate|]. simpl in H.
    rewrite catalog_turn in H.
    destruct (IH _ _ k id H Hin) as [Hg|(lat & lng & Hex & Hk)].
    + destruct (dict_mem c grid); [left; exact Hg|].
      apply in_app_or in Hg. destruct Hg as [Hg|[Hg|[]]]; [left; exact Hg|].
      inversion Hg. subst. right. exists lat0, lng0. split; [left; reflexivity | exact Hs].
    + right. exists lat, lng. split; [right; exact Hex | exact Hk].
Qed.

Lemma get_existing_addresses_In (d : database) (pid id : Z) (lat lng : float) :
  In (id, lat, lng) (get_existing_addresses d pid) <->
  exists row, In row (addresses d) /\ row_id row = id /\ id <> pid /\
              row_latitude row = Some lat /\ row_longitude row = Some lng.
Proof.
  unfold get_existing_addresses. rewrite in_flat_map. split.
  - intros (row & Hrow & Hin). exists row.
    destruct (Z.eqb_spec (row_id row) pid) as [|Hne]; [destruct Hin|].
    destruct (row_latitude row) as [la|]; [|destruct Hin].
    destruct (row_longitude row) as [lo|]; [|destruct Hin].
    destruct Hin as [Hin|[]]. inversion Hin. subst. repeat split; auto.
  - intros (row & Hrow & Hid & Hne & Hla & Hlo). exists row. split; [exact Hrow|].
    rewrite Hid, Hla, Hlo.
    destruct (Z.eqb_spec id pid) as [|_]; [contradiction|]. left. reflexivity.
Qed.

(** X2.  The catalog built from the store only holds stored addresses that
    are not the placeholder and have both coordinates: an ID the catalog
    gives for a cell is never the placeholder's, and it is the ID of a
    stored address whose coordinates snap to a cell equal to that cell. *)
Theorem catalog_holds_stored_addresses (d : database) (pid : Z) (g : float)
  (grid : dict Z) (c : cell) (id : Z) :
  build_existing_grid (get_existing_addresses d pid) g = Return grid ->
  dict_get c grid = Some id ->
  id <> pid /\
  exists row lat lng k,
    In row (addresses d) /\ row_id row = id /\
    row_latitude row = Some lat /\ row_longitude row = Some lng /\
    snap_to_grid lat lng g = Return k /\ cell_eqb k c = true.
Proof.
  intros H Hget.
  destruct (dict_get_In c id grid Hget) as (k & Hin & Hk).
  destruct (build_existing_grid_from_entries _ g [] grid k id H Hin)
    as [[]|(lat & lng & Hex & Hs)].
  apply get_existing_addresses_In in Hex.
  destruct Hex as (row & Hrow & Hid & Hne & Hla & Hlo).
  split; [exact Hne|]. exists row, lat, lng, k. repeat split; assumption.
Qed.

Lemma catalog_holds_stored_addresses_witness :
  2 <> 1 /\
  exists row lat lng k,
    In row (addresses sample_db_known) /\ row_id row = 2 /\
    row_latitude row = Some lat /\ row_longitude row = Some lng /\
    snap_to_grid lat lng DEFAULT_GRID_SIZE = Return k /\
    cell_eqb k sample_key_a = true.
Proof.
  apply (catalog_holds_stored_addresses sample_db_known 1 DEFAULT_GRID_SIZE
           [(sample_key_a, 2)] sample_key_a 2).
  - vm_compute. reflexivity.
  - vm_compute. reflexivity.
Defined.

(** ** The cluster builder *)

Lemma all_records_app (d1 d2 : clusters_t) :
  all_records (d1 ++ d2) = all_records d1 ++ all_records d2.
Proof.
  unfold all_records. rewrite map_app, concat_app. reflexivity.
Qed.

Lemma dict_append_records (k : cell) (r : pending_record) (d : clusters_t) :
  dict_mem k d = true ->
  Permutation (all_records (dict_append k r d)) (r :: all_records d).
Proof.
  unfold dict_mem, all_records.
  induction d as [|[k' xs] d IH]; simpl; [discriminate|].
  destruct (cell_eqb k' k); simpl; intros H.
  - rewrite <- app_assoc. simpl. symmetry. apply Permutation_middle.
  - specialize (IH H).
    transitivity (xs ++ r :: List.concat (map snd d)).
    + apply Permutation_app_head, IH.
    + symmetry. apply Permutation_middle.
Qed.

Lemma add_to_cluster_records (clus : clusters_t) (r : pending_record) (c : cell) :
  Permutation (all_records (add_to_cluster clus r c)) (r :: all_records clus).
Proof.
  unfold add_to_cluster. destruct (dict_mem c clus) eqn:E.
  - apply dict_append_records, E.
  - rewrite all_records_app. unfold all_records at 2. simpl.
    symmetry. apply Permutation_cons_append.
Qed.

Lemma build_clusters_from_records (pend : list pending_record) (g : float) :
  forall acc clus,
    build_clusters_from acc pend g = Return clus ->
    Permutation (all_records clus) (all_records acc ++ pend).
Proof.
  induction pend as [|r rest IH]; simpl; intros acc clus H.
  - inversion H. subst. rewrite app_nil_r. reflexivity.
  - destruct (snap_to_grid (lat_of r) (lng_of r) g) as [e|c]; [discriminate|].
    simpl in H. rewrite (IH _ _ H).
    rewrite (Permutation_app_tail rest (add_to_cluster_records acc r c)).
    simpl. apply Permutation_middle.
Qed.

Lemma build_clusters_records (pend : list pending_record) (g : float)
  (clus : clusters_t) :
  build_clusters pend g = Return clus -> Permutation (all_records clus) pend.
Proof.
  intros H.
  pose proof (build_clusters_from_records pend g [] clus H) as P. exact P.
Qed.

(** X3.  The cluster builder partitions the pending records: the records
    of the clusters, taken together, are the pending records, each as many
    times as it is pending; so a record is pending exactly when some
    cluster has it, and the clusters hold as many records as are pending. *)
Theorem clusters_partition_pending (pend : list pending_record) (g : float)
  (clus : clusters_t) :
  build_clusters pend g = Return clus ->
  Permutation (all_records clus) pend /\
  (forall r, In r pend <-> exists entry, In entry clus /\ In r (snd entry)) /\
  len (all_records clus) = len pend.
Proof.
  intros H.
  pose proof (build_clusters_from_records pend g [] clus H) as P. simpl in P.
  split; [exact P|]. split.
  - intros r. split.
    + intros Hin. apply (Permutation_in _ (Permutation_sym P)) in Hin.
      unfold all_records in Hin. apply in_concat in Hin.
      destruct Hin as (recs & Hrecs & Hr). apply in_map_iff in Hrecs.
      destruct Hrecs as (entry & <- & Hentry). exists entry. split; assumption.
    + intros (entry & Hentry & Hr). apply (Permutation_in _ P).
      unfold all_records. apply in_concat. exists (snd entry).
      split; [apply in_map, Hentry | exact Hr].
  - unfold len. rewrite (Permutation_length P). reflexivity.
Qed.

Lemma clusters_partition_pending_witness :
  Permutation (all_records sample_clusters) sample_pending /\
  (forall r, In r sample_pending <->
             exists entry, In entry sample_clusters /\ In r (snd entry)) /\
  len (all_records sample_clusters) = len sample_pending.
Proof.
  apply (clusters_partition_pending sample_pending DEFAULT_GRID_SIZE sample_clusters).
  vm_compute. reflexivity.
Defined.

Lemma dict_append_in_cell (g : float) (c : cell) (r : pending_record) (d : clusters_t) :
  snap_to_grid (lat_of r) (lng_of r) g = Return c ->
  Forall (fun entry => Forall (in_cell g (fst entry)) (snd entry)) d ->
  Forall (fun entry => Forall (in_cell g (fst entry)) (snd entry)) (dict_append c r d).
Proof.
  intros Hs. induction d as [|[k' xs] d IH]; intros H; simpl; [constructor|].
  inversion H as [|? ? Hhd Htl]. subst.
  destruct (cell_eqb k' c) eqn:E.
  - constructor; [|exact Htl]. simpl in *. apply Forall_app. split; [exact Hhd|].
    constructor; [|constructor]. exists c. split; assumption.
  - constructor; [exact Hhd | apply IH, Htl].
Qed.

Lemma build_clusters_from_in_cell (pend : list pending_record) (g : float) :
  PyFloat.is_finite g = true ->
  forall acc clus,
    Forall (fun entry => Forall (in_cell g (fst entry)) (snd entry)) acc ->
    build_clusters_from acc pend g = Return clus ->
    Forall (fun entry => Forall (in_cell g (fst entry)) (snd entry)) clus.
Proof.
  intros Hg. induction pend as [|r rest IH]; simpl; intros acc clus Hacc H.
  - inversion H. subst. exact Hacc.
  - destruct (snap_to_grid (lat_of r) (lng_of r) g) as [e|c] eqn:Hs; [discriminate|].
    simpl in H. apply (IH (add_to_cluster acc r c) clus); [|exact H].
    unfold add_to_cluster. destruct (dict_mem c acc).
    + apply dict_append_in_cell; assumption.
    + apply Forall_app. split; [exact Hacc|].
      constructor; [|constructor]. simpl. constructor; [|constructor].
      exists c. split; [exact Hs|].
      exact (snap_to_grid_eqb_refl _ _ g c Hg Hs).
Qed.

(** X4.  For a finite grid size, two pending records are in the same
    cluster exactly when their positions snap to equal cells: the cell of
    every record of a cluster is equal to the key of the cluster, records
    with equal cells are never in two clusters, and records of one cluster
    have equal cells. *)
Theorem same_cell_same_cluster (pend : list pending_record) (g : float)
  (clus : clusters_t) :
  PyFloat.is_finite g = true ->
  build_clusters pend g = Return clus ->
  (forall entry r, In entry clus -> In r (snd entry) -> in_cell g (fst entry) r) /\
  (forall i j e1 e2 r1 r2 c1 c2,
      nth_error clus i = Some e1 -> nth_error clus j = Some e2 ->
      In r1 (snd e1) -> In r2 (snd e2) ->
      snap_to_grid (lat_of r1) (lng_of r1) g = Return c1 ->
      snap_to_grid (lat_of r2) (lng_of r2) g = Return c2 ->
      (cell_eqb c1 c2 = true <-> i = j)).
Proof.
  intros Hg H.
  pose proof (build_clusters_from_in_cell pend g Hg [] clus (Forall_nil _) H) as Hall.
  destruct (build_clusters_inv pend g clus H) as [Hd _].
  assert (Hcell : forall entry r, In entry clus -> In r (snd entry) ->
                                  in_cell g (fst entry) r).
  { intros entry r He Hr. rewrite Forall_forall in Hall.
    specialize (Hall entry He). rewrite Forall_forall in Hall. exact (Hall r Hr). }
  split; [exact Hcell|].
  intros i j e1 e2 r1 r2 c1 c2 Hi Hj Hr1 Hr2 Hs1 Hs2.
  destruct (Hcell e1 r1 (nth_error_In _ _ Hi) Hr1) as (c1' & Hs1' & Hk1).
  destruct (Hcell e2 r2 (nth_error_In _ _ Hj) Hr2) as (c2' & Hs2' & Hk2).
  rewrite Hs1 in Hs1'. inversion Hs1'. subst c1'.
  rewrite Hs2 in Hs2'. inversion Hs2'. subst c2'.
  assert (Hki : nth_error (dict_keys clus) i = Some (fst e1))
    by (unfold dict_keys; rewrite nth_error_map, Hi; reflexivity).
  assert (Hkj : nth_error (dict_keys clus) j = Some (fst e2))
    by (unfold dict_keys; rewrite nth_error_map, Hj; reflexivity).
  split.
  - intros Hc.
    assert (H12 : cell_eqb (fst e1) (fst e2) = true).
    { apply (cell_eqb_trans _ c1); [exact Hk1|].
      apply (cell_eqb_trans _ c2); [exact Hc | apply cell_eqb_sym, Hk2]. }
    destruct (Nat.lt_trichotomy i j) as [Hlt|[Heq|Hgt]]; [|exact Heq|].
    + rewrite (distinct_keys_nth _ Hd i j _ _ Hlt Hki Hkj) in H12. discriminate.
    + apply cell_eqb_sym in H12.
      rewrite (distinct_keys_nth _ Hd j i _ _ Hgt Hkj Hki) in H12. discriminate.
  - intros ->. rewrite Hi in Hj. inversion Hj. subst e2.
    apply (cell_eqb_trans _ (fst e1)); [apply cell_eqb_sym, Hk1 | exact Hk2].
Qed.

Lemma same_cell_same_cluster_witness :
  (forall entry r, In entry sample_clusters -> In r (snd entry) ->
                   in_cell DEFAULT_GRID_SIZE (fst entry) r) /\
  (forall i j e1 e2 r1 r2 c1 c2,
      nth_error sample_clusters i = Some e1 -> nth_error sample_clusters j = Some e2 ->
      In r1 (snd e1) -> In r2 (snd e2) ->
      snap_to_grid (lat_of r1) (lng_of r1) DEFAULT_GRID_SIZE = Return c1 ->
      snap_to_grid (lat_of r2) (lng_of r2) DEFAULT_GRID_SIZE = Return c2 ->
      (cell_eqb c1 c2 = true <-> i = j)).
Proof.
  apply (same_cell_same_cluster sample_pending DEFAULT_GRID_SIZE sample_clusters).
  - reflexivity.
  - vm_compute. reflexivity.
Defined.

(** ** Phase 1: reuse *)

Lemma len_app {A : Type} (l1 l2 : list A) : len (l1 ++ l2) = len l1 + len l2.
Proof. unfold len. rewrite length_app. lia. Qed.

Lemma all_records_cons (entry : cell * list pending_record) (d : clusters_t) :
  all_records (entry :: d) = snd entry ++ all_records d.
Proof. reflexivity. Qed.

Lemma phase1_counts_from (dry : bool) (eg : dict Z) (clus : clusters_t) :
  forall v w,
    let v' := fst (fold_left (phase1_step dry eg) clus (v, w)) in
    matched_from_existing v' + len (filter (unmatched eg) clus)
    = matched_from_existing v + len clus /\
    records_updated_phase1 v' + len (all_records (filter (unmatched eg) clus))
    = records_updated_phase1 v + len (all_records clus).
Proof.
  induction clus as [|[c recs] rest IH]; intros v w.
  - unfold len, all_records. simpl. lia.
  - cbn [fold_left filter].
    assert (Hu : unmatched eg (c, recs)
                 = match dict_get c eg with Some _ => false | None => true end)
      by (unfold unmatched, dict_mem; simpl; destruct (dict_get c eg); reflexivity).
    rewrite Hu. clear Hu.
    remember (phase1_step dry eg (v, w) (c, recs)) as st eqn:Hst.
    unfold phase1_step in Hst.
    destruct (dict_get c eg) as [id|]; subst st;
      match goal with |- context [fold_left _ rest (?v1, ?w1)] =>
        destruct (IH v1 w1) as [H1 H2] end;
      cbn [matched_from_existing records_updated_phase1] in H1, H2;
      rewrite ?all_records_cons, ?len_app, ?len_cons; cbn [snd]; lia.
Qed.

(** X5.  The counts of Phase 1 add up: every cluster is either matched to
    an existing address or kept for Phase 2, and every pending record is
    either counted as resolved from an existing address or is a record of a
    cluster kept for Phase 2, in a dry run as in a real one. *)
Theorem phase1_counts_add_up (dry : bool) (pend : list pending_record) (g : float)
  (clus : clusters_t) (eg : dict Z) (w : world) :
  build_clusters pend g = Return clus ->
  let v := fst (phase1 dry eg clus w) in
  matched_from_existing v + len (cells_to_geocode v) = len clus /\
  records_updated_phase1 v + len (all_records (cells_to_geocode v)) = len pend.
Proof.
  intros H v.
  destruct (kept_clusters dry pend g clus eg w H) as (Hcells & _).
  assert (Hlen : len (all_records clus) = len pend)
    by (unfold len; rewrite (Permutation_length (build_clusters_records pend g clus H));
        reflexivity).
  destruct (phase1_counts_from dry eg clus
              {| matched_from_existing := 0; records_updated_phase1 := 0;
                 cells_to_geocode := [] |} w) as [H1 H2].
  fold (phase1 dry eg clus w) in H1, H2. fold v in H1, H2. simpl in H1, H2.
  unfold v at 2 4. rewrite Hcells. lia.
Qed.

Lemma phase1_counts_add_up_witness :
  let v := fst (phase1 false [(sample_key_a, 2)] sample_clusters
                  (start_world sample_db_known)) in
  matched_from_existing v + len (cells_to_geocode v) = len sample_clusters /\
  records_updated_phase1 v + len (all_records (cells_to_geocode v))
  = len sample_pending.
Proof.
  apply (phase1_counts_add_up false sample_pending DEFAULT_GRID_SIZE sample_clusters).
  vm_compute. reflexivity.
Defined.

Lemma updates_for_In (records : list pending_record) (id : Z) (e : event) :
  In e (updates_for records id) <->
  exists rec, In rec records /\
              e = EvUpdate (record_type_of rec) (record_id_of rec) id.
Proof.
  unfold updates_for. rewrite in_map_iff. split.
  - intros (rec & <- & Hin). exists rec. split; [exact Hin | reflexivity].
  - intros (rec & Hin & ->). exists rec. split; [reflexivity | exact Hin].
Qed.

Lemma phase1_real_effects (eg : dict Z) (clus : clusters_t) :
  forall v w,
    let w' := snd (fold_left (phase1_step false eg) clus (v, w)) in
    requests w' = requests w /\
    exists delta,
      trace w' = trace w ++ delta /\
      (forall entry id rec,
          In entry clus -> dict_get (fst entry) eg = Some id -> In rec (snd entry) ->
          In (EvUpdate (record_type_of rec) (record_id_of rec) id) delta) /\
      (forall e, In e delta ->
                 exists entry id rec,
                   In entry clus /\ dict_get (fst entry) eg = Some id /\
                   In rec (snd entry) /\
                   e = EvUpdate (record_type_of rec) (record_id_of rec) id).
Proof.
  induction clus as [|[c recs] rest IH]; intros v w; simpl.
  - split; [reflexivity|]. exists []. rewrite app_nil_r.
    split; [reflexivity|]. split; [intros ? ? ? [] | intros ? []].
  - destruct (dict_get c eg) as [aid|] eqn:Hc.
    + match goal with |- context [fold_left _ rest (?v1, ?w1)] =>
        destruct (IH v1 w1) as (Hq & d & Ht & Hall & Honly) end.
      destruct (update_all_spec recs aid w) as (U1 & U2 & _).
      split; [rewrite Hq, U2; reflexivity|].
      exists (updates_for recs aid ++ d).
      split; [rewrite Ht, U1, <- app_assoc; reflexivity|]. split.
      * intros entry id rec [<-|Hin] Hid Hrec; apply in_or_app.
        -- left. simpl in Hid. rewrite Hc in Hid. inversion Hid. subst.
           apply updates_for_In. exists rec. split; [exact Hrec | reflexivity].
        -- right. exact (Hall entry id rec Hin Hid Hrec).
      * intros e He. apply in_app_or in He. destruct He as [He|He].
        -- apply updates_for_In in He. destruct He as (rec & Hrec & ->).
           exists (c, recs), aid, rec. repeat split; auto.
        -- destruct (Honly e He) as (entry & id & rec & H1 & H2 & H3 & H4).
           exists entry, id, rec. repeat split; auto.
    + match goal with |- context [fold_left _ rest (?v1, ?w1)] =>
        destruct (IH v1 w1) as (Hq & d & Ht & Hall & Honly) end.
      split; [exact Hq|]. exists d. split; [exact Ht|]. split.
      * intros entry id rec [<-|Hin] Hid Hrec.
        -- simpl in Hid. rewrite Hc in Hid. discriminate.
        -- exact (Hall entry id rec Hin Hid Hrec).
      * intros e He. destruct (Honly e He) as (entry & id & rec & H1 & H2 & H3 & H4).
        exists entry, id, rec. repeat split; auto.
Qed.

(** X6.  Phase 1 of a real run resolves by reuse without any provider
    call: every record of a cluster whose cell the catalog has is updated
    with the ID the catalog gives for that cell, and Phase 1 does nothing
    else: each of its effects is such an update, so that it sends no
    request, inserts no address, deletes nothing and leaves the records of
    the other clusters alone. *)
Theorem phase1_reuses_without_calls (eg : dict Z) (clus : clusters_t) (w : world) :
  let w' := snd (phase1 false eg clus w) in
  requests w' = requests w /\
  exists delta,
    trace w' = trace w ++ delta /\
    api_calls_of delta = [] /\
    (forall entry id rec,
        In entry clus -> dict_get (fst entry) eg = Some id -> In rec (snd entry) ->
        In (EvUpdate (record_type_of rec) (record_id_of rec) id) delta) /\
    (forall e, In e delta ->
               exists entry id rec,
                 In entry clus /\ dict_get (fst entry) eg = Some id /\
                 In rec (snd entry) /\
                 e = EvUpdate (record_type_of rec) (record_id_of rec) id).
Proof.
  destruct (phase1_real_effects eg clus
              {| matched_from_existing := 0; records_updated_phase1 := 0;
                 cells_to_geocode := [] |} w) as (Hq & d & Ht & Hall & Honly).
  split; [exact Hq|]. exists d. split; [exact Ht|]. split; [|split; assumption].
  unfold api_calls_of. clear - Honly.
  induction d as [|e d IH]; [reflexivity|]. simpl.
  destruct (Honly e (or_introl eq_refl)) as (entry & id & rec & _ & _ & _ & ->).
  simpl. apply IH. intros e' He'. apply Honly. right. exact He'.
Qed.

Lemma phase1_reuses_without_calls_witness :
  let w' := snd (phase1 false [(sample_key_a, 2)] sample_clusters
                   (start_world sample_db_known)) in
  requests w' = requests (start_world sample_db_known) /\
  exists delta,
    trace w' = trace (start_world sample_db_known) ++ delta /\
    api_calls_of delta = [] /\
    (forall entry id rec,
        In entry sample_clusters ->
        dict_get (fst entry) [(sample_key_a, 2)] = Some id -> In rec (snd entry) ->
        In (EvUpdate (record_type_of rec) (record_id_of rec) id) delta) /\
    (forall e, In e delta ->
               exists entry id rec,
                 In entry sample_clusters /\
                 dict_get (fst entry) [(sample_key_a, 2)] = Some id /\
                 In rec (snd entry) /\
                 e = EvUpdate (record_type_of rec) (record_id_of rec) id).
Proof.
  exact (phase1_reuses_without_calls [(sample_key_a, 2)] sample_clusters
           (start_world sample_db_known)).
Defined.

(** ** Phase 2: counters *)

Lemma count_events_app (f : event -> bool) (t1 t2 : list event) :
  count_events f (t1 ++ t2) = count_events f t1 + count_events f t2.
Proof. unfold count_events. rewrite filter_app. apply len_app. Qed.

Lemma count_updates_for (records : list pending_record) (id : Z) :
  count_events is_call (updates_for records id) = 0 /\
  count_events is_insert (updates_for records id) = 0 /\
  count_events is_update (updates_for records id) = len records.
Proof.
  unfold count_events, updates_for.
  induction records as [|r rest (H1 & H2 & H3)]; simpl.
  - repeat split; reflexivity.
  - rewrite H1, H2. repeat split; try reflexivity.
    rewrite !len_cons, H3. reflexivity.
Qed.

Lemma count_commit_events (calls : Z) (f : event -> bool) :
  f EvCommit = false -> count_events f (commit_events calls) = 0.
Proof.
  intros Hc. unfold count_events, commit_events.
  destruct (calls mod 50 =? 0); simpl; rewrite ?Hc; reflexivity.
Qed.

Lemma count_pause_events (a : args) (f : event -> bool) :
  (forall s, f (EvSleep s) = false) -> count_events f (pause_events a) = 0.
Proof.
  intros Hs. unfold count_events, pause_events.
  destruct (PyFloat.ltb (S754_zero false) (delay a)); simpl; rewrite ?Hs; reflexivity.
Qed.

Lemma phase2_loop_counters (a : args) (net : network) (cells : clusters_t) :
  forall v w v' w',
    phase2_loop a net cells (v, w) = Return (v', w') ->
    exists delta,
      trace w' = trace w ++ delta /\
      api_calls v' = api_calls v + count_events is_call delta /\
      api_calls v' - api_calls v
      = api_errors v' - api_errors v + count_events is_insert delta /\
      records_updated_phase2 v' = records_updated_phase2 v + count_events is_update delta /\
      api_errors v <= api_errors v'.
Proof.
  induction cells as [|[c recs] rest IH]; intros v w v' w' Hloop.
  - simpl in Hloop. inversion Hloop. subst v' w'.
    exists []. simpl. rewrite app_nil_r. unfold count_events, len. simpl.
    repeat split; try reflexivity; lia.
  - pose proof (phase2_loop_cons_inv _ _ _ _ _ _ _ Hloop) as Hok.
    destruct recs as [|first tl]; [discriminate Hok|].
    cbn [phase2_loop] in Hloop.
    destruct (lookup_of a net (requests w) (c, first :: tl)) as [r|] eqn:Hl.
    + destruct (phase2_step_success a net v w c first tl r Hok Hl)
        as (w1 & Hstep & Ht & _).
      rewrite Hstep in Hloop. cbn [rbind] in Hloop.
      destruct (IH _ _ _ _ Hloop) as (d2 & Ht2 & H1 & H2 & H3 & H4).
      cbn [api_calls api_errors records_updated_phase2] in H1, H2, H3, H4.
      eexists (_ ++ d2).
      split; [rewrite Ht2, Ht, <- app_assoc; reflexivity|].
      rewrite !count_events_app.
      change (EvApiCall (lat_of first) (lng_of first)
              :: EvInsert (google_result_to_address r (fst c) (snd c))
                          (addresses_id_seq (db w) + 1)
              :: updates_for (first :: tl) (addresses_id_seq (db w) + 1)
              ++ commit_events (api_calls v + 1) ++ pause_events a)
        with ([EvApiCall (lat_of first) (lng_of first);
               EvInsert (google_result_to_address r (fst c) (snd c))
                        (addresses_id_seq (db w) + 1)]
              ++ updates_for (first :: tl) (addresses_id_seq (db w) + 1)
              ++ commit_events (api_calls v + 1) ++ pause_events a).
      rewrite !count_events_app.
      destruct (count_updates_for (first :: tl) (addresses_id_seq (db w) + 1))
        as (U1 & U2 & U3).
      rewrite U1, U2, U3.
      rewrite !count_commit_events, !count_pause_events by reflexivity.
      change (count_events is_call
                [EvApiCall (lat_of first) (lng_of first);
                 EvInsert (google_result_to_address r (fst c) (snd c))
                          (addresses_id_seq (db w) + 1)]) with 1.
      change (count_events is_insert
                [EvApiCall (lat_of first) (lng_of first);
                 EvInsert (google_result_to_address r (fst c) (snd c))
                          (addresses_id_seq (db w) + 1)]) with 1.
      change (count_events is_update
                [EvApiCall (lat_of first) (lng_of first);
                 EvInsert (google_result_to_address r (fst c) (snd c))
                          (addresses_id_seq (db w) + 1)]) with 0.
      repeat split; lia.
    + destruct (phase2_step_failure a net v w c first tl Hok Hl)
        as (w1 & Hstep & Ht & _).
      rewrite Hstep in Hloop. cbn [rbind] in Hloop.
      destruct (IH _ _ _ _ Hloop) as (d2 & Ht2 & H1 & H2 & H3 & H4).
      cbn [api_calls api_errors records_updated_phase2] in H1, H2, H3, H4.
      eexists (_ ++ d2).
      split; [rewrite Ht2, Ht, <- app_assoc; reflexivity|].
      rewrite !count_events_app.
      change (EvApiCall (lat_of first) (lng_of first) :: pause_events a)
        with ([EvApiCall (lat_of first) (lng_of first)] ++ pause_events a).
      rewrite !count_events_app, !count_pause_events by reflexivity.
      change (count_events is_call [EvApiCall (lat_of first) (lng_of first)]) with 1.
      change (count_events is_insert [EvApiCall (lat_of first) (lng_of first)]) with 0.
      change (count_events is_update [EvApiCall (lat_of first) (lng_of first)]) with 0.
      repeat split; lia.
Qed.

(** X7.  The counters of Phase 2 agree with what Phase 2 did: when Phase 2
    returns, the counter of calls is the number of requests sent, every
    call is either counted as an error or is followed by exactly one
    insert, and the counter of updated records is the number of updates
    made. *)
Theorem phase2_counters_match_effects (a : args) (net : network) (cells : clusters_t)
  (w : world) (v' : phase2_vars) (w' : world) :
  phase2 a net cells w = Return (v', w') ->
  exists delta,
    trace w' = trace w ++ delta /\
    api_calls v' = count_events is_call delta /\
    api_calls v' = api_errors v' + count_events is_insert delta /\
    records_updated_phase2 v' = count_events is_update delta /\
    0 <= api_errors v' <= api_calls v'.
Proof.
  unfold phase2. intros Hp2.
  destruct (phase2_loop a net cells _) as [e|[vl wl]] eqn:Hloop; [discriminate|].
  cbn [rbind fst snd] in Hp2. inversion Hp2. subst v' w'. clear Hp2.
  destruct (phase2_loop_counters a net cells _ _ _ _ Hloop)
    as (d & Ht & H1 & H2 & H3 & H4).
  cbn [api_calls api_errors records_updated_phase2] in H1, H2, H3, H4.
  exists (d ++ [EvCommit]).
  split; [simpl; rewrite Ht, <- app_assoc; reflexivity|].
  rewrite !count_events_app.
  change (count_events is_call [EvCommit]) with 0.
  change (count_events is_insert [EvCommit]) with 0.
  change (count_events is_update [EvCommit]) with 0.
  assert (0 <= count_events is_insert d)
    by (unfold count_events, len; lia).
  repeat split; lia.
Qed.

Lemma phase2_counters_match_effects_witness :
  exists v' w',
    phase2 sample_args (net_fail_at 1) sample_clusters (start_world sample_db)
    = Return (v', w') /\
    api_calls v' = 2 /\ api_errors v' = 1 /\ records_updated_phase2 v' = 2 /\
    exists delta,
      trace w' = trace (start_world sample_db) ++ delta /\
      api_calls v' = count_events is_call delta /\
      api_calls v' = api_errors v' + count_events is_insert delta /\
      records_updated_phase2 v' = count_events is_update delta /\
      0 <= api_errors v' <= api_calls v'.
Proof.
  eexists _, _.
  assert (H : phase2 sample_args (net_fail_at 1) sample_clusters (start_world sample_db)
              = Return (_, _)) by (vm_compute; reflexivity).
  split; [exact H|].
  split; [reflexivity|]. split; [reflexivity|]. split; [reflexivity|].
  exact (phase2_counters_match_effects _ _ _ _ _ _ H).
Defined.

(** ** Updates of the store *)

Lemma filter_map_commute {A : Type} (p : A -> bool) (f : A -> A) (l : list A) :
  (forall x, p (f x) = p x) -> filter p (map f l) = map f (filter p l).
Proof.
  intros H. induction l as [|x l IH]; simpl; [reflexivity|].
  rewrite H. destruct (p x); simpl; rewrite IH; reflexivity.
Qed.

Lemma map_filter_ext {A B : Type} (p : A -> bool) (f g : A -> B) (l : list A) :
  (forall x, p x = true -> f x = g x) -> map f (filter p l) = map g (filter p l).
Proof.
  intros H. apply map_ext_in. intros x Hx. apply filter_In in Hx. apply H, Hx.
Qed.

Lemma set_start_address_id (rid aid : Z) (r : drive_row) :
  drive_id (set_start_address rid aid r) = drive_id r.
Proof. unfold set_start_address. destruct (drive_id r =? rid); reflexivity. Qed.

Lemma set_end_address_id (rid aid : Z) (r : drive_row) :
  drive_id (set_end_address rid aid r) = drive_id r.
Proof. unfold set_end_address. destruct (drive_id r =? rid); reflexivity. Qed.

Lemma set_charging_address_id (rid aid : Z) (r : charging_row) :
  charging_id (set_charging_address rid aid r) = charging_id r.
Proof. unfold set_charging_address. destruct (charging_id r =? rid); reflexivity. Qed.

(** The references after one update. *)
Lemma references_of_update (t : record_type) (rid aid : Z) (d : database)
  (t' : record_type) (rid' : Z) :
  references_of (update_table t rid aid d) t' rid' =
  if record_type_eqb t t' && (rid =? rid')
  then map (fun _ => Some aid) (references_of d t' rid')
  else references_of d t' rid'.
Proof.
  destruct t, t'; simpl; try reflexivity.
  - (* drive_start, drive_start *)
    rewrite filter_map_commute, !map_map
      by (intros x; rewrite set_start_address_id; reflexivity).
    destruct (Z.eqb_spec rid rid') as [->|Hne]; rewrite ?map_map;
      apply map_filter_ext; intros x Hx; unfold set_start_address.
    + rewrite Hx. reflexivity.
    + apply Z.eqb_eq in Hx. destruct (Z.eqb_spec (drive_id x) rid); [lia | reflexivity].
  - (* drive_start, drive_end *)
    rewrite filter_map_commute, !map_map
      by (intros x; rewrite set_start_address_id; reflexivity).
    apply map_ext. intros x. unfold set_start_address.
    destruct (drive_id x =? rid); reflexivity.
  - (* drive_end, drive_start *)
    rewrite filter_map_commute, !map_map
      by (intros x; rewrite set_end_address_id; reflexivity).
    apply map_ext. intros x. unfold set_end_address.
    destruct (drive_id x =? rid); reflexivity.
  - (* drive_end, drive_end *)
    rewrite filter_map_commute, !map_map
      by (intros x; rewrite set_end_address_id; reflexivity).
    destruct (Z.eqb_spec rid rid') as [->|Hne]; rewrite ?map_map;
      apply map_filter_ext; intros x Hx; unfold set_end_address.
    + rewrite Hx. reflexivity.
    + apply Z.eqb_eq in Hx. destruct (Z.eqb_spec (drive_id x) rid); [lia | reflexivity].
  - (* charging, charging *)
    rewrite filter_map_commute, !map_map
      by (intros x; rewrite set_charging_address_id; reflexivity).
    destruct (Z.eqb_spec rid rid') as [->|Hne]; rewrite ?map_map;
      apply map_filter_ext; intros x Hx; unfold set_charging_address.
    + rewrite Hx. reflexivity.
    + apply Z.eqb_eq in Hx. destruct (Z.eqb_spec (charging_id x) rid); [lia | reflexivity].
Qed.

Lemma map_idempotent {A : Type} (f : A -> A) (l : list A) :
  (forall x, f (f x) = f x) -> map f (map f l) = map f l.
Proof.
  intros H. rewrite map_map. apply map_ext. exact H.
Qed.

(** X8.  [update_records] rewrites the address reference of the records of
    the given kind and ID, and of no other: after it those records
    reference the new address, every record of another kind or ID
    references what it referenced, and the addresses and the positions are
    untouched; applied a second time with the same arguments it leaves the
    tables as the first time left them. *)
Theorem update_records_sets_one_reference (t : record_type) (rid aid : Z) (w : world) :
  let w' := update_records t rid aid w in
  (forall t' rid',
      references_of (db w') t' rid' =
      if record_type_eqb t t' && (rid =? rid')
      then map (fun _ => Some aid) (references_of (db w) t' rid')
      else references_of (db w) t' rid') /\
  addresses (db w') = addresses (db w) /\
  positions (db w') = positions (db w) /\
  db (update_records t rid aid w') = db w'.
Proof.
  cbv zeta. split; [|split; [|split]].
  - intros t' rid'. apply references_of_update.
  - destruct t; reflexivity.
  - destruct t; reflexivity.
  - unfold update_records. simpl. unfold update_table.
    destruct t; simpl; f_equal; apply map_idempotent; intros x.
    + unfold set_start_address. destruct (drive_id x =? rid) eqn:E; simpl;
        rewrite E; reflexivity.
    + unfold set_end_address. destruct (drive_id x =? rid) eqn:E; simpl;
        rewrite E; reflexivity.
    + unfold set_charging_address. destruct (charging_id x =? rid) eqn:E; simpl;
        rewrite E; reflexivity.
Qed.

(** ** References to the placeholder through a run *)

Lemma refers_update (pid : Z) (t : record_type) (rid aid : Z) (d : database)
  (t' : record_type) (rid' : Z) :
  aid <> pid ->
  refers (update_table t rid aid d) pid t' rid' =
  refers d pid t' rid' && negb (record_type_eqb t t' && (rid =? rid')).
Proof.
  intros Hne. unfold refers. rewrite references_of_update.
  destruct (record_type_eqb t t' && (rid =? rid')).
  - rewrite andb_false_r. induction (references_of d t' rid') as [|x l IH];
      [reflexivity|]. simpl. rewrite IH.
    destruct (Z.eqb_spec aid pid); [contradiction | reflexivity].
  - rewrite andb_true_r. reflexivity.
Qed.

Lemma refers_update_all (pid aid : Z) (records : list pending_record)
  (t' : record_type) (rid' : Z) :
  aid <> pid ->
  forall w,
    refers (db (update_all records aid w)) pid t' rid' =
    refers (db w) pid t' rid' && negb (targets records t' rid').
Proof.
  intros Hne. unfold update_all.
  induction records as [|r rest IH]; intros w; simpl.
  - rewrite andb_true_r. reflexivity.
  - rewrite IH. simpl. rewrite (refers_update pid _ _ aid _ t' rid' Hne).
    rewrite negb_orb, andb_assoc. reflexivity.
Qed.

Lemma targets_In (records : list pending_record) (t : record_type) (rid : Z) :
  targets records t rid = true <->
  exists r, In r records /\ record_type_of r = t /\ record_id_of r = rid.
Proof.
  unfold targets. rewrite existsb_exists. split.
  - intros (r & Hin & H). apply andb_true_iff in H. destruct H as [Ht Hid].
    exists r. split; [exact Hin|]. split; [|apply Z.eqb_eq, Hid].
    destruct (record_type_of r), t; try discriminate; reflexivity.
  - intros (r & Hin & Ht & Hid). exists r. split; [exact Hin|].
    rewrite Ht, Hid, Z.eqb_refl. destruct t; reflexivity.
Qed.

Lemma filter_length_zero {A : Type} (p : A -> bool) (l : list A) :
  (forall x, In x l -> p x = false) -> List.length (filter p l) = O.
Proof.
  induction l as [|x l IH]; intros H; simpl; [reflexivity|].
  rewrite (H x (or_introl eq_refl)). apply IH. intros y Hy. apply H. right. exact Hy.
Qed.

(** No record references the address: the count of Phase 3 is zero. *)
Lemma count_references_zero (d : database) (pid : Z) :
  (forall t rid, refers d pid t rid = false) -> count_references d pid = 0.
Proof.
  intros H. unfold count_references.
  rewrite !filter_length_zero; [reflexivity| | |].
  - intros x Hx. specialize (H charging (charging_id x)).
    unfold refers, references_of in H.
    destruct (col_is (address_id x) pid) eqn:E; [|reflexivity].
    rewrite <- H. symmetry. apply existsb_exists. exists (address_id x).
    split; [|exact E]. apply in_map. apply filter_In. split; [exact Hx|].
    apply Z.eqb_refl.
  - intros x Hx. specialize (H drive_end (drive_id x)).
    unfold refers, references_of in H.
    destruct (col_is (end_address_id x) pid) eqn:E; [|reflexivity].
    rewrite <- H. symmetry. apply existsb_exists. exists (end_address_id x).
    split; [|exact E]. apply in_map. apply filter_In. split; [exact Hx|].
    apply Z.eqb_refl.
  - intros x Hx. specialize (H drive_start (drive_id x)).
    unfold refers, references_of in H.
    destruct (col_is (start_address_id x) pid) eqn:E; [|reflexivity].
    rewrite <- H. symmetry. apply existsb_exists. exists (start_address_id x).
    split; [|exact E]. apply in_map. apply filter_In. split; [exact Hx|].
    apply Z.eqb_refl.
Qed.

(** With every position in place, a record that references the placeholder
    is pending. *)
Lemma referring_records_are_pending (d : database) (pid : Z) (t : record_type)
  (rid : Z) :
  positions_complete d pid = true ->
  refers d pid t rid = true ->
  targets (get_pending_records d pid) t rid = true.
Proof.
  unfold positions_complete. intros Hpc Href.
  apply andb_true_iff in Hpc. destruct Hpc as [Hpc Hc].
  apply andb_true_iff in Hpc. destruct Hpc as [Hs He].
  rewrite forallb_forall in Hs, He, Hc.
  unfold refers in Href. apply existsb_exists in Href.
  destruct Href as (col & Hcol & Hpid).
  apply targets_In. unfold get_pending_records.
  destruct t; unfold references_of in Hcol; apply in_map_iff in Hcol;
    destruct Hcol as (row & <- & Hrow); apply filter_In in Hrow;
    destruct Hrow as [Hrow Hid]; apply Z.eqb_eq in Hid.
  - specialize (Hs row Hrow). rewrite Hpid in Hs. simpl in Hs.
    apply existsb_exists in Hs. destruct Hs as (p & Hp & Hfk).
    exists (rid, drive_start, pos_latitude p, pos_longitude p).
    split; [|split; reflexivity].
    apply in_or_app. left. apply in_flat_map. exists row. split; [exact Hrow|].
    rewrite Hpid, Hid. unfold pending_of, join_position.
    apply (in_map (fun p0 => (rid, drive_start, pos_latitude p0, pos_longitude p0))).
    apply filter_In. split; assumption.
  - specialize (He row Hrow). rewrite Hpid in He. simpl in He.
    apply existsb_exists in He. destruct He as (p & Hp & Hfk).
    exists (rid, drive_end, pos_latitude p, pos_longitude p).
    split; [|split; reflexivity].
    apply in_or_app. right. apply in_or_app. left.
    apply in_flat_map. exists row. split; [exact Hrow|].
    rewrite Hpid, Hid. unfold pending_of, join_position.
    apply (in_map (fun p0 => (rid, drive_end, pos_latitude p0, pos_longitude p0))).
    apply filter_In. split; assumption.
  - specialize (Hc row Hrow). rewrite Hpid in Hc. simpl in Hc.
    apply existsb_exists in Hc. destruct Hc as (p & Hp & Hfk).
    exists (rid, charging, pos_latitude p, pos_longitude p).
    split; [|split; reflexivity].
    apply in_or_app. right. apply in_or_app. right.
    apply in_flat_map. exists row. split; [exact Hrow|].
    rewrite Hpid, Hid. unfold pending_of, join_position.
    apply (in_map (fun p0 => (rid, charging, pos_latitude p0, pos_longitude p0))).
    apply filter_In. split; assumption.
Qed.

Lemma phase1_refers (pid : Z) (eg : dict Z) (t : record_type) (rid : Z)
  (clus : clusters_t) :
  (forall c id, dict_get c eg = Some id -> id <> pid) ->
  forall v w,
    refers (db (snd (fold_left (phase1_step false eg) clus (v, w)))) pid t rid = true ->
    refers (db w) pid t rid = true /\
    forall entry, In entry clus -> unmatched eg entry = false ->
                  targets (snd entry) t rid = false.
Proof.
  intros Hids. induction clus as [|[c recs] rest IH]; intros v w; simpl.
  - intros H. split; [exact H | intros ? []].
  - destruct (dict_get c eg) as [aid|] eqn:Hc.
    + intros H. apply IH in H. destruct H as [H Hrest].
      rewrite (refers_update_all pid aid recs t rid (Hids c aid Hc)) in H.
      apply andb_true_iff in H. destruct H as [H Ht]. apply negb_true_iff in Ht.
      split; [exact H|]. intros entry [<-|Hin] Hm; [exact Ht | exact (Hrest entry Hin Hm)].
    + intros H. apply IH in H. destruct H as [H Hrest].
      split; [exact H|]. intros entry [<-|Hin] Hm; [|exact (Hrest entry Hin Hm)].
      unfold unmatched, dict_mem in Hm. simpl in Hm. rewrite Hc in Hm. discriminate.
Qed.

(** The store after a turn of Phase 2 whose lookup succeeds. *)
Lemma phase2_step_success_db (a : args) (net : network) (v : phase2_vars) (w : world)
  (c : cell) (first : pending_record) (rest : list pending_record)
  (r : google_result) (pid : Z) (t : record_type) (rid : Z) :
  turn_ok a net (requests w) (c, first :: rest) = true ->
  lookup_of a net (requests w) (c, first :: rest) = Some r ->
  addresses_id_seq (db w) + 1 <> pid ->
  exists v' w',
    phase2_step a net (v, w) (c, first :: rest) = Return (v', w') /\
    api_errors v' = api_errors v /\
    addresses_id_seq (db w') = addresses_id_seq (db w) + 1 /\
    refers (db w') pid t rid =
    refers (db w) pid t rid && negb (targets (first :: rest) t rid).
Proof.
  intros Hok Hr Hne. destruct (turn_ok_cons _ _ _ _ _ _ Hok) as [Hans Hpause].
  unfold lookup_of, representative in Hr. simpl in Hr.
  destruct c as [grid_lat grid_lng].
  unfold phase2_step. rewrite (reverse_geocode_google_answers _ _ _ _ _ Hans).
  cbn [rbind]. rewrite Hr.
  unfold insert_address.
  match goal with
  | |- context [update_all ?rs ?id ?w0] =>
      pose proof (refers_update_all pid id rs t rid Hne w0) as U;
      destruct (update_all_spec rs id w0) as (_ & _ & _ & Us);
      set (wu := update_all rs id w0) in *
  end.
  destruct (commit_if_spec (api_calls v + 1) wu) as (_ & _ & C3).
  set (wc := if (api_calls v + 1) mod 50 =? 0 then commit wu else wu) in *.
  destruct (pause_spec a wc Hpause) as (wp & Hp & _ & _ & P3).
  eexists _, wp. split; [rewrite Hp; reflexivity|].
  cbv zeta in C3. rewrite P3, C3, Us, U. repeat split; reflexivity.
Qed.

Lemma phase2_loop_refers (a : args) (net : network) (pid : Z) (t : record_type)
  (rid : Z) (cells : clusters_t) :
  nonempty_records cells = true ->
  forall v w v' w',
    pid <= addresses_id_seq (db w) ->
    phase2_loop a net cells (v, w) = Return (v', w') ->
    api_errors v <= api_errors v' /\
    (api_errors v' = api_errors v ->
     refers (db w') pid t rid = true ->
     refers (db w) pid t rid = true /\
     forall entry, In entry cells -> targets (snd entry) t rid = false).
Proof.
  induction cells as [|[c recs] rest IH]; intros Hne v w v' w' Hseq Hloop.
  - simpl in Hloop. inversion Hloop. subst. split; [lia|].
    intros _ H. split; [exact H | intros ? []].
  - simpl in Hne. destruct recs as [|first tl]; [discriminate|].
    simpl in Hne. specialize (IH Hne).
    pose proof (phase2_loop_cons_inv _ _ _ _ _ _ _ Hloop) as Hok.
    cbn [phase2_loop] in Hloop.
    destruct (lookup_of a net (requests w) (c, first :: tl)) as [r|] eqn:Hl.
    + destruct (phase2_step_success_db a net v w c first tl r pid t rid Hok Hl
                  ltac:(lia)) as (v1 & w1 & Hstep & He & Hs & Href).
      rewrite Hstep in Hloop. cbn [rbind] in Hloop.
      destruct (IH v1 w1 v' w' ltac:(lia) Hloop) as [Hmono Hkeep].
      split; [lia|]. intros Heq H.
      destruct (Hkeep ltac:(lia) H) as [H1 Hrest].
      rewrite Href in H1. apply andb_true_iff in H1. destruct H1 as [H1 Ht].
      apply negb_true_iff in Ht. split; [exact H1|].
      intros entry [<-|Hin]; [exact Ht | exact (Hrest entry Hin)].
    + destruct (phase2_step_failure a net v w c first tl Hok Hl)
        as (w1 & Hstep & _ & _ & Hdb).
      rewrite Hstep in Hloop. cbn [rbind] in Hloop.
      match type of Hloop with phase2_loop _ _ _ (?v1, _) = _ =>
        destruct (IH v1 w1 v' w' ltac:(rewrite Hdb; exact Hseq) Hloop) as [Hmono _]
      end.
      cbn [api_errors] in Hmono. split; [lia|]. intros Heq. lia.
Qed.

Lemma catalog_ids_not_placeholder (d : database) (pid : Z) (g : float)
  (grid : dict Z) (c : cell) (id : Z) :
  build_existing_grid (get_existing_addresses d pid) g = Return grid ->
  dict_get c grid = Some id -> id <> pid.
Proof.
  intros H Hget.
  destruct (dict_get_In c id grid Hget) as (k & Hin & _).
  destruct (build_existing_grid_from_entries _ g [] grid k id H Hin)
    as [[]|(lat & lng & Hex & _)].
  apply get_existing_addresses_In in Hex.
  destruct Hex as (row & _ & _ & Hne & _). exact Hne.
Qed.

(** The end of a real run without a failed lookup. *)
Lemma successful_run_end (a : args) (net : network) (w : world)
  (l : locals) (w' : world) (v2 : phase2_vars) :
  main a net w = Return (Finished l, w') ->
  dry_run a = false ->
  vars2 l = Some v2 ->
  api_errors v2 = 0 ->
  positions_complete (db w) (placeholder_id l) = true ->
  placeholder_id l <= addresses_id_seq (db w) ->
  exists wl,
    phase2_loop a net (cells_to_geocode (vars1 l))
      ({| api_calls := 0; api_errors := 0; records_updated_phase2 := 0 |},
       commit (snd (phase1 false (existing_grid l) (clusters l) w)))
    = Return (v2, wl) /\
    nonempty_records (cells_to_geocode (vars1 l)) = true /\
    count_references (db wl) (placeholder_id l) = 0 /\
    remaining l = Some 0 /\
    w' = commit (delete_address (placeholder_id l) (commit wl)).
Proof.
  intros Hmain Hdry Hv2 Herr Hpc Hseq.
  destruct (main_finished_inv a net w l w' Hmain)
    as (_ & _ & _ & _ & Hpend & _ & Hclus & Hex & Heg & Hv1 & _ & Hreal).
  rewrite Hdry in Hreal, Hv1.
  destruct Hreal as (v2' & w2 & Hp2 & Hv2' & Hrem & Hw' & _).
  rewrite Hv2 in Hv2'. inversion Hv2'. subst v2'. clear Hv2'.
  set (pid := placeholder_id l) in *.
  destruct (kept_clusters false _ _ _ (existing_grid l) w Hclus) as (Hcells & Hne & _).
  rewrite Hv1, Hcells in Hp2.
  unfold phase2 in Hp2.
  destruct (phase2_loop a net _ _) as [e|[vl wl]] eqn:Hloop; [discriminate|].
  cbn [rbind fst snd] in Hp2. inversion Hp2. subst vl w2. clear Hp2.
  destruct (phase1_effects false (existing_grid l) (clusters l)
              {| matched_from_existing := 0; records_updated_phase1 := 0;
                 cells_to_geocode := [] |} w) as (_ & _ & Hseq1 & _).
  fold (phase1 false (existing_grid l) (clusters l) w) in Hseq1.
  assert (Hzero : forall t rid, refers (db wl) pid t rid = false).
  { intros t rid. destruct (refers (db wl) pid t rid) eqn:Href; [|reflexivity].
    exfalso.
    assert (Hseq2 : pid <= addresses_id_seq
                             (db (commit (snd (phase1 false (existing_grid l)
                                                 (clusters l) w)))))
      by (simpl; rewrite Hseq1; exact Hseq).
    destruct (phase2_loop_refers a net pid t rid _ Hne _ _ _ _ Hseq2 Hloop)
      as [_ Hkeep].
    destruct (Hkeep Herr Href) as [Href1 Hcellsno].
    change (db (commit (snd (phase1 false (existing_grid l) (clusters l) w))))
      with (db (snd (phase1 false (existing_grid l) (clusters l) w))) in Href1.
    unfold phase1 in Href1.
    apply (phase1_refers pid (existing_grid l) t rid (clusters l)) in Href1;
      [|intros c id Hc; rewrite Hex in Heg;
        exact (catalog_ids_not_placeholder (db w) pid (grid_size a) _ c id Heg Hc)].
    destruct Href1 as [Href0 Hmatched].
    pose proof (referring_records_are_pending (db w) pid t rid Hpc Href0) as Htg.
    rewrite <- Hpend in Htg. apply targets_In in Htg.
    destruct Htg as (r & Hr & Ht & Hid).
    apply (Permutation_in _ (Permutation_sym (build_clusters_records _ _ _ Hclus))) in Hr.
    unfold all_records in Hr. apply in_concat in Hr.
    destruct Hr as (recs & Hrecs & Hrin). apply in_map_iff in Hrecs.
    destruct Hrecs as (entry & <- & Hentry).
    assert (Htrue : targets (snd entry) t rid = true)
      by (apply targets_In; exists r; repeat split; assumption).
    destruct (unmatched (existing_grid l) entry) eqn:Hu.
    - rewrite (Hcellsno entry) in Htrue; [discriminate|].
      apply filter_In. split; assumption.
    - rewrite (Hmatched entry Hentry Hu) in Htrue. discriminate. }
  pose proof (count_references_zero (db wl) pid Hzero) as Hcount.
  unfold phase3 in Hrem, Hw'. cbn [fst snd] in Hrem, Hw'.
  change (db (commit wl)) with (db wl) in Hrem, Hw'.
  rewrite Hcount in Hrem, Hw'. simpl in Hw'.
  exists wl. rewrite Hv1, Hcells.
  split; [exact Hloop|]. split; [exact Hne|]. split; [exact Hcount|].
  split; [exact Hrem | exact Hw'].
Qed.


(** X9.  A fully successful run clears the placeholder: in a real run that
    reaches its end with no failed lookup, from a store where every record
    that references the placeholder has its position and where the
    sequence of address IDs is not behind the placeholder's ID, no drive
    start, drive end or charging process references the placeholder when
    Phase 3 counts, so that the count is 0 and the placeholder is deleted
    from the addresses. *)
Theorem successful_run_clears_placeholder (a : args) (net : network) (w : world)
  (l : locals) (w' : world) (v2 : phase2_vars) :
  main a net w = Return (Finished l, w') ->
  dry_run a = false ->
  vars2 l = Some v2 ->
  api_errors v2 = 0 ->
  positions_complete (db w) (placeholder_id l) = true ->
  placeholder_id l <= addresses_id_seq (db w) ->
  remaining l = Some 0 /\
  count_references (db w') (placeholder_id l) = 0 /\
  (forall row, In row (addresses (db w')) -> row_id row <> placeholder_id l) /\
  exists t, trace w' = t ++ [EvDelete (placeholder_id l); EvCommit].
Proof.
  intros Hmain Hdry Hv2 Herr Hpc Hseq.
  destruct (successful_run_end a net w l w' v2 Hmain Hdry Hv2 Herr Hpc Hseq)
    as (wl & _ & _ & Hcount & Hrem & ->).
  split; [exact Hrem|]. split; [exact Hcount|]. split.
  - intros row Hin. simpl in Hin. apply filter_In in Hin. destruct Hin as [_ Hin].
    apply negb_true_iff in Hin. apply Z.eqb_neq in Hin. exact Hin.
  - eexists. simpl. rewrite <- app_assoc. reflexivity.
Qed.

Lemma successful_run_clears_placeholder_witness :
  exists l w',
    sample_run = Return (Finished l, w') /\
    remaining l = Some 0 /\
    count_references (db w') (placeholder_id l) = 0 /\
    (forall row, In row (addresses (db w')) -> row_id row <> placeholder_id l) /\
    exists t, trace w' = t ++ [EvDelete (placeholder_id l); EvCommit].
Proof.
  eexists _, _.
  assert (H : sample_run = Return (Finished _, _)) by (vm_compute; reflexivity).
  split; [exact H|].
  apply (successful_run_clears_placeholder sample_args net_ok (start_world sample_db)
           _ _ {| api_calls := 2; api_errors := 0; records_updated_phase2 := 3 |} H).
  - reflexivity.
  - reflexivity.
  - reflexivity.
  - vm_compute. reflexivity.
  - vm_compute. discriminate.
Defined.

(** ** The provider's reply *)

(** X10.  A lookup gives a result to use exactly when the reply is a body
    with status OK and at least one result, the first of which is not an
    empty object; the result used is then that first one, whatever
    follows it. *)
Theorem lookup_uses_first_result_of_ok_reply (o : http_outcome) (r : google_result) :
  usable (decode_outcome o) = Some r <->
  exists data rs,
    o = Response data /\ status data = Some "OK" /\
    results data = Some (r :: rs) /\ result_truthy r = true.
Proof.
  split.
  - destruct o as [code body|reason|data|cls]; simpl; try discriminate.
    destruct (status data) as [st|] eqn:Hst; [|discriminate].
    destruct (results data) as [[|r0 rs]|] eqn:Hrs; try discriminate.
    destruct (String.eqb_spec st "OK") as [->|]; [|discriminate].
    simpl. destruct (result_truthy r0) eqn:Htr; [|discriminate].
    intros H. inversion H. subst r0. exists data, rs. repeat split; auto.
  - intros (data & rs & -> & Hst & Hrs & Htr). simpl.
    rewrite Hst, Hrs. simpl. rewrite Htr. reflexivity.
Qed.

Lemma lookup_uses_first_result_of_ok_reply_witness :
  usable (decode_outcome ok_reply) = Some sample_result.
Proof.
  apply (proj2 (lookup_uses_first_result_of_ok_reply ok_reply sample_result)).
  eexists _, _. repeat split; reflexivity.
Defined.

Lemma extract_from_none (comps : list address_component) (t : string) :
  (forall comp, In comp comps ->
                str_in t (match comp_types comp with Some ts => ts | None => [] end)
                = false) ->
  extract_from comps t = None.
Proof.
  induction comps as [|comp rest IH]; intros H; simpl; [reflexivity|].
  rewrite (H comp (or_introl eq_refl)). apply IH. intros c Hc. apply H. right. exact Hc.
Qed.

Lemma extract_from_first (pre post : list address_component) (comp : address_component)
  (t : string) :
  (forall c, In c pre ->
             str_in t (match comp_types c with Some ts => ts | None => [] end) = false) ->
  str_in t (match comp_types comp with Some ts => ts | None => [] end) = true ->
  extract_from (pre ++ comp :: post) t = comp_long_name comp.
Proof.
  induction pre as [|c pre IH]; intros Hpre Hc; simpl.
  - rewrite Hc. reflexivity.
  - rewrite (Hpre c (or_introl eq_refl)). apply IH; [|exact Hc].
    intros c' Hc'. apply Hpre. right. exact Hc'.
Qed.

(** X11.  [extract_component] gives the [long_name] of the first component
    that carries the type, even when that name is absent and a later
    component of the type has one; it gives [None] when the result has no
    [address_components] or when no component carries the type. *)
Theorem extract_component_first_match (result : google_result) (t : string) :
  (forall pre comp post,
      address_components result = Some (pre ++ comp :: post) ->
      (forall c, In c pre ->
                 str_in t (match comp_types c with Some ts => ts | None => [] end)
                 = false) ->
      str_in t (match comp_types comp with Some ts => ts | None => [] end) = true ->
      extract_component result t = comp_long_name comp) /\
  (address_components result = None -> extract_component result t = None) /\
  (forall comps,
      address_components result = Some comps ->
      (forall c, In c comps ->
                 str_in t (match comp_types c with Some ts => ts | None => [] end)
                 = false) ->
      extract_component result t = None).
Proof.
  unfold extract_component. split; [|split].
  - intros pre comp post -> Hpre Hc. apply extract_from_first; assumption.
  - intros ->. reflexivity.
  - intros comps -> H. apply extract_from_none, H.
Qed.

Lemma extract_component_first_match_witness :
  extract_component sample_result "route" = Some "Main St".
Proof.
  apply (proj1 (extract_component_first_match sample_result "route")
           [ {| comp_types := Some ["street_number"]; comp_long_name := Some "1" |} ]
           {| comp_types := Some ["route"]; comp_long_name := Some "Main St" |}
           [ {| comp_types := Some ["locality"; "political"];
                comp_long_name := Some "Boston" |} ]).
  - reflexivity.
  - intros c [<-|[]]. reflexivity.
  - reflexivity.
Defined.

(** ** The placeholder *)

Lemma prefix_spec (sub s : string) :
  String.prefix sub s = true <-> exists post, s = (sub ++ post)%string.
Proof.
  revert s. induction sub as [|a sub IH]; intros s.
  - split; [intros _; exists s; reflexivity | intros _; destruct s; reflexivity].
  - destruct s as [|b s]; simpl.
    + split; [discriminate | intros (post & H); discriminate].
    + destruct (Ascii.ascii_dec a b) as [->|Hne].
      * rewrite IH. split; intros (post & H); exists post.
        -- rewrite H. reflexivity.
        -- inversion H. reflexivity.
      * split; [discriminate|]. intros (post & H). inversion H. congruence.
Qed.

Lemma contains_nil (sub : string) :
  contains sub "" = String.prefix sub "".
Proof.
  change (contains sub "") with (if String.prefix sub "" then true else false).
  destruct (String.prefix sub ""); reflexivity.
Qed.

Lemma contains_cons (sub : string) (b : Ascii.ascii) (s : string) :
  contains sub (String b s) =
  if String.prefix sub (String b s) then true else contains sub s.
Proof. reflexivity. Qed.

(** [contains] is the test [LIKE '%sub%']: the string has [sub] somewhere
    in it. *)
Lemma contains_spec (sub s : string) :
  contains sub s = true <-> exists pre post, s = (pre ++ sub ++ post)%string.
Proof.
  induction s as [|b s IH].
  - rewrite contains_nil, prefix_spec. split.
    + intros (post & H). exists ""%string, post. exact H.
    + intros (pre & post & H). destruct pre as [|c pre]; [|discriminate].
      exists post. exact H.
  - rewrite contains_cons.
    destruct (String.prefix sub (String b s)) eqn:E.
    + split; [|reflexivity]. intros _. apply prefix_spec in E.
      destruct E as (post & H). exists ""%string, post. exact H.
    + rewrite IH. split.
      * intros (pre & post & H). exists (String b pre), post. rewrite H. reflexivity.
      * intros (pre & post & H). destruct pre as [|c pre].
        -- simpl in H. exfalso.
           assert (E' : String.prefix sub (String b s) = true)
             by (apply prefix_spec; exists post; exact H).
           congruence.
        -- inversion H. exists pre, post. reflexivity.
Qed.

(** X12.  [find_placeholder_id] finds the first address whose display name
    has "Pending Geocode" somewhere in it: the ID it returns is the ID of
    such an address, before which no address has such a name; and it
    returns nothing exactly when no address has such a name (an address
    without a display name is never the placeholder). *)
Theorem find_placeholder_id_spec (d : database) :
  (forall id,
      find_placeholder_id d = Some id ->
      exists pre row post name before after,
        addresses d = pre ++ row :: post /\ row_id row = id /\
        row_display_name row = Some name /\
        name = (before ++ "Pending Geocode" ++ after)%string /\
        forall r, In r pre -> is_placeholder_row r = false) /\
  (find_placeholder_id d = None <->
   forall row name before after,
     In row (addresses d) -> row_display_name row = Some name ->
     name <> (before ++ "Pending Geocode" ++ after)%string).
Proof.
  unfold find_placeholder_id. split.
  - intros id H.
    induction (addresses d) as [|r rest IH]; simpl in H; [discriminate|].
    destruct (is_placeholder_row r) eqn:E.
    + inversion H. subst id. unfold is_placeholder_row in E.
      destruct (row_display_name r) as [name|] eqn:Hn; [|discriminate].
      apply contains_spec in E. destruct E as (before & after & Hname).
      exists [], r, rest, name, before, after.
      repeat split; auto. intros r0 [].
    + destruct (IH H) as (pre & row & post & name & before & after
                          & Hsplit & Hid & Hn & Hname & Hpre).
      exists (r :: pre), row, post, name, before, after.
      rewrite Hsplit. repeat split; auto.
      intros r0 [<-|Hin]; [exact E | exact (Hpre r0 Hin)].
  - split.
    + intros H row name before after Hin Hn Hname.
      assert (Hp : In row (filter is_placeholder_row (addresses d))).
      { apply filter_In. split; [exact Hin|]. unfold is_placeholder_row.
        rewrite Hn. apply contains_spec. exists before, after. exact Hname. }
      destruct (filter is_placeholder_row (addresses d)); [destruct Hp | discriminate].
    + intros H.
      destruct (filter is_placeholder_row (addresses d)) as [|r rest] eqn:E;
        [reflexivity|]. exfalso.
      assert (Hr : In r (filter is_placeholder_row (addresses d)))
        by (rewrite E; left; reflexivity).
      apply filter_In in Hr. destruct Hr as [Hin Hp].
      unfold is_placeholder_row in Hp.
      destruct (row_display_name r) as [name|] eqn:Hn; [|discriminate].
      apply contains_spec in Hp. destruct Hp as (before & after & Hname).
      exact (H r name before after Hin Hn Hname).
Qed.

Lemma find_placeholder_id_spec_witness :
  exists pre row post name before after,
    addresses sample_db_known = pre ++ row :: post /\ row_id row = 1 /\
    row_display_name row = Some name /\
    name = (before ++ "Pending Geocode" ++ after)%string /\
    forall r, In r pre -> is_placeholder_row r = false.
Proof.
  apply (proj1 (find_placeholder_id_spec sample_db_known) 1). reflexivity.
Defined.

(** ** The grid index on values that are not finite *)

Lemma snap_coord_nan_grid (x : float) : snap_coord x S754_nan = Raise ValueError.
Proof. destruct x; reflexivity. Qed.

Lemma snap_coord_nan (g : float) :
  PyFloat.is_zero g = false -> snap_coord S754_nan g = Raise ValueError.
Proof.
  intros H. unfold snap_coord, PyFloat.div. rewrite H. destruct g; reflexivity.
Qed.

Lemma snap_coord_infinite_grid (x : float) (s : bool) :
  PyFloat.is_finite x = true -> snap_coord x (S754_infinity s) = Return S754_nan.
Proof.
  destruct x as [sx|sx| |sx mx ex]; try discriminate; intros _; reflexivity.
Qed.

(** X13.  On values that are not finite the grid index raises or loses its
    meaning: a NaN grid size or, with a nonzero grid size, a NaN latitude
    raises [ValueError]; an infinite latitude with a finite nonzero grid
    size raises [OverflowError]; and with an infinite grid size every
    finite coordinate is sent to the cell (NaN, NaN). *)
Theorem snap_to_grid_not_finite :
  (forall lat lng, snap_to_grid lat lng S754_nan = Raise ValueError) /\
  (forall lng g, PyFloat.is_zero g = false ->
                 snap_to_grid S754_nan lng g = Raise ValueError) /\
  (forall s lng sg mg eg,
      snap_to_grid (S754_infinity s) lng (S754_finite sg mg eg) = Raise OverflowError) /\
  (forall lat lng s,
      PyFloat.is_finite lat = true -> PyFloat.is_finite lng = true ->
      snap_to_grid lat lng (S754_infinity s) = Return (S754_nan, S754_nan)).
Proof.
  split; [|split; [|split]].
  - intros lat lng. unfold snap_to_grid. rewrite snap_coord_nan_grid. reflexivity.
  - intros lng g H. unfold snap_to_grid. rewrite (snap_coord_nan g H). reflexivity.
  - intros s lng sg mg eg. reflexivity.
  - intros lat lng s Hlat Hlng. unfold snap_to_grid.
    rewrite (snap_coord_infinite_grid lat s Hlat), (snap_coord_infinite_grid lng s Hlng).
    reflexivity.
Qed.

Lemma snap_to_grid_not_finite_witness :
  snap_to_grid S754_nan (deg 1) DEFAULT_GRID_SIZE = Raise ValueError /\
  snap_to_grid (deg 420001) (deg (-710001)) (S754_infinity false)
  = Return (S754_nan, S754_nan).
Proof.
  split.
  - apply (proj1 (proj2 snap_to_grid_not_finite) (deg 1) DEFAULT_GRID_SIZE). reflexivity.
  - apply (proj2 (proj2 (proj2 snap_to_grid_not_finite))
             (deg 420001) (deg (-710001)) false); reflexivity.
Defined.

Lemma nan_cell_not_in_dict {V : Type} (d : dict V) :
  dict_mem (S754_nan, S754_nan) d = false.
Proof.
  apply dict_mem_false_keys. apply forallb_forall. intros [k1 k2] _.
  unfold cell_eqb. simpl. destruct k1; reflexivity.
Qed.

Lemma build_clusters_from_infinite_grid (s : bool) (pend : list pending_record) :
  Forall (fun r => PyFloat.is_finite (lat_of r) = true /\
                   PyFloat.is_finite (lng_of r) = true) pend ->
  forall acc,
    build_clusters_from acc pend (S754_infinity s) =
    Return (acc ++ map (fun r => ((S754_nan, S754_nan), [r])) pend).
Proof.
  induction 1 as [|r rest [Hlat Hlng] _ IH]; intros acc; simpl.
  - rewrite app_nil_r. reflexivity.
  - unfold snap_to_grid.
    rewrite (snap_coord_infinite_grid _ s Hlat), (snap_coord_infinite_grid _ s Hlng).
    cbn [rbind]. unfold add_to_cluster. rewrite nan_cell_not_in_dict.
    rewrite IH, <- app_assoc. reflexivity.
Qed.

(** X14.  An infinite grid size defeats the clustering: with finite
    positions every pending record becomes a cluster of its own, in the
    order of the records, however close the positions are, so that there
    are as many clusters as pending records. *)
Theorem infinite_grid_size_one_cluster_per_record (s : bool)
  (pend : list pending_record) :
  Forall (fun r => PyFloat.is_finite (lat_of r) = true /\
                   PyFloat.is_finite (lng_of r) = true) pend ->
  build_clusters pend (S754_infinity s) =
  Return (map (fun r => ((S754_nan, S754_nan), [r])) pend) /\
  forall clus, build_clusters pend (S754_infinity s) = Return clus ->
               len clus = len pend.
Proof.
  intros H.
  pose proof (build_clusters_from_infinite_grid s pend H []) as E. simpl in E.
  split; [exact E|]. intros clus Hc. unfold build_clusters in Hc.
  rewrite E in Hc. inversion Hc. unfold len. rewrite length_map. reflexivity.
Qed.

Lemma infinite_grid_size_one_cluster_per_record_witness :
  build_clusters sample_pending (S754_infinity false) =
  Return (map (fun r => ((S754_nan, S754_nan), [r])) sample_pending) /\
  forall clus, build_clusters sample_pending (S754_infinity false) = Return clus ->
               len clus = len sample_pending.
Proof.
  apply (infinite_grid_size_one_cluster_per_record false sample_pending).
  repeat constructor.
Defined.

(** ** How a run can end *)

Lemma snap_coord_raises (x g : float) (e : exn) :
  snap_coord x g = Raise e -> is_arith_error e = true.
Proof.
  unfold snap_coord, PyFloat.div.
  destruct (PyFloat.is_zero g); [intros H; inversion H; reflexivity|].
  cbn [rbind].
  destruct (PyFloat.round _) as [e1|n] eqn:Hr.
  - intros H. inversion H. subst e1.
    unfold PyFloat.round in Hr.
    destruct (SFdiv PyFloat.prec PyFloat.emax x g); inversion Hr; reflexivity.
  - cbn [rbind]. unfold PyFloat.int_mul, PyFloat.of_int.
    destruct (binary_normalize PyFloat.prec PyFloat.emax n 0 false);
      cbn [rbind]; intros H; inversion H; reflexivity.
Qed.

Lemma snap_to_grid_raises (lat lng g : float) (e : exn) :
  snap_to_grid lat lng g = Raise e -> is_arith_error e = true.
Proof.
  unfold snap_to_grid.
  destruct (snap_coord lat g) as [e1|y1] eqn:H1.
  - intros H. inversion H. subst. exact (snap_coord_raises _ _ _ H1).
  - cbn [rbind]. destruct (snap_coord lng g) as [e2|y2] eqn:H2; [|discriminate].
    intros H. inversion H. subst. exact (snap_coord_raises _ _ _ H2).
Qed.

Lemma build_clusters_from_raises (pend : list pending_record) (g : float) (e : exn) :
  forall acc, build_clusters_from acc pend g = Raise e -> is_arith_error e = true.
Proof.
  induction pend as [|r rest IH]; intros acc; simpl; [discriminate|].
  destruct (snap_to_grid (lat_of r) (lng_of r) g) as [e1|c] eqn:Hs.
  - intros H. inversion H. subst. exact (snap_to_grid_raises _ _ _ _ Hs).
  - cbn [rbind]. apply IH.
Qed.

Lemma build_existing_grid_from_raises (ex : list (Z * float * float)) (g : float)
  (e : exn) :
  forall grid, build_existing_grid_from grid ex g = Raise e -> is_arith_error e = true.
Proof.
  induction ex as [|[[id lat] lng] ex IH]; intros grid; simpl; [discriminate|].
  destruct (snap_to_grid lat lng g) as [e1|c] eqn:Hs.
  - intros H. inversion H. subst. exact (snap_to_grid_raises _ _ _ _ Hs).
  - cbn [rbind]. apply IH.
Qed.

Lemma est_cost_raises (calls : Z) (e : exn) :
  est_cost calls = Raise e -> is_arith_error e = true.
Proof.
  unfold est_cost, PyFloat.int_mul, PyFloat.of_int.
  destruct (calls >? 10000); [|discriminate].
  destruct (binary_normalize PyFloat.prec PyFloat.emax calls 0 false);
    cbn [rbind]; intros H; inversion H; reflexivity.
Qed.

Lemma config_ok_checks (a : args) :
  config_ok a = true <->
  negb (str_truthy (api_key a)) && negb (dry_run a) = false /\
  negb (str_truthy (db_pass a)) = false.
Proof.
  unfold config_ok.
  destruct (str_truthy (db_pass a)), (str_truthy (api_key a)), (dry_run a); simpl;
    split; try discriminate; auto; intros [? ?]; discriminate.
Qed.

(** The exceptions of a turn of Phase 2: the one the provider call raised,
    or the [OverflowError] of the pause. *)
Lemma phase2_step_raises (a : args) (net : network) (v : phase2_vars) (w : world)
  (c : cell) (first : pending_record) (tl : list pending_record) (e : exn) :
  phase2_step a net (v, w) (c, first :: tl) = Raise e ->
  e = OverflowError \/ exists cls, e = Uncaught cls.
Proof.
  destruct c as [grid_lat grid_lng].
  destruct (answers (net (requests w) (lat_of first) (lng_of first) (api_key a)))
    eqn:Hans.
  - unfold phase2_step. rewrite (reverse_geocode_google_answers _ _ _ _ _ Hans).
    cbn [rbind].
    destruct (pause_ok a) eqn:Hpause.
    + destruct (usable _); unfold insert_address; cbv beta iota zeta;
        match goal with
        | |- context [if PyFloat.ltb _ _ then sleep _ ?w0 else _] =>
            destruct (pause_spec a w0 Hpause) as (wp & Hp & _); rewrite Hp
        end; discriminate.
    + destruct (usable _); unfold insert_address; cbv beta iota zeta;
        rewrite (pause_raises _ _ Hpause); intros H; inversion H; left; reflexivity.
  - unfold phase2_step, reverse_geocode_google.
    destruct (net (requests w) (lat_of first) (lng_of first) (api_key a));
      try discriminate Hans.
    intros H. inversion H. right. eexists. reflexivity.
Qed.

Lemma phase2_loop_raises (a : args) (net : network) (cells : clusters_t) :
  nonempty_records cells = true ->
  forall v w e,
    phase2_loop a net cells (v, w) = Raise e ->
    e = OverflowError \/ exists cls, e = Uncaught cls.
Proof.
  induction cells as [|[c recs] rest IH]; intros Hne v w e Hloop;
    [discriminate|].
  simpl in Hne. destruct recs as [|first tl]; [discriminate|].
  simpl in Hne. cbn [phase2_loop] in Hloop.
  destruct (phase2_step a net (v, w) (c, first :: tl)) as [e1|[v1 w1]] eqn:Hstep.
  - inversion Hloop. subst e1. exact (phase2_step_raises _ _ _ _ _ _ _ _ Hstep).
  - exact (IH Hne _ _ _ Hloop).
Qed.

(** The exceptions of a run with an accepted configuration: those of the
    arithmetic on floats and of the pause, and those the provider call
    raised. *)
Lemma main_raises_kinds (a : args) (net : network) (w : world) (e : exn) :
  config_ok a = true -> main a net w = Raise e ->
  is_arith_error e = true \/ exists cls, e = Uncaught cls.
Proof.
  intros Hcfg. apply config_ok_checks in Hcfg. destruct Hcfg as [H1 H2].
  unfold main. rewrite H1, H2.
  destruct (find_placeholder_id (db w)) as [pid|]; [|discriminate].
  destruct (pid =? 0); [discriminate|].
  destruct (get_pending_records (db w) pid) as [|r0 pend]; [discriminate|].
  destruct (build_clusters (r0 :: pend) (grid_size a)) as [e1|clus] eqn:Hclus.
  { intros H. inversion H. subst. left.
    exact (build_clusters_from_raises _ _ _ _ Hclus). }
  cbn [rbind].
  destruct (build_existing_grid (get_existing_addresses (db w) pid) (grid_size a))
    as [e1|eg] eqn:Heg.
  { intros H. inversion H. subst. left.
    exact (build_existing_grid_from_raises _ _ _ _ Heg). }
  cbn [rbind].
  destruct (kept_clusters (dry_run a) _ _ _ eg w Hclus) as (Hcells & Hne & _).
  destruct (phase1 (dry_run a) eg clus w) as [v1 w1]. cbn [fst] in Hcells.
  destruct (dry_run a) eqn:Hdry.
  - cbn [rbind].
    destruct (est_cost (len (cells_to_geocode v1))) as [e1|c] eqn:Hc; [|discriminate].
    intros H. inversion H. subst. left. exact (est_cost_raises _ _ Hc).
  - rewrite andb_true_r in H1. rewrite H1.
    rewrite <- Hcells in Hne.
    unfold phase2.
    destruct (phase2_loop a net (cells_to_geocode v1) _) as [e1|[v2 w2]] eqn:Hloop.
    + intros H. inversion H. subst e1.
      destruct (phase2_loop_raises _ _ _ Hne _ _ _ Hloop) as [->|Hu];
        [left; reflexivity | right; exact Hu].
    + cbn [rbind fst snd].
      destruct (phase3 pid (commit w2)) as [n w3].
      destruct (est_cost (api_calls v2)) as [e1|c] eqn:Hc; [|discriminate].
      intros H. inversion H. subst. left. exact (est_cost_raises _ _ Hc).
Qed.

(** X15.  A run exits with status 1 exactly when the configuration is not
    accepted (no database password, or no API key outside a dry run), and
    then for every store and provider: the check of the API key that
    guards Phase 2 can never fire.  And [records[0]], the one place of
    the run that can raise [IndexError], never raises it: every cluster
    kept for Phase 2 has a record. *)
Theorem main_exit_and_exceptions (a : args) (net : network) (w : world) :
  (config_ok a = false <-> main a net w = Raise (SystemExit 1)) /\
  (forall code, main a net w = Raise (SystemExit code) ->
                code = 1 /\ config_ok a = false) /\
  main a net w <> Raise IndexError.
Proof.
  assert (Hbad : config_ok a = false -> main a net w = Raise (SystemExit 1)).
  { unfold config_ok, main.
    destruct (str_truthy (db_pass a)), (str_truthy (api_key a)), (dry_run a);
      simpl; try discriminate; reflexivity. }
  assert (Hgood : forall e, config_ok a = true -> main a net w = Raise e ->
                            forall code, e <> SystemExit code /\ e <> IndexError).
  { intros e Hcfg H code.
    destruct (main_raises_kinds a net w e Hcfg H) as [He|(cls & ->)];
      [|split; discriminate].
    destruct e; try discriminate He; split; discriminate. }
  split; [|split].
  - split; [exact Hbad|]. intros H.
    destruct (config_ok a) eqn:Hcfg; [|reflexivity].
    destruct (Hgood _ eq_refl H 1) as [Hne _]. contradiction Hne. reflexivity.
  - intros code H. destruct (config_ok a) eqn:Hcfg.
    + destruct (Hgood _ eq_refl H code) as [Hne _]. contradiction Hne. reflexivity.
    + rewrite (Hbad eq_refl) in H. inversion H. split; reflexivity.
  - intros H. destruct (config_ok a) eqn:Hcfg.
    + destruct (Hgood _ eq_refl H 0) as [_ Hne]. contradiction Hne. reflexivity.
    + rewrite (Hbad eq_refl) in H. discriminate.
Qed.

Lemma main_exit_and_exceptions_witness :
  main {| api_key := None; db_pass := Some "secret"; grid_size := DEFAULT_GRID_SIZE;
          dry_run := false; delay := S754_zero false |} net_ok (start_world sample_db)
  = Raise (SystemExit 1).
Proof.
  apply (proj1 (proj1 (main_exit_and_exceptions _ net_ok (start_world sample_db)))).
  reflexivity.
Defined.

(** A run with an accepted configuration that finds records to geocode
    never ends as a run with nothing to do. *)
Lemma main_with_pending_finishes (a : args) (net : network) (w : world) (pid : Z)
  (r : run_end) (w' : world) :
  config_ok a = true ->
  find_placeholder_id (db w) = Some pid -> pid <> 0 ->
  get_pending_records (db w) pid <> [] ->
  main a net w = Return (r, w') -> exists l, r = Finished l.
Proof.
  intros Hcfg Hpid Hnz Hpend. apply config_ok_checks in Hcfg. destruct Hcfg as [H1 H2].
  unfold main. rewrite H1, H2, Hpid.
  destruct (Z.eqb_spec pid 0) as [|_]; [contradiction|].
  destruct (get_pending_records (db w) pid) as [|r0 pend]; [contradiction|].
  destruct (build_clusters (r0 :: pend) (grid_size a)) as [e1|clus]; [discriminate|].
  cbn [rbind].
  destruct (build_existing_grid (get_existing_addresses (db w) pid) (grid_size a))
    as [e1|eg]; [discriminate|].
  cbn [rbind].
  destruct (phase1 (dry_run a) eg clus w) as [v1 w1].
  destruct (dry_run a).
  - cbn [rbind].
    destruct (est_cost (len (cells_to_geocode v1))) as [e1|c]; [discriminate|].
    cbn [rbind]. intros H. inversion H. eexists. reflexivity.
  - destruct (negb (str_truthy (api_key a))); [discriminate|].
    destruct (phase2 a net (cells_to_geocode v1) (commit w1)) as [e1|[v2 w2]];
      [discriminate|].
    cbn [rbind fst snd]. destruct (phase3 pid w2) as [n w3].
    destruct (est_cost (api_calls v2)) as [e1|c]; [discriminate|].
    cbn [rbind]. intros H. inversion H. eexists. reflexivity.
Qed.

(** X16.  A run with nothing to geocode touches nothing.  With an accepted
    configuration, the run ends at once, in the world it started in,
    exactly when there is no placeholder address (or its ID is 0) or when
    no record with a position references the placeholder; in every other
    case a run that returns has gone through its phases. *)
Theorem nothing_to_geocode_no_effect (a : args) (net : network) (w w' : world) :
  config_ok a = true ->
  (main a net w = Return (NoPlaceholder, w') <->
   (find_placeholder_id (db w) = None \/ find_placeholder_id (db w) = Some 0) /\
   w' = w) /\
  (main a net w = Return (NoPending, w') <->
   (exists pid, find_placeholder_id (db w) = Some pid /\ pid <> 0 /\
                get_pending_records (db w) pid = []) /\
   w' = w).
Proof.
  intros Hcfg. pose proof Hcfg as Hcfg0.
  apply config_ok_checks in Hcfg. destruct Hcfg as [H1 H2].
  destruct (find_placeholder_id (db w)) as [pid|] eqn:Hpid.
  - destruct (Z.eqb_spec pid 0) as [Hz|Hnz].
    + assert (E : main a net w = Return (NoPlaceholder, w))
        by (unfold main; rewrite H1, H2, Hpid, Hz; reflexivity).
      rewrite E. split; split.
      * intros H. inversion H. split; [right; rewrite Hz|]; reflexivity.
      * intros [_ ->]. reflexivity.
      * discriminate.
      * intros [(p & Hp & Hpnz & _) _]. inversion Hp. subst p. contradiction.
    + destruct (get_pending_records (db w) pid) as [|r0 pend] eqn:Hpend.
      * assert (E : main a net w = Return (NoPending, w)).
        { unfold main. rewrite H1, H2, Hpid, Hpend.
          destruct (Z.eqb_spec pid 0); [contradiction | reflexivity]. }
        rewrite E. split; split.
        -- discriminate.
        -- intros [[H|H] _]; [discriminate | inversion H; contradiction].
        -- intros H. inversion H. subst w'. split; [|reflexivity].
           exists pid. repeat split; auto.
        -- intros [_ ->]. reflexivity.
      * assert (Hne : get_pending_records (db w) pid <> [])
          by (rewrite Hpend; discriminate).
        split; split.
        -- intros H.
           destruct (main_with_pending_finishes a net w pid _ _ Hcfg0 Hpid Hnz Hne H)
             as (l & Hl). discriminate.
        -- intros [[H|H] _]; [discriminate | inversion H; contradiction].
        -- intros H.
           destruct (main_with_pending_finishes a net w pid _ _ Hcfg0 Hpid Hnz Hne H)
             as (l & Hl). discriminate.
        -- intros [(p & Hp & _ & He) _]. inversion Hp. subst p. congruence.
  - assert (E : main a net w = Return (NoPlaceholder, w))
      by (unfold main; rewrite H1, H2, Hpid; reflexivity).
    rewrite E. split; split.
    + intros H. inversion H. split; [left|]; reflexivity.
    + intros [_ ->]. reflexivity.
    + discriminate.
    + intros [(p & Hp & _) _]. discriminate.
Qed.

Lemma nothing_to_geocode_no_effect_witness :
  main sample_args net_ok
       (start_world {| addresses := []; drives := drives sample_db;
                       charging_processes := []; positions := positions sample_db;
                       addresses_id_seq := 0 |})
  = Return (NoPlaceholder,
            start_world {| addresses := []; drives := drives sample_db;
                           charging_processes := []; positions := positions sample_db;
                           addresses_id_seq := 0 |}).
Proof.
  apply (proj2 (proj1 (nothing_to_geocode_no_effect sample_args net_ok _ _ eq_refl))).
  split; [left|]; reflexivity.
Defined.

(** ** The shape of a real run *)

Lemma forallb_is_update (d : list event) :
  (forall e, In e d -> exists t rid id, e = EvUpdate t rid id) ->
  forallb is_update d = true.
Proof.
  intros H. apply forallb_forall. intros e He.
  destruct (H e He) as (t & rid & id & ->). reflexivity.
Qed.

(** X17.  A real run that reaches its end has worked in this order: the
    updates of Phase 1 and nothing else, a commit, the lookups of Phase 2
    (which delete nothing), a commit, and then either nothing or the
    delete of the placeholder and a last commit.  So every request comes
    after the reuse of Phase 1 is committed, and the run ends on a commit:
    nothing it wrote is left uncommitted. *)
Theorem real_run_commits_in_order (a : args) (net : network) (w : world)
  (l : locals) (w' : world) :
  main a net w = Return (Finished l, w') ->
  dry_run a = false ->
  exists d1 d2 d3,
    trace w' = trace w ++ d1 ++ EvCommit :: d2 ++ EvCommit :: d3 /\
    forallb is_update d1 = true /\
    forallb (fun e => negb (is_delete e)) d2 = true /\
    count_events is_call d2 = len (cells_to_geocode (vars1 l)) /\
    (d3 = [] \/ d3 = [EvDelete (placeholder_id l); EvCommit]) /\
    exists t, trace w' = t ++ [EvCommit].
Proof.
  intros Hmain Hdry.
  destruct (main_finished_inv a net w l w' Hmain)
    as (_ & _ & _ & _ & _ & _ & Hclus & _ & _ & Hv1 & _ & Hreal).
  rewrite Hdry in Hreal, Hv1.
  destruct Hreal as (v2 & w2 & Hp2 & _ & _ & Hw' & _).
  destruct (kept_clusters false _ _ _ (existing_grid l) w Hclus) as (Hcells & Hne & _).
  rewrite <- Hcells, <- Hv1 in Hne.
  destruct (phase1_real_effects (existing_grid l) (clusters l)
              {| matched_from_existing := 0; records_updated_phase1 := 0;
                 cells_to_geocode := [] |} w) as (_ & d1 & Ht1 & _ & Honly).
  fold (phase1 false (existing_grid l) (clusters l) w) in Ht1.
  set (w1 := snd (phase1 false (existing_grid l) (clusters l) w)) in *.
  destruct (phase2_returns _ _ _ _ _ Hp2) as [_ Hoks].
  unfold phase2 in Hp2.
  destruct (phase2_loop_spec a net _ Hne
              {| api_calls := 0; api_errors := 0; records_updated_phase2 := 0 |}
              (commit w1) Hoks)
    as (vl & wl & d2 & Hloop & Ht2 & _ & _ & Hm & Hd & _).
  rewrite Hloop in Hp2. cbn [rbind fst snd] in Hp2. inversion Hp2. subst v2 w2.
  assert (Hcalls : count_events is_call d2 = len (cells_to_geocode (vars1 l))).
  { assert (E : count_events is_call d2 = len (api_calls_of d2)).
    { unfold count_events, api_calls_of, len. clear.
      induction d2 as [|e d IH]; [reflexivity|].
      destruct e; simpl in *; rewrite ?Nat2Z.inj_succ; lia. }
    rewrite E. unfold len. rewrite <- (length_map Some), Hm, length_map. reflexivity. }
  assert (Hup : forallb is_update d1 = true).
  { apply forallb_is_update. intros e He.
    destruct (Honly e He) as (entry & id & rec & _ & _ & _ & ->).
    eexists _, _, _. reflexivity. }
  unfold phase3 in Hw'. cbn [snd] in Hw'.
  destruct (count_references (db (commit wl)) (placeholder_id l) =? 0); subst w'.
  - exists d1, d2, [EvDelete (placeholder_id l); EvCommit].
    split; [simpl; rewrite Ht2; simpl; rewrite Ht1;
            repeat (rewrite <- app_assoc; simpl); reflexivity|].
    repeat (split; [assumption|]). split; [right; reflexivity|].
    eexists. reflexivity.
  - exists d1, d2, [].
    split; [simpl; rewrite Ht2; simpl; rewrite Ht1;
            repeat (rewrite <- app_assoc; simpl); reflexivity|].
    repeat (split; [assumption|]). split; [left; reflexivity|].
    eexists. reflexivity.
Qed.

Lemma real_run_commits_in_order_witness :
  exists l w' d1 d2 d3,
    sample_run = Return (Finished l, w') /\
    trace w' = trace (start_world sample_db) ++ d1 ++ EvCommit :: d2 ++ EvCommit :: d3 /\
    forallb is_update d1 = true /\
    forallb (fun e => negb (is_delete e)) d2 = true /\
    count_events is_call d2 = len (cells_to_geocode (vars1 l)) /\
    (d3 = [] \/ d3 = [EvDelete (placeholder_id l); EvCommit]) /\
    exists t, trace w' = t ++ [EvCommit].
Proof.
  eexists _, _.
  assert (H : sample_run = Return (Finished _, _)) by (vm_compute; reflexivity).
  destruct (real_run_commits_in_order sample_args net_ok (start_world sample_db)
              _ _ H eq_refl) as (d1 & d2 & d3 & Hd).
  exists d1, d2, d3. split; [exact H | exact Hd].
Defined.

(** ** Pending records and references *)

Lemma refers_of_row_start (d : database) (pid : Z) (row : drive_row) :
  In row (drives d) -> col_is (start_address_id row) pid = true ->
  refers d pid drive_start (drive_id row) = true.
Proof.
  intros Hin Hc. unfold refers, references_of. apply existsb_exists.
  exists (start_address_id row). split; [|exact Hc].
  apply in_map, filter_In. split; [exact Hin | apply Z.eqb_refl].
Qed.

Lemma refers_of_row_end (d : database) (pid : Z) (row : drive_row) :
  In row (drives d) -> col_is (end_address_id row) pid = true ->
  refers d pid drive_end (drive_id row) = true.
Proof.
  intros Hin Hc. unfold refers, references_of. apply existsb_exists.
  exists (end_address_id row). split; [|exact Hc].
  apply in_map, filter_In. split; [exact Hin | apply Z.eqb_refl].
Qed.

Lemma refers_of_row_charging (d : database) (pid : Z) (row : charging_row) :
  In row (charging_processes d) -> col_is (address_id row) pid = true ->
  refers d pid charging (charging_id row) = true.
Proof.
  intros Hin Hc. unfold refers, references_of. apply existsb_exists.
  exists (address_id row). split; [|exact Hc].
  apply in_map, filter_In. split; [exact Hin | apply Z.eqb_refl].
Qed.

(** X18.  The pending records are records that reference the placeholder,
    at the coordinates of a stored position; and when every record that
    references the placeholder has its position, every such record is
    pending.  A record that references the placeholder but has no position
    is not pending, though Phase 3 counts it. *)
Theorem pending_records_reference_placeholder (d : database) (pid : Z) :
  (forall r, In r (get_pending_records d pid) ->
             refers d pid (record_type_of r) (record_id_of r) = true /\
             exists p, In p (positions d) /\
                       lat_of r = pos_latitude p /\ lng_of r = pos_longitude p) /\
  (positions_complete d pid = true ->
   forall t rid, refers d pid t rid = true ->
                 targets (get_pending_records d pid) t rid = true).
Proof.
  split.
  - intros r Hin. unfold get_pending_records in Hin.
    apply in_app_or in Hin. destruct Hin as [Hin|Hin];
      [|apply in_app_or in Hin; destruct Hin as [Hin|Hin]];
      apply in_flat_map in Hin; destruct Hin as (row & Hrow & Hin).
    + destruct (col_is (start_address_id row) pid) eqn:Hc; [|destruct Hin].
      unfold pending_of, join_position in Hin. apply in_map_iff in Hin.
      destruct Hin as (p & <- & Hp). apply filter_In in Hp.
      split; [exact (refers_of_row_start d pid row Hrow Hc)|].
      exists p. split; [exact (proj1 Hp) | split; reflexivity].
    + destruct (col_is (end_address_id row) pid) eqn:Hc; [|destruct Hin].
      unfold pending_of, join_position in Hin. apply in_map_iff in Hin.
      destruct Hin as (p & <- & Hp). apply filter_In in Hp.
      split; [exact (refers_of_row_end d pid row Hrow Hc)|].
      exists p. split; [exact (proj1 Hp) | split; reflexivity].
    + destruct (col_is (address_id row) pid) eqn:Hc; [|destruct Hin].
      unfold pending_of, join_position in Hin. apply in_map_iff in Hin.
      destruct Hin as (p & <- & Hp). apply filter_In in Hp.
      split; [exact (refers_of_row_charging d pid row Hrow Hc)|].
      exists p. split; [exact (proj1 Hp) | split; reflexivity].
  - intros Hpc t rid. apply referring_records_are_pending, Hpc.
Qed.

Lemma pending_records_reference_placeholder_witness :
  targets (get_pending_records sample_db 1) drive_end 10 = true.
Proof.
  apply (proj2 (pending_records_reference_placeholder sample_db 1)).
  - reflexivity.
  - reflexivity.
Defined.

(** ** Which records leave the placeholder *)

Lemma targets_app (l1 l2 : list pending_record) (t : record_type) (rid : Z) :
  targets (l1 ++ l2) t rid = targets l1 t rid || targets l2 t rid.
Proof. unfold targets. apply existsb_app. Qed.

Lemma phase1_refers_eq (pid : Z) (eg : dict Z) (t : record_type) (rid : Z)
  (clus : clusters_t) :
  (forall c id, dict_get c eg = Some id -> id <> pid) ->
  forall v w,
    refers (db (snd (fold_left (phase1_step false eg) clus (v, w)))) pid t rid =
    refers (db w) pid t rid && negb (targets (reused_records eg clus) t rid).
Proof.
  intros Hids. unfold reused_records.
  induction clus as [|[c recs] rest IH]; intros v w.
  - simpl. rewrite andb_true_r. reflexivity.
  - cbn [fold_left filter].
    assert (Hu : unmatched eg (c, recs)
                 = match dict_get c eg with Some _ => false | None => true end)
      by (unfold unmatched, dict_mem; simpl; destruct (dict_get c eg); reflexivity).
    rewrite Hu. clear Hu.
    remember (phase1_step false eg (v, w) (c, recs)) as st eqn:Hst.
    unfold phase1_step in Hst.
    destruct (dict_get c eg) as [aid|] eqn:Hc; subst st; rewrite IH.
    + cbn [negb]. rewrite all_records_cons, targets_app. cbn [snd].
      rewrite (refers_update_all pid aid recs t rid (Hids c aid Hc)).
      rewrite negb_orb, andb_assoc. reflexivity.
    + reflexivity.
Qed.

Lemma phase2_loop_refers_eq (a : args) (net : network) (pid : Z) (t : record_type)
  (rid : Z) (cells : clusters_t) :
  nonempty_records cells = true ->
  forall v w v' w',
    pid <= addresses_id_seq (db w) ->
    phase2_loop a net cells (v, w) = Return (v', w') ->
    refers (db w') pid t rid =
    refers (db w) pid t rid
    && negb (targets (resolved_records a net (requests w) cells) t rid).
Proof.
  induction cells as [|[c recs] rest IH]; intros Hne v w v' w' Hseq Hloop.
  - simpl in Hloop. inversion Hloop. subst. simpl. rewrite andb_true_r. reflexivity.
  - simpl in Hne. destruct recs as [|first tl]; [discriminate|].
    simpl in Hne. specialize (IH Hne).
    pose proof (phase2_loop_cons_inv _ _ _ _ _ _ _ Hloop) as Hok.
    cbn [phase2_loop] in Hloop.
    cbn [resolved_records].
    destruct (lookup_of a net (requests w) (c, first :: tl)) as [r|] eqn:Hl.
    + destruct (phase2_step_success_db a net v w c first tl r pid t rid Hok Hl
                  ltac:(lia)) as (v1 & w1 & Hstep & _ & Hs & Href).
      destruct (phase2_step_success a net v w c first tl r Hok Hl)
        as (w1' & Hstep' & _ & Hq & _).
      rewrite Hstep in Hstep'. inversion Hstep'. subst w1'.
      rewrite Hstep in Hloop. cbn [rbind] in Hloop.
      rewrite (IH v1 w1 v' w' ltac:(lia) Hloop), Href, Hq.
      cbn [snd]. rewrite targets_app, negb_orb, andb_assoc. reflexivity.
    + destruct (phase2_step_failure a net v w c first tl Hok Hl)
        as (w1 & Hstep & _ & Hq & Hdb).
      rewrite Hstep in Hloop. cbn [rbind] in Hloop.
      match type of Hloop with phase2_loop _ _ _ (?v1, _) = _ =>
        rewrite (IH v1 w1 v' w' ltac:(rewrite Hdb; exact Hseq) Hloop)
      end.
      rewrite Hdb, Hq. reflexivity.
Qed.

(** X19.  What a real run leaves on the placeholder: when the run reaches
    its end, from a store whose sequence of address IDs is not behind the
    placeholder's ID, a record references the placeholder exactly when it
    referenced it at the start and is neither a record of a cluster
    matched to an existing address nor a record of a cluster whose lookup
    succeeded.  The records of the clusters whose lookup failed, and the
    records without a position, are the ones that stay. *)
Theorem records_left_on_placeholder (a : args) (net : network) (w : world)
  (l : locals) (w' : world) (t : record_type) (rid : Z) :
  main a net w = Return (Finished l, w') ->
  dry_run a = false ->
  placeholder_id l <= addresses_id_seq (db w) ->
  refers (db w') (placeholder_id l) t rid =
  refers (db w) (placeholder_id l) t rid
  && negb (targets (reused_records (existing_grid l) (clusters l)) t rid)
  && negb (targets (resolved_records a net (requests w)
                      (cells_to_geocode (vars1 l))) t rid).
Proof.
  intros Hmain Hdry Hseq.
  destruct (main_finished_inv a net w l w' Hmain)
    as (_ & _ & _ & _ & _ & _ & Hclus & Hex & Heg & Hv1 & _ & Hreal).
  rewrite Hdry in Hreal, Hv1.
  destruct Hreal as (v2 & w2 & Hp2 & _ & _ & Hw' & _).
  set (pid := placeholder_id l) in *.
  destruct (kept_clusters false _ _ _ (existing_grid l) w Hclus) as (Hcells & Hne & _).
  rewrite <- Hcells, <- Hv1 in Hne.
  unfold phase2 in Hp2.
  destruct (phase2_loop a net _ _) as [e|[vl wl]] eqn:Hloop; [discriminate|].
  cbn [rbind fst snd] in Hp2. inversion Hp2. subst vl w2. clear Hp2.
  destruct (phase1_effects false (existing_grid l) (clusters l)
              {| matched_from_existing := 0; records_updated_phase1 := 0;
                 cells_to_geocode := [] |} w) as (Hq1 & _ & Hseq1 & _).
  fold (phase1 false (existing_grid l) (clusters l) w) in Hseq1, Hq1.
  assert (Hseq2 : pid <= addresses_id_seq
                           (db (commit (snd (phase1 false (existing_grid l)
                                               (clusters l) w)))))
    by (simpl; rewrite Hseq1; exact Hseq).
  pose proof (phase2_loop_refers_eq a net pid t rid _ Hne _ _ _ _ Hseq2 Hloop) as E2.
  assert (E3 : refers (db w') pid t rid = refers (db wl) pid t rid).
  { subst w'. unfold phase3. cbn [snd].
    destruct (count_references (db (commit wl)) pid =? 0); reflexivity. }
  rewrite E3, E2.
  change (db (commit (snd (phase1 false (existing_grid l) (clusters l) w))))
    with (db (snd (phase1 false (existing_grid l) (clusters l) w))).
  change (requests (commit (snd (phase1 false (existing_grid l) (clusters l) w))))
    with (requests (snd (phase1 false (existing_grid l) (clusters l) w))).
  rewrite Hq1. unfold phase1 at 1.
  rewrite (phase1_refers_eq pid (existing_grid l) t rid (clusters l));
    [reflexivity|].
  intros c id Hc. rewrite Hex in Heg.
  exact (catalog_ids_not_placeholder (db w) pid (grid_size a) _ c id Heg Hc).
Qed.

Lemma records_left_on_placeholder_witness :
  exists l w',
    main sample_args (net_fail_at 1) (start_world sample_db) = Return (Finished l, w') /\
    refers (db w') (placeholder_id l) drive_end 10 = true /\
    refers (db w') (placeholder_id l) drive_end 10 =
    refers (db (start_world sample_db)) (placeholder_id l) drive_end 10
    && negb (targets (reused_records (existing_grid l) (clusters l)) drive_end 10)
    && negb (targets (resolved_records sample_args (net_fail_at 1)
                        (requests (start_world sample_db))
                        (cells_to_geocode (vars1 l))) drive_end 10).
Proof.
  eexists _, _.
  assert (H : main sample_args (net_fail_at 1) (start_world sample_db)
              = Return (Finished _, _)) by (vm_compute; reflexivity).
  split; [exact H|]. split; [vm_compute; reflexivity|].
  apply (records_left_on_placeholder sample_args (net_fail_at 1)
           (start_world sample_db) _ _ drive_end 10 H).
  - reflexivity.
  - vm_compute. discriminate.
Defined.

(** ** Reuse is within a cell *)

(** X20.  Reuse never crosses cells: in a run with a finite grid size that
    reaches its end, when the catalog has an address for the key of a
    cluster, that address is a stored address other than the placeholder,
    with both coordinates, and the cell its coordinates snap to is equal
    to the cell of every record of the cluster. *)
Theorem reuse_stays_in_cell (a : args) (net : network) (w : world) (l : locals)
  (w' : world) (entry : cell * list pending_record) (rec : pending_record) (id : Z) :
  main a net w = Return (Finished l, w') ->
  PyFloat.is_finite (grid_size a) = true ->
  In entry (clusters l) -> In rec (snd entry) ->
  dict_get (fst entry) (existing_grid l) = Some id ->
  id <> placeholder_id l /\
  exists row lat lng c1 c2,
    In row (addresses (db w)) /\ row_id row = id /\
    row_latitude row = Some lat /\ row_longitude row = Some lng /\
    snap_to_grid (lat_of rec) (lng_of rec) (grid_size a) = Return c1 /\
    snap_to_grid lat lng (grid_size a) = Return c2 /\
    cell_eqb c1 c2 = true.
Proof.
  intros Hmain Hg Hentry Hrec Hget.
  destruct (main_finished_inv a net w l w' Hmain)
    as (_ & _ & _ & _ & _ & _ & Hclus & Hex & Heg & _).
  rewrite Hex in Heg.
  pose proof (build_clusters_from_in_cell (pending l) (grid_size a) Hg []
                (clusters l) (Forall_nil _) Hclus) as Hall.
  rewrite Forall_forall in Hall. specialize (Hall entry Hentry).
  rewrite Forall_forall in Hall. destruct (Hall rec Hrec) as (c1 & Hs1 & Hk1).
  destruct (dict_get_In (fst entry) id (existing_grid l) Hget) as (k & Hin & Hk).
  destruct (build_existing_grid_from_entries _ (grid_size a) [] _ k id Heg Hin)
    as [[]|(lat & lng & Hexin & Hs2)].
  apply get_existing_addresses_In in Hexin.
  destruct Hexin as (row & Hrow & Hid & Hne & Hla & Hlo).
  split; [exact Hne|].
  exists row, lat, lng, c1, k. repeat split; try assumption.
  apply cell_eqb_sym. apply (cell_eqb_trans k (fst entry) c1); assumption.
Qed.

Lemma reuse_stays_in_cell_witness :
  exists l w',
    main sample_args net_ok (start_world sample_db_known) = Return (Finished l, w') /\
    2 <> placeholder_id l /\
    exists row lat lng c1 c2,
      In row (addresses (db (start_world sample_db_known))) /\ row_id row = 2 /\
      row_latitude row = Some lat /\ row_longitude row = Some lng /\
      snap_to_grid (lat_of (20, charging, deg 420002, deg (-710002)))
                   (lng_of (20, charging, deg 420002, deg (-710002)))
                   (grid_size sample_args) = Return c1 /\
      snap_to_grid lat lng (grid_size sample_args) = Return c2 /\
      cell_eqb c1 c2 = true.
Proof.
  eexists _, _.
  assert (H : main sample_args net_ok (start_world sample_db_known)
              = Return (Finished _, _)) by (vm_compute; reflexivity).
  split; [exact H|].
  apply (reuse_stays_in_cell sample_args net_ok (start_world sample_db_known) _ _
           (sample_key_a, [(10, drive_start, deg 420001, deg (-710001));
                           (20, charging, deg 420002, deg (-710002))])
           (20, charging, deg 420002, deg (-710002)) 2 H).
  - reflexivity.
  - vm_compute. left. reflexivity.
  - right. left. reflexivity.
  - vm_compute. reflexivity.
Defined.

(** ** A second run *)

Lemma phase2_loop_addresses (a : args) (net : network) (cells : clusters_t) :
  nonempty_records cells = true ->
  forall v w v' w',
    phase2_loop a net cells (v, w) = Return (v', w') ->
    forall row, In row (addresses (db w')) ->
      In row (addresses (db w)) \/
      exists n entry r id x y,
        lookup_of a net n entry = Some r /\
        row = row_of_address id (google_result_to_address r x y).
Proof.
  induction cells as [|[c recs] rest IH]; intros Hne v w v' w' Hloop row Hrow.
  - simpl in Hloop. inversion Hloop. subst. left. exact Hrow.
  - simpl in Hne. destruct recs as [|first tl]; [discriminate|].
    simpl in Hne. specialize (IH Hne).
    pose proof (phase2_loop_cons_inv _ _ _ _ _ _ _ Hloop) as Hok.
    cbn [phase2_loop] in Hloop.
    destruct (lookup_of a net (requests w) (c, first :: tl)) as [r|] eqn:Hl.
    + destruct (phase2_step_success a net v w c first tl r Hok Hl)
        as (w1 & Hstep & _ & _ & Ha).
      rewrite Hstep in Hloop. cbn [rbind] in Hloop.
      destruct (IH _ _ _ _ Hloop row Hrow) as [H|H]; [|right; exact H].
      rewrite Ha in H. apply in_app_or in H. destruct H as [H|[H|[]]];
        [left; exact H|].
      right. exists (requests w), (c, first :: tl), r, (addresses_id_seq (db w) + 1),
        (fst c), (snd c). split; [exact Hl | symmetry; exact H].
    + destruct (phase2_step_failure a net v w c first tl Hok Hl)
        as (w1 & Hstep & _ & _ & Hdb).
      rewrite Hstep in Hloop. cbn [rbind] in Hloop.
      destruct (IH _ _ _ _ Hloop row Hrow) as [H|H]; [|right; exact H].
      rewrite Hdb in H. left. exact H.
Qed.

(** X21.  After a fully successful run a second run has nothing to do.
    Take a real run that reaches its end with no failed lookup, from a
    store where the placeholder is the only address named as one, where
    every record that references it has its position and where the
    sequence of address IDs is not behind its ID, with a provider that
    never formats an address with "Pending Geocode" in it.  Then any
    further run with an accepted configuration, against any provider,
    finds no placeholder and ends at once in the world it started in: it
    sends no request and writes nothing. *)
Theorem second_run_has_nothing_to_do (a : args) (net : network) (w : world)
  (l : locals) (w' : world) (v2 : phase2_vars) (a2 : args) (net2 : network) :
  main a net w = Return (Finished l, w') ->
  dry_run a = false ->
  vars2 l = Some v2 ->
  api_errors v2 = 0 ->
  positions_complete (db w) (placeholder_id l) = true ->
  placeholder_id l <= addresses_id_seq (db w) ->
  (forall row, In row (addresses (db w)) -> is_placeholder_row row = true ->
               row_id row = placeholder_id l) ->
  (forall n entry r s, lookup_of a net n entry = Some r ->
                       formatted_address r = Some s ->
                       contains "Pending Geocode" s = false) ->
  config_ok a2 = true ->
  find_placeholder_id (db w') = None /\
  main a2 net2 w' = Return (NoPlaceholder, w').
Proof.
  intros Hmain Hdry Hv2 Herr Hpc Hseq Honly Hnet Hcfg.
  destruct (successful_run_end a net w l w' v2 Hmain Hdry Hv2 Herr Hpc Hseq)
    as (wl & Hloop & Hne & _ & _ & ->).
  assert (Hnone : find_placeholder_id
                    (db (commit (delete_address (placeholder_id l) (commit wl))))
                  = None).
  { unfold find_placeholder_id.
    destruct (filter is_placeholder_row _) as [|row rest] eqn:E; [reflexivity|].
    exfalso.
    assert (Hin : In row (filter is_placeholder_row
                            (addresses (db (commit (delete_address (placeholder_id l)
                                                      (commit wl)))))))
      by (rewrite E; left; reflexivity).
    apply filter_In in Hin. destruct Hin as [Hin Hp]. simpl in Hin.
    apply filter_In in Hin. destruct Hin as [Hin Hid].
    apply negb_true_iff in Hid. apply Z.eqb_neq in Hid.
    destruct (phase2_loop_addresses a net _ Hne _ _ _ _ Hloop row Hin)
      as [H|(n & entry & r & id & x & y & Hl & ->)].
    - simpl in H.
      destruct (phase1_effects false (existing_grid l) (clusters l)
                  {| matched_from_existing := 0; records_updated_phase1 := 0;
                     cells_to_geocode := [] |} w) as (_ & Ha1 & _).
      fold (phase1 false (existing_grid l) (clusters l) w) in Ha1.
      rewrite Ha1 in H. exact (Hid (Honly row H Hp)).
    - unfold is_placeholder_row in Hp. simpl in Hp.
      destruct (formatted_address r) as [s|] eqn:Hs.
      + rewrite (Hnet n entry r s Hl Hs) in Hp. discriminate.
      + discriminate. }
  split; [exact Hnone|].
  apply config_ok_checks in Hcfg. destruct Hcfg as [H1 H2].
  unfold main. rewrite H1, H2, Hnone. reflexivity.
Qed.

Lemma second_run_has_nothing_to_do_witness :
  exists l w',
    sample_run = Return (Finished l, w') /\
    find_placeholder_id (db w') = None /\
    main sample_args net_down w' = Return (NoPlaceholder, w').
Proof.
  eexists _, _.
  assert (H : sample_run = Return (Finished _, _)) by (vm_compute; reflexivity).
  split; [exact H|].
  apply (second_run_has_nothing_to_do sample_args net_ok (start_world sample_db) _ _
           {| api_calls := 2; api_errors := 0; records_updated_phase2 := 3 |}
           sample_args net_down H).
  - reflexivity.
  - reflexivity.
  - reflexivity.
  - vm_compute. reflexivity.
  - vm_compute. discriminate.
  - intros row [<-|[]] _. reflexivity.
  - intros n entry r s Hl Hs. unfold lookup_of in Hl.
    destruct (representative entry) as [[lat lng]|]; [|discriminate].
    simpl in Hl. inversion Hl. subst r. simpl in Hs. inversion Hs. reflexivity.
  - reflexivity.
Defined.

(** ** Fan-out *)

Lemma references_of_update_all (records : list pending_record) (aid : Z)
  (t : record_type) (rid : Z) :
  forall w,
    references_of (db (update_all records aid w)) t rid =
    if targets records t rid
    then map (fun _ => Some aid) (references_of (db w) t rid)
    else references_of (db w) t rid.
Proof.
  unfold update_all. induction records as [|r rest IH]; intros w; [reflexivity|].
  cbn [fold_left]. rewrite IH.
  change (db (update_records (record_type_of r) (record_id_of r) aid w))
    with (update_table (record_type_of r) (record_id_of r) aid (db w)).
  rewrite references_of_update.
  unfold targets. cbn [existsb]. fold (targets rest t rid).
  destruct (record_type_eqb (record_type_of r) t && (record_id_of r =? rid)),
           (targets rest t rid); cbn [orb]; try reflexivity.
  rewrite map_map. reflexivity.
Qed.

(** X22.  The loop that gives an address to the records of a cluster
    makes every record of the cluster reference that address and changes
    the reference of no other record; run a second time with the same
    address it changes nothing more. *)
Theorem fan_out_sets_every_record (records : list pending_record) (aid : Z)
  (w : world) (t : record_type) (rid : Z) :
  references_of (db (update_all records aid w)) t rid =
  (if targets records t rid
   then map (fun _ => Some aid) (references_of (db w) t rid)
   else references_of (db w) t rid) /\
  references_of (db (update_all records aid (update_all records aid w))) t rid =
  references_of (db (update_all records aid w)) t rid.
Proof.
  split; [apply references_of_update_all|].
  rewrite !references_of_update_all.
  destruct (targets records t rid); [|reflexivity].
  rewrite map_map. reflexivity.
Qed.

(* ================================================================== *)
(** * Lookups *)

(** ** One turn of the loop *)

(** The store after a turn whose lookup succeeds: the ID sequence has
    moved by one and the records of the cluster, and no other, reference
    the new address. *)
Lemma phase2_step_success_refs (a : args) (net : network) (v : phase2_vars)
  (w : world) (c : cell) (first : pending_record) (rest : list pending_record)
  (r : google_result) :
  turn_ok a net (requests w) (c, first :: rest) = true ->
  lookup_of a net (requests w) (c, first :: rest) = Some r ->
  exists v' w',
    phase2_step a net (v, w) (c, first :: rest) = Return (v', w') /\
    addresses_id_seq (db w') = addresses_id_seq (db w) + 1 /\
    forall t rid,
      references_of (db w') t rid =
      if targets (first :: rest) t rid
      then map (fun _ => Some (addresses_id_seq (db w) + 1)) (references_of (db w) t rid)
      else references_of (db w) t rid.
Proof.
  intros Hok Hr. destruct (turn_ok_cons _ _ _ _ _ _ Hok) as [Hans Hpause].
  unfold lookup_of, representative in Hr. simpl in Hr.
  destruct c as [grid_lat grid_lng].
  unfold phase2_step. rewrite (reverse_geocode_google_answers _ _ _ _ _ Hans).
  cbn [rbind]. rewrite Hr.
  unfold insert_address.
  match goal with
  | |- context [update_all ?rs ?id ?w0] =>
      pose proof (fun t rid => references_of_update_all rs id t rid w0) as U;
      destruct (update_all_spec rs id w0) as (_ & _ & _ & Us);
      set (wu := update_all rs id w0) in *
  end.
  destruct (commit_if_spec (api_calls v + 1) wu) as (_ & _ & C3).
  set (wc := if (api_calls v + 1) mod 50 =? 0 then commit wu else wu) in *.
  destruct (pause_spec a wc Hpause) as (wp & Hp & _ & _ & P3).
  eexists _, wp. split; [rewrite Hp; reflexivity|].
  cbv zeta in C3. rewrite P3, C3, Us. split; [reflexivity|].
  intros t rid. rewrite U. destruct t; reflexivity.
Qed.

(** What a turn that returns has done. *)
Lemma phase2_step_effect (a : args) (net : network) (v : phase2_vars) (w : world)
  (c : cell) (first : pending_record) (tl : list pending_record)
  (v1 : phase2_vars) (w1 : world) :
  phase2_step a net (v, w) (c, first :: tl) = Return (v1, w1) ->
  requests w1 = S (requests w) /\
  match lookup_of a net (requests w) (c, first :: tl) with
  | Some r =>
      trace w1 =
        trace w ++
        EvApiCall (lat_of first) (lng_of first)
        :: EvInsert (google_result_to_address r (fst c) (snd c))
                    (addresses_id_seq (db w) + 1)
        :: updates_for (first :: tl) (addresses_id_seq (db w) + 1)
        ++ commit_events (api_calls v + 1) ++ pause_events a /\
      addresses (db w1) =
        addresses (db w) ++
        [row_of_address (addresses_id_seq (db w) + 1)
           (google_result_to_address r (fst c) (snd c))] /\
      addresses_id_seq (db w1) = addresses_id_seq (db w) + 1 /\
      forall t rid,
        references_of (db w1) t rid =
        if targets (first :: tl) t rid
        then map (fun _ => Some (addresses_id_seq (db w) + 1))
                 (references_of (db w) t rid)
        else references_of (db w) t rid
  | None =>
      trace w1 = trace w ++ EvApiCall (lat_of first) (lng_of first) :: pause_events a /\
      db w1 = db w
  end.
Proof.
  intros Hstep. pose proof (phase2_step_returns _ _ _ _ _ _ Hstep) as Hok.
  destruct (lookup_of a net (requests w) (c, first :: tl)) as [r|] eqn:Hl.
  - destruct (phase2_step_success a net v w c first tl r Hok Hl)
      as (w2 & Hs & Ht & Hq & Ha).
    destruct (phase2_step_success_refs a net v w c first tl r Hok Hl)
      as (v3 & w3 & Hs3 & Hseq & Href).
    rewrite Hstep in Hs, Hs3. inversion Hs. inversion Hs3. subst.
    repeat (split; [assumption|]). exact Href.
  - destruct (phase2_step_failure a net v w c first tl Hok Hl)
      as (w2 & Hs & Ht & Hq & Hdb).
    rewrite Hstep in Hs. inversion Hs. subst.
    repeat (split; [assumption|]). exact Hdb.
Qed.

(** ** The loop *)

(** The lookups of a loop that returns: the address of a cluster whose
    lookup succeeded is inserted under a new ID, stays in the table, and
    is what the records of the cluster reference at the end, as long as
    no other cluster holds a record of the same kind and ID. *)
Lemma phase2_loop_lookups (a : args) (net : network) (cells : clusters_t) :
  forall v w v' w',
    phase2_loop a net cells (v, w) = Return (v', w') ->
    addresses_id_seq (db w) <= addresses_id_seq (db w') /\
    (forall row, In row (addresses (db w)) -> In row (addresses (db w'))) /\
    (forall t rid,
        (forall e, In e cells -> targets (snd e) t rid = false) ->
        references_of (db w') t rid = references_of (db w) t rid) /\
    exists delta,
      trace w' = trace w ++ delta /\
      forall i entry r,
        nth_error cells i = Some entry ->
        lookup_of a net (requests w + i)%nat entry = Some r ->
        exists id,
          addresses_id_seq (db w) < id /\
          In (EvInsert (google_result_to_address r (fst (fst entry)) (snd (fst entry))) id)
             delta /\
          In (row_of_address id
                (google_result_to_address r (fst (fst entry)) (snd (fst entry))))
             (addresses (db w')) /\
          (forall rec, In rec (snd entry) ->
                       In (EvUpdate (record_type_of rec) (record_id_of rec) id) delta) /\
          forall t rid,
            targets (snd entry) t rid = true ->
            (forall j e, nth_error cells j = Some e -> j <> i ->
                         targets (snd e) t rid = false) ->
            references_of (db w') t rid =
            map (fun _ => Some id) (references_of (db w) t rid).
Proof.
  induction cells as [|[c recs] rest IH]; intros v w v' w' Hloop.
  - simpl in Hloop. inversion Hloop. subst v' w'.
    split; [lia|]. split; [auto|]. split; [auto|].
    exists []. rewrite app_nil_r. split; [reflexivity|].
    intros [|i] entry r H; discriminate.
  - pose proof (phase2_loop_cons_inv _ _ _ _ _ _ _ Hloop) as Hok.
    destruct recs as [|first tl]; [discriminate Hok|].
    cbn [phase2_loop] in Hloop.
    destruct (phase2_step a net (v, w) (c, first :: tl)) as [e|[v1 w1]] eqn:Hstep;
      [discriminate|].
    cbn [rbind] in Hloop.
    destruct (phase2_step_effect _ _ _ _ _ _ _ _ _ Hstep) as [Hq Heff].
    destruct (IH _ _ _ _ Hloop) as (Hseq2 & Hrows2 & Hframe2 & d2 & Ht2 & Hi2).
    assert (Hrest : forall t rid i,
               (forall j e, nth_error ((c, first :: tl) :: rest) j = Some e ->
                            j <> i -> targets (snd e) t rid = false) ->
               (i = O -> forall e, In e rest -> targets (snd e) t rid = false) /\
               (forall i', i = S i' ->
                           targets (first :: tl) t rid = false /\
                           forall j e, nth_error rest j = Some e -> j <> i' ->
                                       targets (snd e) t rid = false)).
    { intros t rid i H. split.
      - intros -> e He. apply In_nth_error in He. destruct He as (j & Hj).
        apply (H (S j) e); [exact Hj | discriminate].
      - intros i' ->. split.
        + apply (H O (c, first :: tl)); [reflexivity | discriminate].
        + intros j e Hj Hne. apply (H (S j) e); [exact Hj | lia]. }
    destruct (lookup_of a net (requests w) (c, first :: tl)) as [r0|] eqn:Hl.
    + destruct Heff as (Ht & Ha & Hs & Href).
      split; [lia|].
      split; [intros row Hin; apply Hrows2; rewrite Ha; apply in_or_app; left; exact Hin|].
      split.
      { intros t rid Hno. rewrite Hframe2 by (intros e He; apply Hno; right; exact He).
        pose proof (Hno (c, first :: tl) (or_introl eq_refl)) as Hhead.
        cbn [snd] in Hhead. rewrite Href, Hhead. reflexivity. }
      eexists (_ ++ d2). split; [rewrite Ht2, Ht, <- app_assoc; reflexivity|].
      intros [|i] entry r Hn Hr.
      * simpl in Hn. inversion Hn. subst entry. clear Hn.
        rewrite Nat.add_0_r, Hl in Hr. inversion Hr. subst r0. clear Hr.
        exists (addresses_id_seq (db w) + 1). cbn [fst snd].
        split; [lia|].
        split; [apply in_or_app; left; right; left; reflexivity|].
        split; [apply Hrows2; rewrite Ha; apply in_or_app; right; left; reflexivity|].
        split.
        { intros rec Hrec. apply in_or_app. left. right. right.
          apply in_or_app. left. unfold updates_for.
          apply (in_map (fun r0 => EvUpdate (record_type_of r0) (record_id_of r0)
                                     (addresses_id_seq (db w) + 1))), Hrec. }
        intros t rid Htg Hothers.
        destruct (Hrest t rid O Hothers) as [H0 _].
        rewrite (Hframe2 t rid (H0 eq_refl)), Href, Htg. reflexivity.
      * simpl in Hn. rewrite Nat.add_succ_r, <- Nat.add_succ_l, <- Hq in Hr.
        destruct (Hi2 i entry r Hn Hr) as (id & Hid & Hins & Hrow & Hup & Hrefs).
        exists id. split; [lia|].
        split; [apply in_or_app; right; exact Hins|].
        split; [exact Hrow|].
        split; [intros rec Hrec; apply in_or_app; right; exact (Hup rec Hrec)|].
        intros t rid Htg Hothers.
        destruct (Hrest t rid (S i) Hothers) as [_ HS].
        destruct (HS i eq_refl) as [Hhead Hrs].
        rewrite (Hrefs t rid Htg Hrs), Href, Hhead. reflexivity.
    + destruct Heff as (Ht & Hdb).
      split; [rewrite <- Hdb; exact Hseq2|].
      split; [intros row Hin; apply Hrows2; rewrite Hdb; exact Hin|].
      split.
      { intros t rid Hno. rewrite Hframe2 by (intros e He; apply Hno; right; exact He).
        rewrite Hdb. reflexivity. }
      eexists (_ ++ d2). split; [rewrite Ht2, Ht, <- app_assoc; reflexivity|].
      intros [|i] entry r Hn Hr.
      * simpl in Hn. inversion Hn. subst entry.
        rewrite Nat.add_0_r, Hl in Hr. discriminate.
      * simpl in Hn. rewrite Nat.add_succ_r, <- Nat.add_succ_l, <- Hq in Hr.
        destruct (Hi2 i entry r Hn Hr) as (id & Hid & Hins & Hrow & Hup & Hrefs).
        exists id. split; [rewrite <- Hdb; exact Hid|].
        split; [apply in_or_app; right; exact Hins|].
        split; [exact Hrow|].
        split; [intros rec Hrec; apply in_or_app; right; exact (Hup rec Hrec)|].
        intros t rid Htg Hothers.
        destruct (Hrest t rid (S i) Hothers) as [_ HS].
        destruct (HS i eq_refl) as [_ Hrs].
        rewrite (Hrefs t rid Htg Hrs), Hdb. reflexivity.
Qed.

(** ** Records that are in one cluster only *)

Lemma NoDup_app_disjoint {A : Type} (l1 l2 : list A) (x : A) :
  NoDup (l1 ++ l2) -> In x l1 -> In x l2 -> False.
Proof.
  induction l1 as [|y l1 IH]; simpl; intros H H1 H2; [destruct H1|].
  inversion H as [|? ? Hy Hrest]. subst. destruct H1 as [->|H1].
  - apply Hy. apply in_or_app. right. exact H2.
  - exact (IH Hrest H1 H2).
Qed.

Lemma targets_key (records : list pending_record) (t : record_type) (rid : Z) :
  targets records t rid = true <-> In (t, rid) (map record_key records).
Proof.
  rewrite targets_In. split.
  - intros (r & Hin & <- & <-). apply in_map_iff. exists r. split; [reflexivity | exact Hin].
  - intros H. apply in_map_iff in H. destruct H as (r & Hk & Hin).
    unfold record_key in Hk. inversion Hk. exists r. repeat split; assumption.
Qed.

Lemma in_all_records (d : clusters_t) (e : cell * list pending_record)
  (r : pending_record) :
  In e d -> In r (snd e) -> In r (all_records d).
Proof.
  intros He Hr. unfold all_records. apply in_concat. exists (snd e).
  split; [apply in_map, He | exact Hr].
Qed.

(** When no record is in the clusters twice, the clusters kept by a filter
    have no record twice either. *)
Lemma distinct_records_filter (f : cell * list pending_record -> bool)
  (clus : clusters_t) :
  NoDup (map record_key (all_records clus)) ->
  NoDup (map record_key (all_records (filter f clus))).
Proof.
  induction clus as [|e rest IH]; intros H; [exact H|].
  rewrite all_records_cons, map_app in H. simpl.
  destruct (f e).
  - rewrite all_records_cons, map_app. apply NoDup_app.
    + exact (NoDup_app_remove_r _ _ H).
    + exact (IH (NoDup_app_remove_l _ _ H)).
    + intros k Hk Hk'. apply (NoDup_app_disjoint _ _ k H Hk).
      apply in_map_iff in Hk'. destruct Hk' as (r & <- & Hr).
      apply in_map. unfold all_records in Hr. apply in_concat in Hr.
      destruct Hr as (recs & Hrecs & Hr). apply in_map_iff in Hrecs.
      destruct Hrecs as (e' & <- & He'). apply filter_In in He'.
      exact (in_all_records rest e' r (proj1 He') Hr).
  - exact (IH (NoDup_app_remove_l _ _ H)).
Qed.

(** When no record is in the clusters twice, a record of one cluster is a
    record of no other. *)
Lemma distinct_records_apart (cells : clusters_t) :
  NoDup (map record_key (all_records cells)) ->
  forall i j e e' t rid,
    nth_error cells i = Some e -> nth_error cells j = Some e' -> i <> j ->
    targets (snd e) t rid = true -> targets (snd e') t rid = false.
Proof.
  induction cells as [|x rest IH]; intros H i j e e' t rid Hi Hj Hne Ht.
  - destruct i; discriminate.
  - rewrite all_records_cons, map_app in H.
    destruct (targets (snd e') t rid) eqn:Ht'; [exfalso | reflexivity].
    apply targets_key in Ht, Ht'.
    destruct i as [|i], j as [|j]; simpl in Hi, Hj.
    + contradiction.
    + inversion Hi. subst x. apply (NoDup_app_disjoint _ _ (t, rid) H Ht).
      apply in_map_iff in Ht'. destruct Ht' as (r & <- & Hr).
      apply in_map. exact (in_all_records rest e' r (nth_error_In _ _ Hj) Hr).
    + inversion Hj. subst x. apply (NoDup_app_disjoint _ _ (t, rid) H Ht').
      apply in_map_iff in Ht. destruct Ht as (r & <- & Hr).
      apply in_map. exact (in_all_records rest e r (nth_error_In _ _ Hi) Hr).
    + apply targets_key in Ht, Ht'.
      rewrite (IH (NoDup_app_remove_l _ _ H) i j e e' t rid Hi Hj
                 ltac:(intros ->; apply Hne; reflexivity) Ht) in Ht'.
      discriminate.
Qed.

(** ** References through Phases 1 and 3 *)

Lemma update_all_references_length (records : list pending_record) (aid : Z)
  (t : record_type) (rid : Z) (w : world) :
  List.length (references_of (db (update_all records aid w)) t rid)
  = List.length (references_of (db w) t rid).
Proof.
  rewrite references_of_update_all.
  destruct (targets records t rid); [apply length_map | reflexivity].
Qed.

(** Phase 1 moves references, it neither adds nor removes a record. *)
Lemma phase1_references_length (eg : dict Z) (t : record_type) (rid : Z)
  (clus : clusters_t) :
  forall v w,
    List.length
      (references_of (db (snd (fold_left (phase1_step false eg) clus (v, w)))) t rid)
    = List.length (references_of (db w) t rid).
Proof.
  induction clus as [|[c recs] rest IH]; intros v w; simpl; [reflexivity|].
  destruct (dict_get c eg) as [aid|]; rewrite IH;
    [apply update_all_references_length | reflexivity].
Qed.

(** A pending record references the placeholder. *)
Lemma pending_record_refers (d : database) (pid : Z) (r : pending_record) :
  In r (get_pending_records d pid) ->
  refers d pid (record_type_of r) (record_id_of r) = true.
Proof.
  intros Hin. unfold get_pending_records in Hin.
  apply in_app_or in Hin. destruct Hin as [Hin|Hin];
    [|apply in_app_or in Hin; destruct Hin as [Hin|Hin]];
    apply in_flat_map in Hin; destruct Hin as (row & Hrow & Hin).
  - destruct (col_is (start_address_id row) pid) eqn:Hc; [|destruct Hin].
    unfold pending_of in Hin. apply in_map_iff in Hin. destruct Hin as (p & <- & _).
    exact (refers_of_row_start d pid row Hrow Hc).
  - destruct (col_is (end_address_id row) pid) eqn:Hc; [|destruct Hin].
    unfold pending_of in Hin. apply in_map_iff in Hin. destruct Hin as (p & <- & _).
    exact (refers_of_row_end d pid row Hrow Hc).
  - destruct (col_is (address_id row) pid) eqn:Hc; [|destruct Hin].
    unfold pending_of in Hin. apply in_map_iff in Hin. destruct Hin as (p & <- & _).
    exact (refers_of_row_charging d pid row Hrow Hc).
Qed.

Lemma refers_nonempty (d : database) (id : Z) (t : record_type) (rid : Z) :
  refers d id t rid = true -> references_of d t rid <> [].
Proof.
  unfold refers. destruct (references_of d t rid); [discriminate | discriminate].
Qed.

Lemma api_calls_of_app (t1 t2 : list event) :
  api_calls_of (t1 ++ t2) = api_calls_of t1 ++ api_calls_of t2.
Proof. unfold api_calls_of. apply flat_map_app. Qed.

(** Phase 3 sends no request and moves no reference; it removes the
    placeholder's row at most. *)
Lemma phase3_effects (pid : Z) (w : world) :
  let w' := snd (phase3 pid w) in
  requests w' = requests w /\
  (forall t rid, references_of (db w') t rid = references_of (db w) t rid) /\
  (forall row, In row (addresses (db w)) -> row_id row <> pid ->
               In row (addresses (db w'))) /\
  exists d3, trace w' = trace w ++ d3 /\ api_calls_of d3 = [].
Proof.
  unfold phase3. cbn [snd].
  destruct (count_references (db w) pid =? 0).
  - split; [reflexivity|]. split; [intros [] rid; reflexivity|].
    split.
    + intros row Hin Hne. simpl. apply filter_In. split; [exact Hin|].
      apply negb_true_iff, Z.eqb_neq, Hne.
    + exists [EvDelete pid; EvCommit]. split; [|reflexivity].
      simpl. rewrite <- app_assoc. reflexivity.
  - split; [reflexivity|]. split; [reflexivity|]. split; [auto|].
    exists []. rewrite app_nil_r. split; reflexivity.
Qed.

(** The lookup of a cluster succeeds on a reply with status OK whose first
    result is not an empty object. *)
Lemma lookup_of_ok (a : args) (net : network) (n : nat)
  (entry : cell * list pending_record) (first : pending_record)
  (tl : list pending_record) (data : geocode_data) (r : google_result)
  (rs : list google_result) :
  snd entry = first :: tl ->
  net n (lat_of first) (lng_of first) (api_key a) = Response data ->
  status data = Some "OK" -> results data = Some (r :: rs) ->
  result_truthy r = true ->
  lookup_of a net n entry = Some r.
Proof.
  intros Hrecs Hnet Hst Hrs Htr. unfold lookup_of, representative.
  rewrite Hrecs, Hnet. apply usable_spec. exists data, rs. repeat split; assumption.
Qed.

(** The real run that reaches its end, Phase by Phase. *)
Lemma real_run_phases (a : args) (net : network) (w : world) (l : locals)
  (w' : world) :
  main a net w = Return (Finished l, w') ->
  dry_run a = false ->
  exists v2 w1 wl d1,
    w1 = snd (phase1 false (existing_grid l) (clusters l) w) /\
    requests w1 = requests w /\
    addresses_id_seq (db w1) = addresses_id_seq (db w) /\
    trace w1 = trace w ++ d1 /\ api_calls_of d1 = [] /\
    cells_to_geocode (vars1 l) = filter (unmatched (existing_grid l)) (clusters l) /\
    nonempty_records (cells_to_geocode (vars1 l)) = true /\
    build_clusters (pending l) (grid_size a) = Return (clusters l) /\
    pending l = get_pending_records (db w) (placeholder_id l) /\
    phase2_loop a net (cells_to_geocode (vars1 l))
      ({| api_calls := 0; api_errors := 0; records_updated_phase2 := 0 |}, commit w1)
    = Return (v2, wl) /\
    vars2 l = Some v2 /\
    w' = snd (phase3 (placeholder_id l) (commit wl)).
Proof.
  intros Hmain Hdry.
  destruct (main_finished_inv a net w l w' Hmain)
    as (_ & _ & _ & _ & Hpend & _ & Hclus & _ & _ & Hv1 & _ & Hreal).
  rewrite Hdry in Hreal, Hv1.
  destruct Hreal as (v2 & w2 & Hp2 & Hv2 & _ & Hw' & _).
  destruct (kept_clusters false _ _ _ (existing_grid l) w Hclus) as (Hcells & Hne & _).
  rewrite <- Hcells, <- Hv1 in Hne. rewrite <- Hv1 in Hcells.
  unfold phase2 in Hp2.
  destruct (phase2_loop a net _ _) as [e|[vl wl]] eqn:Hloop; [discriminate|].
  cbn [rbind fst snd] in Hp2. inversion Hp2. subst vl w2. clear Hp2.
  destruct (phase1_effects false (existing_grid l) (clusters l)
              {| matched_from_existing := 0; records_updated_phase1 := 0;
                 cells_to_geocode := [] |} w) as (Hq1 & _ & Hs1 & d1 & Ht1 & _ & Hc1).
  fold (phase1 false (existing_grid l) (clusters l) w) in Hq1, Hs1, Ht1.
  exists v2, (snd (phase1 false (existing_grid l) (clusters l) w)), wl, d1.
  repeat (split; [assumption || reflexivity|]). exact Hw'.
Qed.

(** ** One lookup for each cluster *)

(** C1.  In a real run that reaches its end, the clusters processed in
    Phase 2 are the clusters with no address in the catalog, and exactly
    one request is sent for each of them whatever the number of its
    records: the requests of the run are, in order, those of the first
    records of these clusters, and the counter of calls and the number of
    requests sent are the number of these clusters.  When the provider
    answers the request of a cluster with status OK and a first result
    that is not empty, one address is inserted for that result, and the ID
    the insert returned is written to every record of the cluster: at the
    end of the run each of them references that address and no other.
    Records are told apart by kind and ID, as the updates tell them
    apart: no pending record has the kind and ID of another one. *)
Theorem one_lookup_per_cluster (a : args) (net : network) (w : world)
  (l : locals) (w' : world) :
  main a net w = Return (Finished l, w') ->
  dry_run a = false ->
  NoDup (map record_key (pending l)) ->
  cells_to_geocode (vars1 l) = filter (unmatched (existing_grid l)) (clusters l) /\
  exists v2 delta,
    vars2 l = Some v2 /\
    api_calls v2 = len (cells_to_geocode (vars1 l)) /\
    requests w' = (requests w + List.length (cells_to_geocode (vars1 l)))%nat /\
    trace w' = trace w ++ delta /\
    map Some (api_calls_of delta) = map representative (cells_to_geocode (vars1 l)) /\
    forall i entry first tl data r rs,
      nth_error (cells_to_geocode (vars1 l)) i = Some entry ->
      snd entry = first :: tl ->
      net (requests w + i)%nat (lat_of first) (lng_of first) (api_key a)
      = Response data ->
      status data = Some "OK" ->
      results data = Some (r :: rs) ->
      result_truthy r = true ->
      exists id,
        In (EvInsert (google_result_to_address r (fst (fst entry)) (snd (fst entry))) id)
           delta /\
        forall rec,
          In rec (snd entry) ->
          In (EvUpdate (record_type_of rec) (record_id_of rec) id) delta /\
          refers (db w') id (record_type_of rec) (record_id_of rec) = true /\
          forall col,
            In col (references_of (db w') (record_type_of rec) (record_id_of rec)) ->
            col = Some id.
Proof.
  intros Hmain Hdry Hnd.
  destruct (real_run_phases a net w l w' Hmain Hdry)
    as (v2 & w1 & wl & d1 & Hw1 & Hq1 & _ & Ht1 & Hc1 & Hcells & Hne & Hclus & Hpend
        & Hloop & Hv2 & Hw').
  split; [exact Hcells|].
  destruct (phase2_loop_returns _ _ _ _ _ _ Hloop) as [_ Hoks].
  destruct (phase2_loop_spec a net _ Hne
              {| api_calls := 0; api_errors := 0; records_updated_phase2 := 0 |}
              (commit w1) Hoks)
    as (vA & wA & dA & HloopA & HtA & HqA & HcA & HmA & _).
  rewrite Hloop in HloopA. inversion HloopA. subst vA wA. clear HloopA.
  destruct (phase2_loop_lookups a net _ _ _ _ _ Hloop)
    as (_ & _ & _ & dB & HtB & HiB).
  assert (dB = dA) by (rewrite HtA in HtB; apply app_inv_head in HtB; symmetry; exact HtB).
  subst dB. clear HtB.
  destruct (phase3_effects (placeholder_id l) (commit wl))
    as (Hq3 & Hr3 & _ & d3 & Ht3 & Hc3).
  rewrite <- Hw' in Hq3, Hr3, Ht3.
  change (requests (commit wl)) with (requests wl) in Hq3.
  change (requests (commit w1)) with (requests w1) in HqA, HiB.
  change (trace (commit wl)) with (trace wl ++ [EvCommit]) in Ht3.
  change (trace (commit w1)) with (trace w1 ++ [EvCommit]) in HtA.
  assert (Hcellsnd : NoDup (map record_key (all_records (cells_to_geocode (vars1 l))))).
  { rewrite Hcells. apply distinct_records_filter.
    apply (Permutation_NoDup
             (Permutation_sym (Permutation_map record_key
                                 (build_clusters_records _ _ _ Hclus)))).
    exact Hnd. }
  exists v2, (d1 ++ [EvCommit] ++ dA ++ [EvCommit] ++ d3).
  split; [exact Hv2|].
  split; [rewrite HcA; cbn [api_calls]; lia|].
  split; [rewrite Hq3, HqA, Hq1; reflexivity|].
  split; [rewrite Ht3, HtA, Ht1, <- !app_assoc; reflexivity|].
  split.
  { rewrite !api_calls_of_app, Hc1, Hc3.
    change (api_calls_of [EvCommit]) with (@nil (float * float)).
    cbn [app]. rewrite app_nil_r. exact HmA. }
  intros i entry first tl data r rs Hn Hrecs Hnet Hst Hrs Htr.
  assert (Hl : lookup_of a net (requests w1 + i)%nat entry = Some r)
    by (rewrite Hq1; exact (lookup_of_ok a net _ entry first tl data r rs
                              Hrecs Hnet Hst Hrs Htr)).
  destruct (HiB i entry r Hn Hl) as (id & _ & Hins & _ & Hup & Hrefs).
  exists id.
  split; [apply in_or_app; right; apply in_or_app; right;
          apply in_or_app; left; exact Hins|].
  intros rec Hrec.
  split; [apply in_or_app; right; apply in_or_app; right;
          apply in_or_app; left; exact (Hup rec Hrec)|].
  assert (Htg : targets (snd entry) (record_type_of rec) (record_id_of rec) = true)
    by (apply targets_In; exists rec; repeat split; assumption).
  assert (Hothers : forall j e, nth_error (cells_to_geocode (vars1 l)) j = Some e ->
                                j <> i ->
                                targets (snd e) (record_type_of rec) (record_id_of rec)
                                = false).
  { intros j e Hj Hne'.
    apply (distinct_records_apart _ Hcellsnd i j entry e _ _ Hn Hj);
      [intros ->; apply Hne'; reflexivity | exact Htg]. }
  pose proof (Hrefs _ _ Htg Hothers) as E.
  change (db (commit w1)) with (db w1) in E.
  rewrite <- Hr3 in E.
  assert (Hnonempty : references_of (db w1) (record_type_of rec) (record_id_of rec) <> []).
  { assert (Hpendrec : In rec (pending l)).
    { apply (Permutation_in _ (build_clusters_records _ _ _ Hclus)).
      apply (in_all_records _ entry rec); [|exact Hrec].
      apply nth_error_In in Hn. rewrite Hcells in Hn.
      apply filter_In in Hn. exact (proj1 Hn). }
    rewrite Hpend in Hpendrec.
    pose proof (refers_nonempty _ _ _ _ (pending_record_refers _ _ _ Hpendrec)) as Hne0.
    intros Hnil. apply Hne0. apply length_zero_iff_nil.
    rewrite <- (phase1_references_length (existing_grid l) _ _ (clusters l)
                  {| matched_from_existing := 0; records_updated_phase1 := 0;
                     cells_to_geocode := [] |} w).
    fold (phase1 false (existing_grid l) (clusters l) w). rewrite <- Hw1, Hnil.
    reflexivity. }
  split.
  - unfold refers. rewrite E.
    destruct (references_of (db w1) (record_type_of rec) (record_id_of rec));
      [contradiction|].
    simpl. rewrite Z.eqb_refl. reflexivity.
  - intros col Hcol. rewrite E in Hcol. apply in_map_iff in Hcol.
    destruct Hcol as (x & <- & _). reflexivity.
Qed.

Lemma one_lookup_per_cluster_witness :
  exists l w',
    sample_run = Return (Finished l, w') /\
    List.length (cells_to_geocode (vars1 l)) = 2%nat /\
    requests w' = 2%nat /\
    exists id,
      In (EvUpdate drive_start 10 id) (trace w') /\
      In (EvUpdate charging 20 id) (trace w') /\
      refers (db w') id drive_start 10 = true /\
      refers (db w') id charging 20 = true /\
      references_of (db w') drive_start 10 = [Some id].
Proof.
  eexists _, _.
  assert (H : sample_run = Return (Finished _, _)) by (vm_compute; reflexivity).
  split; [exact H|]. split; [reflexivity|]. split; [reflexivity|].
  destruct (one_lookup_per_cluster sample_args net_ok (start_world sample_db) _ _ H
              eq_refl) as (_ & v2 & delta & _ & _ & _ & Ht & _ & Hi).
  { cbv. repeat constructor; simpl; intuition discriminate. }
  destruct (Hi 0%nat _ _ _ _ _ _ eq_refl eq_refl eq_refl eq_refl eq_refl eq_refl)
    as (id & _ & Hrecs).
  destruct (Hrecs (10, drive_start, deg 420001, deg (-710001)) (or_introl eq_refl))
    as (Hu1 & Hr1 & Hall1).
  destruct (Hrecs (20, charging, deg 420002, deg (-710002))
              (or_intror (or_introl eq_refl))) as (Hu2 & Hr2 & _).
  exists id.
  split; [rewrite Ht; apply in_or_app; right; exact Hu1|].
  split; [rewrite Ht; apply in_or_app; right; exact Hu2|].
  split; [exact Hr1|]. split; [exact Hr2|].
  rewrite (Hall1 (Some 2) (or_introl eq_refl)). reflexivity.
Defined.

(** ** What is sent and what is stored *)

(** C6, as the code has it.  In a real run that reaches its end, for every
    cluster looked up in Phase 2 the coordinate sent to the provider is the
    actual, un-snapped position of the first record of the cluster, and the
    key of the cluster is the grid cell of that position.  When the
    provider answers with status OK and a first result that is not empty,
    the address that is inserted has for latitude and longitude the key
    rounded to 6 decimal places, not the position sent; its ID is a new
    one, and its row, with these coordinates, is in the table at the end
    of the run (as long as the sequence of address IDs is not behind the
    placeholder's ID, so that the new ID is not the placeholder's). *)
Theorem lookup_sends_raw_stores_rounded_key (a : args) (net : network) (w : world)
  (l : locals) (w' : world) :
  main a net w = Return (Finished l, w') ->
  dry_run a = false ->
  exists delta,
    trace w' = trace w ++ delta /\
    forall i entry,
      nth_error (cells_to_geocode (vars1 l)) i = Some entry ->
      exists first tl,
        snd entry = first :: tl /\
        nth_error (api_calls_of delta) i = Some (lat_of first, lng_of first) /\
        snap_to_grid (lat_of first) (lng_of first) (grid_size a) = Return (fst entry) /\
        forall data r rs,
          net (requests w + i)%nat (lat_of first) (lng_of first) (api_key a)
          = Response data ->
          status data = Some "OK" ->
          results data = Some (r :: rs) ->
          result_truthy r = true ->
          exists id addr,
            In (EvInsert addr id) delta /\
            raw addr = r /\
            latitude addr = PyFloat.round_ndigits (fst (fst entry)) 6 /\
            longitude addr = PyFloat.round_ndigits (snd (fst entry)) 6 /\
            addresses_id_seq (db w) < id /\
            (placeholder_id l <= addresses_id_seq (db w) ->
             In (row_of_address id addr) (addresses (db w'))).
Proof.
  intros Hmain Hdry.
  destruct (real_run_phases a net w l w' Hmain Hdry)
    as (v2 & w1 & wl & d1 & Hw1 & Hq1 & Hs1 & Ht1 & Hc1 & Hcells & Hne & Hclus & Hpend
        & Hloop & Hv2 & Hw').
  destruct (phase2_loop_returns _ _ _ _ _ _ Hloop) as [_ Hoks].
  destruct (phase2_loop_spec a net _ Hne
              {| api_calls := 0; api_errors := 0; records_updated_phase2 := 0 |}
              (commit w1) Hoks)
    as (vA & wA & dA & HloopA & HtA & _ & _ & HmA & _).
  rewrite Hloop in HloopA. inversion HloopA. subst vA wA. clear HloopA.
  destruct (phase2_loop_lookups a net _ _ _ _ _ Hloop)
    as (_ & _ & _ & dB & HtB & HiB).
  assert (dB = dA) by (rewrite HtA in HtB; apply app_inv_head in HtB; symmetry; exact HtB).
  subst dB. clear HtB.
  destruct (phase3_effects (placeholder_id l) (commit wl))
    as (_ & _ & Hrows3 & d3 & Ht3 & Hc3).
  rewrite <- Hw' in Hrows3, Ht3.
  change (requests (commit w1)) with (requests w1) in HiB.
  change (addresses_id_seq (db (commit w1))) with (addresses_id_seq (db w1)) in HiB.
  change (trace (commit wl)) with (trace wl ++ [EvCommit]) in Ht3.
  change (trace (commit w1)) with (trace w1 ++ [EvCommit]) in HtA.
  change (addresses (db (commit wl))) with (addresses (db wl)) in Hrows3.
  exists (d1 ++ [EvCommit] ++ dA ++ [EvCommit] ++ d3).
  split; [rewrite Ht3, HtA, Ht1, <- !app_assoc; reflexivity|].
  assert (Hcalls : api_calls_of (d1 ++ [EvCommit] ++ dA ++ [EvCommit] ++ d3)
                   = api_calls_of dA).
  { rewrite !api_calls_of_app, Hc1, Hc3.
    change (api_calls_of [EvCommit]) with (@nil (float * float)).
    cbn [app]. apply app_nil_r. }
  intros i entry Hn.
  assert (Hkey : key_is_snap (grid_size a) entry).
  { pose proof (build_clusters_key_is_snap _ _ _ Hclus) as Hall.
    rewrite Forall_forall in Hall. apply Hall.
    apply nth_error_In in Hn. rewrite Hcells in Hn.
    apply filter_In in Hn. exact (proj1 Hn). }
  unfold key_is_snap in Hkey.
  destruct (snd entry) as [|first tl] eqn:Hrecs; [contradiction|].
  exists first, tl. split; [reflexivity|]. split; [|split; [exact Hkey|]].
  - rewrite Hcalls.
    assert (H : nth_error (map Some (api_calls_of dA)) i
                = nth_error (map representative (cells_to_geocode (vars1 l))) i)
      by (rewrite HmA; reflexivity).
    rewrite !nth_error_map, Hn in H. simpl in H.
    unfold representative in H. rewrite Hrecs in H.
    destruct (nth_error (api_calls_of dA) i) as [p|]; [|discriminate].
    simpl in H. inversion H. reflexivity.
  - intros data r rs Hnet Hst Hrs Htr.
    assert (Hl : lookup_of a net (requests w1 + i)%nat entry = Some r)
      by (rewrite Hq1; exact (lookup_of_ok a net _ entry first tl data r rs
                                Hrecs Hnet Hst Hrs Htr)).
    destruct (HiB i entry r Hn Hl) as (id & Hid & Hins & Hrow & _).
    rewrite Hs1 in Hid.
    exists id, (google_result_to_address r (fst (fst entry)) (snd (fst entry))).
    split; [apply in_or_app; right; apply in_or_app; right;
            apply in_or_app; left; exact Hins|].
    split; [reflexivity|]. split; [reflexivity|]. split; [reflexivity|].
    split; [exact Hid|].
    intros Hseq. apply (Hrows3 _ Hrow). simpl. lia.
Qed.

Lemma lookup_sends_raw_stores_rounded_key_witness :
  exists l w',
    sample_run = Return (Finished l, w') /\
    exists delta,
      trace w' = trace (start_world sample_db) ++ delta /\
      nth_error (api_calls_of delta) 1 = Some (deg 420500, deg (-710500)) /\
      snap_to_grid (deg 420500) (deg (-710500)) DEFAULT_GRID_SIZE = Return sample_key_b /\
      exists id addr,
        In (EvInsert addr id) delta /\
        raw addr = sample_result /\
        latitude addr = PyFloat.round_ndigits (fst sample_key_b) 6 /\
        longitude addr = PyFloat.round_ndigits (snd sample_key_b) 6 /\
        In (row_of_address id addr) (addresses (db w')).
Proof.
  eexists _, _.
  assert (H : sample_run = Return (Finished _, _)) by (vm_compute; reflexivity).
  split; [exact H|].
  destruct (lookup_sends_raw_stores_rounded_key sample_args net_ok
              (start_world sample_db) _ _ H eq_refl) as (delta & Ht & Hi).
  destruct (Hi 1%nat _ eq_refl) as (first & tl & Hrecs & Hcall & Hsnap & Hok).
  cbn [snd] in Hrecs. inversion Hrecs. subst first tl.
  destruct (Hok _ _ _ eq_refl eq_refl eq_refl eq_refl)
    as (id & addr & Hins & Hraw & Hlat & Hlng & _ & Hrow).
  exists delta. split; [exact Ht|]. split; [exact Hcall|]. split; [exact Hsnap|].
  exists id, addr. repeat (split; [assumption|]).
  apply Hrow. simpl. lia.
Defined.


(** C6, as stated, fails.  On a grid of 2.5e-7 degrees, a drive start at
    (42.05000025, -71.05000025) is alone in its cluster, whose key is that
    position; its lookup succeeds, and the address that is inserted and
    stored has the latitude 42.05: not the latitude of the key, but the
    key rounded to 6 decimal places.  The stored coordinates are not even
    in the cell of the cluster: they snap to another cell. *)
Lemma stored_latitude_is_not_the_key :
  exists l w' addr,
    main fine_args net_ok (start_world fine_db) = Return (Finished l, w') /\
    (exists recs, cells_to_geocode (vars1 l) = [(fine_key, recs)]) /\
    addr = google_result_to_address sample_result (fst fine_key) (snd fine_key) /\
    In (EvInsert addr 2) (trace w') /\
    In (row_of_address 2 addr) (addresses (db w')) /\
    latitude addr = PyFloat.of_ratio 4205 100 /\
    fst fine_key = PyFloat.of_ratio 4205000025 100000000 /\
    PyFloat.eqb (latitude addr) (fst fine_key) = false /\
    latitude addr = PyFloat.round_ndigits (fst fine_key) 6 /\
    snap_to_grid (latitude addr) (longitude addr) fine_grid = Return fine_stored_cell /\
    cell_eqb fine_stored_cell fine_key = false.
Proof.
  eexists _, _, _. split; [vm_compute; reflexivity|].
  split; [eexists; reflexivity|].
  split; [reflexivity|].
  split; [vm_compute; right; right; left; reflexivity|].
  split; [vm_compute; left; reflexivity|].
  split; [vm_compute; reflexivity|].
  split; [vm_compute; reflexivity|].
  split; [vm_compute; reflexivity|].
  split; [vm_compute; reflexivity|].
  split; vm_compute; reflexivity.
Qed.

(** ** Lookups that fail *)

Lemma turns_ok_nth (a : args) (net : network) (cells : clusters_t) :
  forall n i entry,
    turns_ok a net n cells = true ->
    nth_error cells i = Some entry ->
    turn_ok a net (n + i)%nat entry = true.
Proof.
  induction cells as [|e rest IH]; intros n i entry Hoks Hn.
  - destruct i; discriminate.
  - cbn [turns_ok] in Hoks. apply andb_true_iff in Hoks. destruct Hoks as [Hok Hoks].
    destruct i as [|i]; simpl in Hn.
    + inversion Hn. subst e. rewrite Nat.add_0_r. exact Hok.
    + rewrite Nat.add_succ_r, <- Nat.add_succ_l. exact (IH _ _ _ Hoks Hn).
Qed.

(** C3, on the code.  A provider call that fails in a way the script
    catches (an HTTP error, a URL error) or that returns no usable result
    (a status other than OK, no result, an empty first result) is skipped:
    when the pause raises nothing the turn returns with the store exactly
    as it was, one request sent, the failure counted and no record counted
    as updated, and the loop goes on with the next cluster.  Any other
    exception of the call is not caught: it ends the turn, the loop and
    the run, so that a run that reaches its end has met none.  In the
    sample run, a timeout while the reply to the second request is read
    ends the run with that exception. *)
Theorem lookup_error_skipped_only_if_caught :
  (forall (a : args) (net : network) (v : phase2_vars) (w : world) (c : cell)
          (first : pending_record) (tl : list pending_record) (rest : clusters_t),
      call_failed (net (requests w) (lat_of first) (lng_of first) (api_key a)) ->
      pause_ok a = true ->
      exists v' w',
        phase2_step a net (v, w) (c, first :: tl) = Return (v', w') /\
        db w' = db w /\
        trace w' = trace w ++ EvApiCall (lat_of first) (lng_of first) :: pause_events a /\
        requests w' = S (requests w) /\
        api_calls v' = api_calls v + 1 /\
        api_errors v' = api_errors v + 1 /\
        records_updated_phase2 v' = records_updated_phase2 v /\
        phase2_loop a net ((c, first :: tl) :: rest) (v, w)
        = phase2_loop a net rest (v', w')) /\
  (forall (a : args) (net : network) (v : phase2_vars) (w : world) (c : cell)
          (first : pending_record) (tl : list pending_record) (rest : clusters_t)
          (cls : string),
      net (requests w) (lat_of first) (lng_of first) (api_key a) = OtherException cls ->
      phase2_step a net (v, w) (c, first :: tl) = Raise (Uncaught cls) /\
      phase2_loop a net ((c, first :: tl) :: rest) (v, w) = Raise (Uncaught cls)) /\
  (forall (a : args) (net : network) (w : world) (l : locals) (w' : world) (i : nat)
          (entry : cell * list pending_record) (first : pending_record)
          (tl : list pending_record) (cls : string),
      main a net w = Return (Finished l, w') ->
      dry_run a = false ->
      nth_error (cells_to_geocode (vars1 l)) i = Some entry ->
      snd entry = first :: tl ->
      net (requests w + i)%nat (lat_of first) (lng_of first) (api_key a)
      <> OtherException cls) /\
  main sample_args (net_timeout_at 1) (start_world sample_db)
  = Raise (Uncaught "TimeoutError").
Proof.
  split; [|split; [|split]].
  - intros a net v w c first tl rest Hfail Hpause.
    assert (Hok : turn_ok a net (requests w) (c, first :: tl) = true).
    { unfold turn_ok, representative. cbn [snd].
      rewrite (call_failed_answers _ Hfail), Hpause. reflexivity. }
    assert (Hl : lookup_of a net (requests w) (c, first :: tl) = None).
    { unfold lookup_of, representative. cbn [snd].
      exact (call_failed_unusable _ Hfail). }
    destruct (phase2_step_failure a net v w c first tl Hok Hl)
      as (w1 & Hstep & Ht & Hq & Hdb).
    eexists _, w1. split; [exact Hstep|]. split; [exact Hdb|].
    split; [exact Ht|]. split; [exact Hq|].
    split; [reflexivity|]. split; [reflexivity|]. split; [reflexivity|].
    cbn [phase2_loop]. rewrite Hstep. reflexivity.
  - intros a net v w c first tl rest cls Hnet.
    assert (Hstep : phase2_step a net (v, w) (c, first :: tl) = Raise (Uncaught cls)).
    { destruct c as [grid_lat grid_lng]. unfold phase2_step.
      rewrite (reverse_geocode_google_raises _ _ _ _ _ _ Hnet). reflexivity. }
    split; [exact Hstep|]. cbn [phase2_loop]. rewrite Hstep. reflexivity.
  - intros a net w l w' i entry first tl cls Hmain Hdry Hn Hrecs Hnet.
    destruct (real_run_phases a net w l w' Hmain Hdry)
      as (v2 & w1 & wl & d1 & _ & Hq1 & _ & _ & _ & _ & _ & _ & _ & Hloop & _).
    destruct (phase2_loop_returns _ _ _ _ _ _ Hloop) as [_ Hoks].
    change (requests (commit w1)) with (requests w1) in Hoks. rewrite Hq1 in Hoks.
    pose proof (turns_ok_nth _ _ _ _ _ _ Hoks Hn) as Hok.
    unfold turn_ok, representative in Hok. rewrite Hrecs, Hnet in Hok.
    discriminate.
  - vm_compute. reflexivity.
Qed.

Lemma lookup_error_skipped_only_if_caught_witness :
  (exists v' w',
      phase2_step sample_args net_down
        ({| api_calls := 0; api_errors := 0; records_updated_phase2 := 0 |},
         start_world sample_db)
        (sample_key_a, [(10, drive_start, deg 420001, deg (-710001))])
      = Return (v', w') /\
      db w' = db (start_world sample_db) /\
      api_calls v' = 1 /\ api_errors v' = 1 /\ records_updated_phase2 v' = 0) /\
  phase2_step sample_args (net_timeout_at 0)
    ({| api_calls := 0; api_errors := 0; records_updated_phase2 := 0 |},
     start_world sample_db)
    (sample_key_a, [(10, drive_start, deg 420001, deg (-710001))])
  = Raise (Uncaught "TimeoutError").
Proof.
  split.
  - destruct (proj1 lookup_error_skipped_only_if_caught sample_args net_down
                {| api_calls := 0; api_errors := 0; records_updated_phase2 := 0 |}
                (start_world sample_db) sample_key_a
                (10, drive_start, deg 420001, deg (-710001)) [] [] I eq_refl)
      as (v' & w' & Hstep & Hdb & _ & _ & H1 & H2 & H3 & _).
    exists v', w'. repeat (split; [assumption|]). exact H3.
  - apply (proj1 (proj2 lookup_error_skipped_only_if_caught) sample_args
             (net_timeout_at 0)
             {| api_calls := 0; api_errors := 0; records_updated_phase2 := 0 |}
             (start_world sample_db) sample_key_a
             (10, drive_start, deg 420001, deg (-710001)) [] [] "TimeoutError").
    reflexivity.
Defined.

(** ** The pause between two lookups *)


